(** * The split-tree window manager of vice (wm.go)

    A shallow embedding of the display-node tree of [wm.go] and of the
    window-manager code that edits and traverses it.

    Go keeps the tree in the heap: a [*DisplayNode] is an address, panes
    are interface values compared by identity, and the edit operations
    write to nodes through pointers.  The embedding keeps that shape: a
    store of nodes and a store of pane objects, both finite maps from
    addresses, and functions that read and write them.  Recursion over
    the store is bounded by a fuel argument; run-time panics of Go (nil
    dereference, method call on a nil interface, index out of range) are
    an explicit result. *)

From Stdlib Require Import ZArith String List.
From Stdlib Require Import Floats.SpecFloat.
From stdpp Require Import base option list gmap strings.

#[local] Set Warnings "-clear-no-such-hyp,-register-all".

Open Scope Z_scope.
Open Scope string_scope.

(** ** Results of a Go call *)

Inductive result (A : Type) : Type :=
| Ok (a : A)
| Panic        (* a Go run-time panic *)
| OutOfFuel.   (* the recursion bound of the model is exhausted *)

Arguments Ok {A} a.
Arguments Panic {A}.
Arguments OutOfFuel {A}.

Definition bind_result {A B} (r : result A) (k : A → result B) : result B :=
  match r with
  | Ok a => k a
  | Panic => Panic
  | OutOfFuel => OutOfFuel
  end.

Definition map_result {A B} (f : A → B) (r : result A) : result B :=
  bind_result r (λ a, Ok (f a)).

Notation "x <- e ;; k" := (bind_result e (λ x, k))
  (at level 100, e at next level, k at level 200, right associativity).

(** ** Data model *)

(** Addresses of heap objects. *)
Abbreviation loc := positive.

(** [float32] values are carried as data only; they are the binary32
    members of the Standard Library's [spec_float]. *)
Abbreviation float32 := spec_float.
Definition float32_zero : float32 := S754_zero false.
Definition float32_half : float32 := S754_finite false 8388608 (-24).

(** [type SplitType int] with its three constants. *)
Abbreviation SplitType := Z.
Definition SplitAxisNone : SplitType := 0.
Definition SplitAxisX : SplitType := 1.
Definition SplitAxisY : SplitType := 2.

Record SplitLine := mkSplitLine { Pos : float32; Axis : SplitType }.

(** The zero value of the struct. *)
Definition SplitLine_zero : SplitLine := mkSplitLine float32_zero SplitAxisNone.

(** The concrete pane types that [UnmarshalJSON] knows. *)
Inductive PaneType :=
| AirportInfoPane | CLIPane | EmptyPane | FlightPlanPane | FlightStripPane
| NotesViewPane | PerformancePane | RadarScopePane | ReminderPane.

Global Instance PaneType_eq_dec : EqDecision PaneType.
Proof. solve_decision. Defined.

(** A non-nil [Pane] interface value: a dynamic type and a pointer.  The
    window manager also passes dividers around as panes: [&d.SplitLine]
    points into the node [d]; [&SplitLine{}] is an object of its own. *)
Inductive PaneRef :=
| PanePtr (ty : PaneType) (a : loc)
| SplitLinePtr (d : loc)
| SplitLineObj (a : loc).

Global Instance PaneRef_eq_dec : EqDecision PaneRef.
Proof. solve_decision. Defined.

(** A [Pane] interface value; [None] is the nil interface.  Equality of
    two values is equality of dynamic type and address. *)
Abbreviation Pane := (option PaneRef).

Record DisplayNode := mkDisplayNode {
  node_Pane : Pane;
  node_SplitLine : SplitLine;
  node_Children : option loc * option loc
}.

(** [DisplayNode{}] *)
Definition DisplayNode_zero : DisplayNode :=
  mkDisplayNode None SplitLine_zero (None, None).

Definition Children0 (n : DisplayNode) : option loc := fst (node_Children n).
Definition Children1 (n : DisplayNode) : option loc := snd (node_Children n).

(** [n.Children[i]]; an index outside the array panics. *)
Definition Children_at (n : DisplayNode) (i : Z) : result (option loc) :=
  if decide (i = 0) then Ok (Children0 n)
  else if decide (i = 1) then Ok (Children1 n)
  else Panic.

Definition with_Pane (p : Pane) (n : DisplayNode) : DisplayNode :=
  mkDisplayNode p (node_SplitLine n) (node_Children n).
Definition with_SplitLine (s : SplitLine) (n : DisplayNode) : DisplayNode :=
  mkDisplayNode (node_Pane n) s (node_Children n).
Definition with_Children0 (c : option loc) (n : DisplayNode) : DisplayNode :=
  mkDisplayNode (node_Pane n) (node_SplitLine n) (c, Children1 n).
Definition with_Children1 (c : option loc) (n : DisplayNode) : DisplayNode :=
  mkDisplayNode (node_Pane n) (node_SplitLine n) (Children0 n, c).
Definition with_Pos (x : float32) (n : DisplayNode) : DisplayNode :=
  with_SplitLine (mkSplitLine x (Axis (node_SplitLine n))) n.
Definition with_Axis (a : SplitType) (n : DisplayNode) : DisplayNode :=
  with_SplitLine (mkSplitLine (Pos (node_SplitLine n)) a) n.

(** The store of [DisplayNode] objects. *)
Abbreviation NodeStore := (gmap loc DisplayNode).

(** [*d] for a node pointer [d]; nil panics. *)
Definition deref (h : NodeStore) (d : option loc) : result DisplayNode :=
  match d with
  | None => Panic
  | Some a => match h !! a with Some n => Ok n | None => Panic end
  end.

(** ** Read-only searches of the tree *)

(** [func (d *DisplayNode) NodeForPane(pane Pane) *DisplayNode] *)
Fixpoint NodeForPane (fuel : nat) (h : NodeStore) (d : option loc) (pane : Pane)
  : result (option loc) :=
  match fuel with
  | O => OutOfFuel
  | S fuel =>
      n <- deref h d ;;
      if decide (node_Pane n = pane) then Ok d
      else if decide (Children0 n = None) then Ok None
      else
        d0 <- NodeForPane fuel h (Children0 n) pane ;;
        if decide (d0 ≠ None) then Ok d0
        else NodeForPane fuel h (Children1 n) pane
  end.

(** [d.Children[i] != nil && d.Children[i].Pane == pane] *)
Definition child_holds (h : NodeStore) (c : option loc) (pane : Pane) : result bool :=
  match c with
  | None => Ok false
  | Some _ => n <- deref h c ;; Ok (bool_decide (node_Pane n = pane))
  end.

(** [func (d *DisplayNode) ParentNodeForPane(pane Pane)], returning the
    parent node and the index of the child that holds the pane, or nil
    and -1. *)
Fixpoint ParentNodeForPane (fuel : nat) (h : NodeStore) (d : option loc) (pane : Pane)
  : result (option loc * Z) :=
  match fuel with
  | O => OutOfFuel
  | S fuel =>
      match d with
      | None => Ok (None, -1)
      | Some _ =>
          n <- deref h d ;;
          b0 <- child_holds h (Children0 n) pane ;;
          if b0 : bool then Ok (d, 0)
          else
            b1 <- child_holds h (Children1 n) pane ;;
            if b1 : bool then Ok (d, 1)
            else
              r0 <- ParentNodeForPane fuel h (Children0 n) pane ;;
              if decide (fst r0 ≠ None) then Ok r0
              else ParentNodeForPane fuel h (Children1 n) pane
      end
  end.

(** [func (d *DisplayNode) VisitPanes(visit func(Pane))].  The callback
    works on a state [S]: the variables its closure captured and whatever
    else it may write.  [store] says where the nodes are in that state, and
    the node is read again after each call that may have changed it. *)
Fixpoint VisitPanes {S : Type} (store : S → NodeStore) (fuel : nat) (d : option loc)
    (visit : Pane → S → result S) (s : S) : result S :=
  match fuel with
  | O => OutOfFuel
  | S fuel =>
      n <- deref (store s) d ;;
      if decide (Axis (node_SplitLine n) = SplitAxisNone) then
        visit (node_Pane n) s
      else
        s <- VisitPanes store fuel (Children0 n) visit s ;;
        s <- match d with
             | Some a => visit (Some (SplitLinePtr a)) s
             | None => Panic
             end ;;
        n <- deref (store s) d ;;
        VisitPanes store fuel (Children1 n) visit s
  end.

(** ** Geometry of the rendering traversal

    [Extent2D], its [SplitX] and [SplitY], and the platform's DPI scale
    behind [splitLineWidth] are declared outside wm.go; the traversal is
    embedded over them. *)
Section Bounds.

Context {Extent2D : Type}.
Variable Extent2D_SplitX : Extent2D → float32 → Z → Extent2D * Extent2D * Extent2D.
Variable Extent2D_SplitY : Extent2D → float32 → Z → Extent2D * Extent2D * Extent2D.
Variable splitLineWidth : Z.

(** [func (d *DisplayNode) VisitPanesWithBounds(nodeFilter, framebufferExtent,
    displayExtent, parentDisplayExtent, fullDisplayExtent, visit)].  The
    switch has no default: a node whose axis is none of the three
    constants is skipped with its subtrees. *)
Fixpoint VisitPanesWithBounds {S : Type} (store : S → NodeStore) (fuel : nat)
    (nodeFilter : option loc → S → result (option loc * S)) (d : option loc)
    (framebufferExtent displayExtent parentDisplayExtent fullDisplayExtent : Extent2D)
    (visit : Extent2D → Extent2D → Extent2D → Extent2D → Pane → S → result S)
    (s : S) : result S :=
  match fuel with
  | O => OutOfFuel
  | S fuel =>
      ds <- nodeFilter d s ;;
      let d := fst ds in
      let s := snd ds in
      n <- deref (store s) d ;;
      if decide (Axis (node_SplitLine n) = SplitAxisNone) then
        visit framebufferExtent displayExtent parentDisplayExtent fullDisplayExtent
              (node_Pane n) s
      else if decide (Axis (node_SplitLine n) = SplitAxisX) then
        let '(f0, fs, f1) :=
          Extent2D_SplitX framebufferExtent (Pos (node_SplitLine n)) splitLineWidth in
        let '(d0, ds, d1) :=
          Extent2D_SplitX displayExtent (Pos (node_SplitLine n)) splitLineWidth in
        s <- VisitPanesWithBounds store fuel nodeFilter (Children0 n)
               f0 d0 displayExtent fullDisplayExtent visit s ;;
        s <- match d with
             | Some a => visit fs ds displayExtent fullDisplayExtent
                               (Some (SplitLinePtr a)) s
             | None => Panic
             end ;;
        n <- deref (store s) d ;;
        VisitPanesWithBounds store fuel nodeFilter (Children1 n)
          f1 d1 displayExtent fullDisplayExtent visit s
      else if decide (Axis (node_SplitLine n) = SplitAxisY) then
        let '(f0, fs, f1) :=
          Extent2D_SplitY framebufferExtent (Pos (node_SplitLine n)) splitLineWidth in
        let '(d0, ds, d1) :=
          Extent2D_SplitY displayExtent (Pos (node_SplitLine n)) splitLineWidth in
        s <- VisitPanesWithBounds store fuel nodeFilter (Children0 n)
               f0 d0 displayExtent fullDisplayExtent visit s ;;
        s <- match d with
             | Some a => visit fs ds displayExtent fullDisplayExtent
                               (Some (SplitLinePtr a)) s
             | None => Panic
             end ;;
        n <- deref (store s) d ;;
        VisitPanesWithBounds store fuel nodeFilter (Children1 n)
          f1 d1 displayExtent fullDisplayExtent visit s
      else Ok s
  end.

(** [wm.nodeFilter = func(node *DisplayNode) *DisplayNode { return node }] *)
Definition nodeFilter_identity {S : Type} (d : option loc) (s : S)
  : result (option loc * S) := Ok (d, s).

End Bounds.

(** ** Panes

    Modelled from the spec: the concrete panes and the [Pane] interface are
    declared outside wm.go.  A pane is an opaque object with a state of
    its own; the window manager only calls its methods.  [PaneImpl] is the
    method table of the concrete pane types over their state [St]. *)
Class PaneImpl (St : Type) := {
  (** the zero value [T{}] *)
  pane_zero : PaneType → St;
  (** the state of the object that [NewEmptyPane()] returns *)
  pane_NewEmptyPane : St;
  (** [Name() string] *)
  pane_Name : PaneType → St → string;
  (** [CanTakeKeyboardFocus() bool] *)
  pane_CanTakeKeyboardFocus : PaneType → St → bool;
  (** [Duplicate(nameAsCopy bool) Pane]: the state of the new object *)
  pane_Duplicate : PaneType → St → bool → St
}.

(** ** The window manager's state *)

Inductive LogEntry :=
| LogPrintf (msg : string)
| LogErrorf (msg : string).

(** The closures that [wm.handlePanePick] can hold, one constructor per
    function literal of wmInit; [ButtonPick] is the wrapper that
    [ModalButtonSet.Draw] puts around a button's callback.  (The handler
    that wmDrawUI installs for the "Create New..." menu is not among
    them.) *)
Inductive PickHandler :=
| CopyPick
| ExchangePick
| SplitPick (axis : SplitType)
| DeletePick
| ButtonPick (callback : PickHandler).

(** The heap and the fields of [wm] and [positionConfig] that the edit
    operations and the focus resolution use. *)
Record World (St : Type) := mkWorld {
  nodes : NodeStore;                  (* DisplayNode objects *)
  panes : gmap loc St;                (* objects of the concrete pane types *)
  splitLines : gmap loc SplitLine;    (* SplitLine objects outside any node *)
  DisplayRoot : option loc;           (* positionConfig.DisplayRoot *)
  paneFirstPick : Pane;
  handlePanePick : option PickHandler;
  paneConfigHelpText : string;
  keyboardFocusPane : Pane;
  active : string;                    (* wm.configButtons.active *)
  lg : list LogEntry
}.

Arguments mkWorld {St}.
Arguments nodes {St} w.
Arguments panes {St} w.
Arguments splitLines {St} w.
Arguments DisplayRoot {St} w.
Arguments paneFirstPick {St} w.
Arguments handlePanePick {St} w.
Arguments paneConfigHelpText {St} w.
Arguments keyboardFocusPane {St} w.
Arguments active {St} w.
Arguments lg {St} w.

Section State.

Context {St : Type}.

Definition set_nodes (h : NodeStore) (w : World St) : World St :=
  mkWorld h (panes w) (splitLines w) (DisplayRoot w) (paneFirstPick w)
    (handlePanePick w) (paneConfigHelpText w) (keyboardFocusPane w) (active w) (lg w).
Definition set_panes (ps : gmap loc St) (w : World St) : World St :=
  mkWorld (nodes w) ps (splitLines w) (DisplayRoot w) (paneFirstPick w)
    (handlePanePick w) (paneConfigHelpText w) (keyboardFocusPane w) (active w) (lg w).
Definition set_splitLines (sl : gmap loc SplitLine) (w : World St) : World St :=
  mkWorld (nodes w) (panes w) sl (DisplayRoot w) (paneFirstPick w)
    (handlePanePick w) (paneConfigHelpText w) (keyboardFocusPane w) (active w) (lg w).
Definition set_paneFirstPick (p : Pane) (w : World St) : World St :=
  mkWorld (nodes w) (panes w) (splitLines w) (DisplayRoot w) p
    (handlePanePick w) (paneConfigHelpText w) (keyboardFocusPane w) (active w) (lg w).
Definition set_handlePanePick (f : option PickHandler) (w : World St) : World St :=
  mkWorld (nodes w) (panes w) (splitLines w) (DisplayRoot w) (paneFirstPick w)
    f (paneConfigHelpText w) (keyboardFocusPane w) (active w) (lg w).
Definition set_paneConfigHelpText (t : string) (w : World St) : World St :=
  mkWorld (nodes w) (panes w) (splitLines w) (DisplayRoot w) (paneFirstPick w)
    (handlePanePick w) t (keyboardFocusPane w) (active w) (lg w).
Definition set_keyboardFocusPane (p : Pane) (w : World St) : World St :=
  mkWorld (nodes w) (panes w) (splitLines w) (DisplayRoot w) (paneFirstPick w)
    (handlePanePick w) (paneConfigHelpText w) p (active w) (lg w).
Definition set_active (a : string) (w : World St) : World St :=
  mkWorld (nodes w) (panes w) (splitLines w) (DisplayRoot w) (paneFirstPick w)
    (handlePanePick w) (paneConfigHelpText w) (keyboardFocusPane w) a (lg w).
Definition set_lg (l : list LogEntry) (w : World St) : World St :=
  mkWorld (nodes w) (panes w) (splitLines w) (DisplayRoot w) (paneFirstPick w)
    (handlePanePick w) (paneConfigHelpText w) (keyboardFocusPane w) (active w) l.

(** Code that reads and writes the world. *)
Definition M (A : Type) : Type := World St → result (A * World St).

Definition ret {A} (a : A) : M A := λ w, Ok (a, w).

Definition bind {A B} (m : M A) (k : A → M B) : M B :=
  λ w, match m w with
       | Ok (a, w') => k a w'
       | Panic => Panic
       | OutOfFuel => OutOfFuel
       end.

Definition lift {A} (r : World St → result A) : M A :=
  λ w, bind_result (r w) (λ a, Ok (a, w)).

Definition modify (f : World St → World St) : M unit := λ w, Ok (tt, f w).

Definition out_of_fuel {A} : M A := λ _, OutOfFuel.

End State.

Notation "x <~ e ;; k" := (bind e (λ x, k))
  (at level 100, e at next level, k at level 200, right associativity).
Notation "e ;;; k" := (bind e (λ _, k))
  (at level 100, k at level 200, right associativity).

Section Heap.

Context {St : Type}.

(** [&DisplayNode{...}]: a new object at an address not in use.  Objects
    are never freed here: what Go would collect stays in the store,
    unreachable. *)
Definition alloc_node (n : DisplayNode) : M (St:=St) loc :=
  λ w, let a := fresh (dom (nodes w)) in Ok (a, set_nodes (<[a := n]> (nodes w)) w).

(** A new object of a concrete pane type, at an address of its own (the
    pane types are taken not to be zero-size, for which Go leaves the
    equality of pointers open). *)
Definition alloc_pane (st : St) : M (St:=St) loc :=
  λ w, let a := fresh (dom (panes w)) in Ok (a, set_panes (<[a := st]> (panes w)) w).

(** [&SplitLine{...}] *)
Definition alloc_splitLine (s : SplitLine) : M (St:=St) loc :=
  λ w, let a := fresh (dom (splitLines w)) in
       Ok (a, set_splitLines (<[a := s]> (splitLines w)) w).

(** Reading [*d]. *)
Definition load (d : option loc) : M (St:=St) DisplayNode :=
  lift (λ w, deref (nodes w) d).

(** Writing a field of [*d]: [f] is the change to the struct. *)
Definition store (d : option loc) (f : DisplayNode → DisplayNode) : M (St:=St) unit :=
  λ w, match d with
       | None => Panic
       | Some a =>
           match nodes w !! a with
           | None => Panic
           | Some n => Ok (tt, set_nodes (<[a := f n]> (nodes w)) w)
           end
       end.

Definition logPrintf (msg : string) : M (St:=St) unit :=
  modify (λ w, set_lg (lg w ++ [LogPrintf msg]) w).
Definition logErrorf (msg : string) : M (St:=St) unit :=
  modify (λ w, set_lg (lg w ++ [LogErrorf msg]) w).

End Heap.

Section WindowManager.

Context {St : Type} `{!PaneImpl St}.

Definition get : M (St:=St) (World St) := λ w, Ok (w, w).

(** *** Methods of [Pane] values *)

(** The type assertions of [p] to a pointer to [CLIPane] and to a pointer
    to [SplitLine]; both are false on the nil interface. *)
Definition is_CLIPane (p : Pane) : bool :=
  match p with
  | Some (PanePtr CLIPane _) => true
  | _ => false
  end.

Definition is_SplitLine (p : Pane) : bool :=
  match p with
  | Some (SplitLinePtr _) | Some (SplitLineObj _) => true
  | _ => false
  end.

(** [p.CanTakeKeyboardFocus()]: false for a [*SplitLine], the concrete
    type's method otherwise; a nil interface panics. *)
Definition CanTakeKeyboardFocus (p : Pane) (w : World St) : result bool :=
  match p with
  | None => Panic
  | Some (SplitLinePtr _) | Some (SplitLineObj _) => Ok false
  | Some (PanePtr ty a) =>
      match panes w !! a with
      | Some st => Ok (pane_CanTakeKeyboardFocus ty st)
      | None => Panic
      end
  end.

(** [p.Name()] *)
Definition Name (p : Pane) (w : World St) : result string :=
  match p with
  | None => Panic
  | Some (SplitLinePtr _) | Some (SplitLineObj _) => Ok "Split Line"
  | Some (PanePtr ty a) =>
      match panes w !! a with
      | Some st => Ok (pane_Name ty st)
      | None => Panic
      end
  end.

(** [func (s *SplitLine) Duplicate(nameAsCopy bool) Pane] *)
Definition SplitLine_Duplicate (nameAsCopy : bool) : M (St:=St) Pane :=
  logErrorf "This actually should never be called..." ;;;
  a <~ alloc_splitLine SplitLine_zero ;;
  ret (Some (SplitLineObj a)).

(** [p.Duplicate(nameAsCopy)].  Modelled from the spec: the [Duplicate]
    of a concrete pane is not in wm.go; it returns a new object of the
    same type. *)
Definition Pane_Duplicate (p : Pane) (nameAsCopy : bool) : M (St:=St) Pane :=
  match p with
  | None => λ _, Panic
  | Some (SplitLinePtr _) | Some (SplitLineObj _) => SplitLine_Duplicate nameAsCopy
  | Some (PanePtr ty a) =>
      w <~ get ;;
      match panes w !! a with
      | None => λ _, Panic
      | Some st =>
          a' <~ alloc_pane (pane_Duplicate ty st nameAsCopy) ;;
          ret (Some (PanePtr ty a'))
      end
  end.

(** [NewEmptyPane()].  Modelled from the spec: the constructor is not in
    wm.go; it returns a new, inert empty pane. *)
Definition NewEmptyPane : M (St:=St) Pane :=
  a <~ alloc_pane pane_NewEmptyPane ;;
  ret (Some (PanePtr EmptyPane a)).

(** *** Structural operations *)

(** [func (d *DisplayNode) Duplicate() *DisplayNode] *)
Fixpoint DisplayNode_Duplicate (fuel : nat) (d : option loc) : M (St:=St) (option loc) :=
  match fuel with
  | O => out_of_fuel
  | S fuel =>
      a <~ alloc_node DisplayNode_zero ;;
      let dupe := Some a in
      n <~ load d ;;
      (if decide (node_Pane n ≠ None) then
         p <~ Pane_Duplicate (node_Pane n) false ;;
         store dupe (with_Pane p)
       else ret tt) ;;;
      n <~ load d ;;
      store dupe (with_SplitLine (node_SplitLine n)) ;;;
      n <~ load d ;;
      (if decide (Axis (node_SplitLine n) ≠ SplitAxisNone) then
         n <~ load d ;;
         c0 <~ DisplayNode_Duplicate fuel (Children0 n) ;;
         store dupe (with_Children0 c0) ;;;
         n <~ load d ;;
         c1 <~ DisplayNode_Duplicate fuel (Children1 n) ;;
         store dupe (with_Children1 c1)
       else ret tt) ;;;
      ret dupe
  end.

(** [func (d *DisplayNode) SplitX(x float32, newChild *DisplayNode) *DisplayNode] *)
Definition SplitX (d : option loc) (x : float32) (newChild : option loc)
  : M (St:=St) (option loc) :=
  n <~ load d ;;
  (if decide (Axis (node_SplitLine n) ≠ SplitAxisNone) then
     logErrorf "splitting a non-leaf node: %v"
   else ret tt) ;;;
  a <~ alloc_node (mkDisplayNode None (mkSplitLine x SplitAxisX) (d, newChild)) ;;
  ret (Some a).

(** [func (d *DisplayNode) SplitY(y float32, newChild *DisplayNode) *DisplayNode] *)
Definition SplitY (d : option loc) (y : float32) (newChild : option loc)
  : M (St:=St) (option loc) :=
  n <~ load d ;;
  (if decide (Axis (node_SplitLine n) ≠ SplitAxisNone) then
     logErrorf "splitting a non-leaf node: %v"
   else ret tt) ;;;
  a <~ alloc_node (mkDisplayNode None (mkSplitLine y SplitAxisX) (d, newChild)) ;;
  ret (Some a).

(** *** Keyboard focus *)

(** [func wmPaneIsPresent(pane Pane) bool]; the callback's state is the
    world and its captured [found]. *)
Definition wmPaneIsPresent (fuel : nat) (pane : Pane) : M (St:=St) bool :=
  λ w,
    r <- VisitPanes (λ s : World St * bool, nodes (fst s)) fuel (DisplayRoot w)
           (λ p s, Ok (if decide (p = pane) then (fst s, true) else s))
           (w, false) ;;
    Ok (snd r, fst r).

(** The head of [func wmDrawPanes(platform Platform, renderer Renderer)]:
    the resolution of the keyboard focus. *)
Definition wmDrawPanes_focus (fuel : nat) : M (St:=St) unit :=
  w <~ get ;;
  present <~ wmPaneIsPresent fuel (keyboardFocusPane w) ;;
  (if negb present then modify (set_keyboardFocusPane None) else ret tt) ;;;
  w <~ get ;;
  if decide (keyboardFocusPane w = None) then
    (λ w, map_result (λ w', (tt, w'))
       (VisitPanes nodes fuel (DisplayRoot w)
          (λ p w, Ok (if is_CLIPane p then set_keyboardFocusPane p w else w)) w)) ;;;
    w <~ get ;;
    if decide (keyboardFocusPane w = None) then
      (λ w, map_result (λ w', (tt, w'))
         (VisitPanes nodes fuel (DisplayRoot w)
            (λ p w, c <- CanTakeKeyboardFocus p w ;;
                    Ok (if c : bool then set_keyboardFocusPane p w else w)) w))
    else ret tt
  else ret tt.

(** *** Edit-mode operations *)

(** [idx ^ 1] *)
Definition other_child (idx : Z) : Z := Z.lxor idx 1.

(** The pick handlers of wmInit.  The arguments of the log lines (the
    pointers and the tree printed by [printtree]) are not rendered; the
    log keeps the format. *)
Fixpoint callPick (fuel : nat) (f : PickHandler) (pane : Pane) : M (St:=St) bool :=
  match f with
  | CopyPick =>
      w <~ get ;;
      if decide (paneFirstPick w = None) then
        modify (set_paneFirstPick pane) ;;;
        modify (set_paneConfigHelpText "Select destination for copy") ;;;
        ret false
      else
        node <~ lift (λ w, NodeForPane fuel (nodes w) (DisplayRoot w) pane) ;;
        logPrintf "about to copy %p %+T to node %v.\ntree: %s" ;;;
        w <~ get ;;
        p <~ Pane_Duplicate (paneFirstPick w) true ;;
        store node (with_Pane p) ;;;
        modify (set_paneFirstPick None) ;;;
        modify (set_paneConfigHelpText "") ;;;
        logPrintf "new tree:\n%s" ;;;
        ret true
  | ExchangePick =>
      w <~ get ;;
      if decide (paneFirstPick w = None) then
        modify (set_paneFirstPick pane) ;;;
        modify (set_paneConfigHelpText "Select second window for exchange") ;;;
        ret false
      else
        n0 <~ lift (λ w, NodeForPane fuel (nodes w) (DisplayRoot w) (paneFirstPick w)) ;;
        n1 <~ lift (λ w, NodeForPane fuel (nodes w) (DisplayRoot w) pane) ;;
        logPrintf "about echange nodes %p %+v %p %+v.\ntree: %s" ;;;
        w <~ get ;;
        (if decide (pane ≠ paneFirstPick w) then
           x1 <~ load n1 ;;
           x0 <~ load n0 ;;
           store n0 (with_Pane (node_Pane x1)) ;;;
           store n1 (with_Pane (node_Pane x0))
         else ret tt) ;;;
        modify (set_paneFirstPick None) ;;;
        modify (set_paneConfigHelpText "") ;;;
        logPrintf "new tree:\n%s" ;;;
        ret true
  | SplitPick axis =>
      logPrintf "about to split %p %+T.\ntree: %s" ;;;
      node <~ lift (λ w, NodeForPane fuel (nodes w) (DisplayRoot w) pane) ;;
      e <~ alloc_pane (pane_zero EmptyPane) ;;
      c0 <~ alloc_node (mkDisplayNode (Some (PanePtr EmptyPane e)) SplitLine_zero (None, None)) ;;
      store node (with_Children0 (Some c0)) ;;;
      c1 <~ alloc_node (mkDisplayNode pane SplitLine_zero (None, None)) ;;
      store node (with_Children1 (Some c1)) ;;;
      store node (with_Pane None) ;;;
      store node (with_Pos float32_half) ;;;
      store node (with_Axis axis) ;;;
      modify (set_paneConfigHelpText "") ;;;
      logPrintf "new tree:\n%s" ;;;
      ret true
  | DeletePick =>
      logPrintf "about to delete %p %+T.\ntree: %s" ;;;
      r <~ lift (λ w, ParentNodeForPane fuel (nodes w) (DisplayRoot w) pane) ;;
      let node := fst r in
      let other := other_child (snd r) in
      n <~ load node ;;
      c <~ lift (λ _, Children_at n other) ;;
      cn <~ load c ;;
      store node (λ _, cn) ;;;
      modify (set_paneConfigHelpText "") ;;;
      logPrintf "new tree:\n%s" ;;;
      ret true
  | ButtonPick callback =>
      result <~ callPick fuel callback pane ;;
      (if result : bool then modify (set_active "") else ret tt) ;;;
      ret result
  end.

(** The [show] callbacks of wmInit. *)
Definition show_if_split : M (St:=St) bool :=
  w <~ get ;;
  n <~ load (DisplayRoot w) ;;
  ret (bool_decide (Children0 n ≠ None)).

Definition show_always : M (St:=St) bool := ret true.

(** The [selected] callbacks of wmInit: they set the help text and return
    the pick handler. *)
Definition select_Copy : M (St:=St) PickHandler :=
  modify (set_paneConfigHelpText "Select window to copy") ;;; ret CopyPick.
Definition select_Exchange : M (St:=St) PickHandler :=
  modify (set_paneConfigHelpText "Select first window for exchange") ;;; ret ExchangePick.
Definition handleSplitPick (axis : SplitType) : M (St:=St) PickHandler :=
  modify (set_paneConfigHelpText "Select window to split") ;;; ret (SplitPick axis).
Definition select_Delete : M (St:=St) PickHandler :=
  modify (set_paneConfigHelpText "Select window to delete") ;;; ret DeletePick.

(** [type ModalButtonSet struct]; its [active] field is in the world. *)
Record ModalButtonSet := mkModalButtonSet {
  names : list string;
  callbacks : list (M (St:=St) PickHandler);
  show : list (M (St:=St) bool)
}.

(** [func (m *ModalButtonSet) Add(text, selected, show)] *)
Definition ModalButtonSet_Add (text : string) (selected : M (St:=St) PickHandler)
    (shw : M (St:=St) bool) (m : ModalButtonSet) : ModalButtonSet :=
  mkModalButtonSet (names m ++ [text]) (callbacks m ++ [selected]) (show m ++ [shw]).

(** [wm.configButtons] as wmInit leaves it. *)
Definition wmInit_configButtons : ModalButtonSet :=
  ModalButtonSet_Add "Delete" select_Delete show_if_split
    (ModalButtonSet_Add "Split Vertically" (handleSplitPick SplitAxisY) show_always
       (ModalButtonSet_Add "Split Horizontally" (handleSplitPick SplitAxisX) show_always
          (ModalButtonSet_Add "Exchange" select_Exchange show_if_split
             (ModalButtonSet_Add "Copy" select_Copy show_if_split
                (mkModalButtonSet [] [] []))))).

(** [list !! i] of a Go slice; out of range panics. *)
Definition index {A} (l : list A) (i : nat) : M (St:=St) A :=
  λ w, match l !! i with Some x => Ok (x, w) | None => Panic end.

(** The loop of [func (m *ModalButtonSet) Draw()] from button [i] on.
    [pressed] is what imgui reports for a button ([imgui.Button],
    [imgui.IsItemClicked]); the result lists the buttons drawn. *)
Fixpoint Draw_from (m : ModalButtonSet) (pressed : string → bool)
    (i : nat) (rest : list string) : M (St:=St) (list string) :=
  match rest with
  | [] => ret []
  | name :: rest =>
      shw <~ index (show m) i ;;
      visible <~ shw ;;
      if negb visible then Draw_from m pressed (S i) rest
      else
        w <~ get ;;
        (if decide (active w = name) then
           if pressed name then
             modify (set_handlePanePick None) ;;;
             modify (set_active "")
           else ret tt
         else if pressed name then
           modify (set_active name) ;;;
           modify (set_paneFirstPick None) ;;;
           cb <~ index (callbacks m) i ;;
           callback <~ cb ;;
           modify (set_handlePanePick (Some (ButtonPick callback)))
         else ret tt) ;;;
        drawn <~ Draw_from m pressed (S i) rest ;;
        ret (name :: drawn)
  end.

Definition ModalButtonSet_Draw (m : ModalButtonSet) (pressed : string → bool)
  : M (St:=St) (list string) :=
  Draw_from m pressed 0 (names m).

(** The hand-over of a click in wmDrawPanes: [clicked] is
    [imgui.IsMouseClicked(mouseButtonPrimary)]. *)
Definition wmDrawPanes_pick (fuel : nat) (clicked : bool) (mousePane : Pane)
  : M (St:=St) unit :=
  w <~ get ;;
  match handlePanePick w with
  | Some f =>
      if clicked && bool_decide (mousePane ≠ None) then
        if negb (is_SplitLine mousePane) then
          done_ <~ callPick fuel f mousePane ;;
          if done_ : bool then modify (set_handlePanePick None) else ret tt
        else ret tt
      else ret tt
  | None => ret tt
  end.

End WindowManager.

(** * Loading a tree

    [encoding/json] is not part of the repository.  Its decoders are
    parameters: what [json.Unmarshal] returns for a raw message and a
    target of each of the types that [UnmarshalJSON] decodes into. *)

Inductive decoded (E A : Type) : Type :=
| Decoded (a : A)
| DecodeError (err : E).

Arguments Decoded {E A} a.
Arguments DecodeError {E A} err.

Section Unmarshal.

Context {St : Type} `{!PaneImpl St}.

(** [json.RawMessage] and [error]. *)
Context {RawMessage error : Type}.

(** [json.Unmarshal(s, &m)] for [m map[string]*json.RawMessage]: the
    members of the object; a member that is [null] gets a nil pointer. *)
Variable Unmarshal_map : RawMessage → decoded error (gmap string (option RawMessage)).
(** [json.Unmarshal(r, &s)] for a [string] that holds [s0]. *)
Variable Unmarshal_string : RawMessage → string → decoded error string.
(** [json.Unmarshal(r, &d.SplitLine)]. *)
Variable Unmarshal_SplitLine : RawMessage → SplitLine → decoded error SplitLine.
(** The elements of the array that [json.Unmarshal(r, &d.Children)]
    reads; [null] elements are [None]. *)
Variable Unmarshal_array : RawMessage → decoded error (list (option RawMessage)).
(** [json.Unmarshal(r, &x)] for [x] of a concrete pane type. *)
Variable Unmarshal_pane : PaneType → RawMessage → St → decoded error St.

(** [*m[key]]: a missing member and a [null] member are nil pointers. *)
Definition member (m : gmap string (option RawMessage)) (key : string)
  : M (St:=St) RawMessage :=
  λ w, match m !! key with
       | Some (Some r) => Ok (r, w)
       | _ => Panic
       end.

(** The cases of [switch paneType] that name a pane type. *)
Definition known_pane_type (paneType : string) : option PaneType :=
  if decide (paneType = "*main.AirportInfoPane") then Some AirportInfoPane
  else if decide (paneType = "*main.CLIPane") then Some CLIPane
  else if decide (paneType = "*main.EmptyPane") then Some EmptyPane
  else if decide (paneType = "*main.FlightPlanPane") then Some FlightPlanPane
  else if decide (paneType = "*main.FlightStripPane") then Some FlightStripPane
  else if decide (paneType = "*main.NotesViewPane") then Some NotesViewPane
  else if decide (paneType = "*main.PerformancePane") then Some PerformancePane
  else if decide (paneType = "*main.RadarScopePane") then Some RadarScopePane
  else if decide (paneType = "*main.ReminderPane") then Some ReminderPane
  else None.

(** One element of [d.Children] as [encoding/json] fills it: a missing or
    [null] element is set to nil; otherwise a node is allocated when the
    pointer is nil, and its [UnmarshalJSON], here [rec], reads the
    element. *)
Definition Unmarshal_child (rec : option loc → RawMessage → M (St:=St) (option error))
    (d : option loc) (first : bool) (elem : option (option RawMessage))
  : M (St:=St) (option error) :=
  match elem with
  | Some (Some r) =>
      n <~ load d ;;
      match (if first then Children0 n else Children1 n) with
      | Some c => rec (Some c) r
      | None =>
          c <~ alloc_node DisplayNode_zero ;;
          store d (if first then with_Children0 (Some c) else with_Children1 (Some c)) ;;;
          rec (Some c) r
      end
  | _ =>
      store d (if first then with_Children0 None else with_Children1 None) ;;;
      ret None
  end.

(** [json.Unmarshal(r, &d.Children)] *)
Definition Unmarshal_Children (rec : option loc → RawMessage → M (St:=St) (option error))
    (d : option loc) (r : RawMessage) : M (St:=St) (option error) :=
  match Unmarshal_array r with
  | DecodeError err => ret (Some err)
  | Decoded elems =>
      err <~ Unmarshal_child rec d true (elems !! 0%nat) ;;
      match err with
      | Some err => ret (Some err)
      | None => Unmarshal_child rec d false (elems !! 1%nat)
      end
  end.

(** The two decodes of [UnmarshalJSON] that follow the one of the type
    string: [d.SplitLine] and [d.Children]. *)
Definition Unmarshal_SplitLine_Children
    (rec : option loc → RawMessage → M (St:=St) (option error))
    (d : option loc) (m : gmap string (option RawMessage))
  : M (St:=St) (option error) :=
  r <~ member m "SplitLine" ;;
  n <~ load d ;;
  match Unmarshal_SplitLine r (node_SplitLine n) with
  | DecodeError err => ret (Some err)
  | Decoded sl =>
      store d (with_SplitLine sl) ;;;
      r <~ member m "Children" ;;
      Unmarshal_Children rec d r
  end.

(** [switch paneType] and the final [return nil]. *)
Definition Unmarshal_Pane (d : option loc) (m : gmap string (option RawMessage))
    (paneType : string) : M (St:=St) (option error) :=
  if decide (paneType = "") then ret None
  else
    match known_pane_type paneType with
    | Some ty =>
        a <~ alloc_pane (pane_zero ty) ;;
        r <~ member m "Pane" ;;
        match Unmarshal_pane ty r (pane_zero ty) with
        | DecodeError err => ret (Some err)
        | Decoded st =>
            modify (λ w, set_panes (<[a := st]> (panes w)) w) ;;;
            store d (with_Pane (Some (PanePtr ty a))) ;;;
            ret None
        end
    | None =>
        logErrorf (paneType ++ ": Unhandled type in config file") ;;;
        p <~ NewEmptyPane ;;
        store d (with_Pane p) ;;;
        ret None
    end.

(** [func (d *DisplayNode) UnmarshalJSON(s []byte) error]; the result is
    the error, [None] for nil. *)
Fixpoint UnmarshalJSON (fuel : nat) (d : option loc) (s : RawMessage)
  : M (St:=St) (option error) :=
  match fuel with
  | O => out_of_fuel
  | S fuel =>
      match Unmarshal_map s with
      | DecodeError err => ret (Some err)
      | Decoded m =>
          r <~ member m "Type" ;;
          match Unmarshal_string r "" with
          | DecodeError err => ret (Some err)
          | Decoded paneType =>
              err <~ Unmarshal_SplitLine_Children (UnmarshalJSON fuel) d m ;;
              match err with
              | Some err => ret (Some err)
              | None => Unmarshal_Pane d m paneType
              end
          end
      end
  end.

End Unmarshal.

(** * Trees in the store

    What the store holds below an address, unfolded: [Node a n l r] says
    that address [a] holds the struct [n] and that [l] and [r] unfold its
    two children; [Nil] is the nil pointer. *)

Inductive Tree :=
| Nil
| Node (a : loc) (n : DisplayNode) (l r : Tree).

Fixpoint repr (h : NodeStore) (d : option loc) (t : Tree) : Prop :=
  match t with
  | Nil => d = None
  | Node a n l r =>
      d = Some a ∧ h !! a = Some n ∧
      repr h (Children0 n) l ∧ repr h (Children1 n) r
  end.

Fixpoint depth (t : Tree) : nat :=
  match t with
  | Nil => O
  | Node _ _ l r => S (Nat.max (depth l) (depth r))
  end.

(** The addresses of the nodes, parents first. *)
Fixpoint addrs (t : Tree) : list loc :=
  match t with
  | Nil => []
  | Node a _ l r => a :: addrs l ++ addrs r
  end.

(** The pane slots of the nodes, in the same order. *)
Fixpoint slots (t : Tree) : list Pane :=
  match t with
  | Nil => []
  | Node _ n l r => node_Pane n :: slots l ++ slots r
  end.

(** The in-order sequence of panes and dividers: the pane of a leaf; for
    a split node the left subtree, its divider, the right subtree. *)
Fixpoint traversal (t : Tree) : list Pane :=
  match t with
  | Nil => []
  | Node a n l r =>
      if decide (Axis (node_SplitLine n) = SplitAxisNone) then [node_Pane n]
      else traversal l ++ Some (SplitLinePtr a) :: traversal r
  end.

(** Every node has two children or none. *)
Fixpoint binary (t : Tree) : Prop :=
  match t with
  | Nil => True
  | Node _ _ l r => (l = Nil ↔ r = Nil) ∧ binary l ∧ binary r
  end.

(** The invariant of the data model: a leaf has axis none, a pane and no
    children; a split node has axis X or Y, no pane and two children. *)
Fixpoint wf (t : Tree) : Prop :=
  match t with
  | Nil => False
  | Node _ n l r =>
      (Axis (node_SplitLine n) = SplitAxisNone ∧ node_Pane n ≠ None
       ∧ l = Nil ∧ r = Nil)
      ∨ ((Axis (node_SplitLine n) = SplitAxisX ∨ Axis (node_SplitLine n) = SplitAxisY)
         ∧ node_Pane n = None ∧ wf l ∧ wf r)
  end.


(** Calling [visit] on the panes of a list, in order. *)
Fixpoint visit_all {S X : Type} (visit : X → S → result S) (ps : list X) (s : S)
  : result S :=
  match ps with
  | [] => Ok s
  | p :: ps => s' <- visit p s ;; visit_all visit ps s'
  end.

(** A tree that [VisitPanes] can walk: every node that is not a leaf by
    its axis has two children. *)
Fixpoint visitable (t : Tree) : Prop :=
  match t with
  | Nil => False
  | Node _ n l r =>
      Axis (node_SplitLine n) = SplitAxisNone ∨ (visitable l ∧ visitable r)
  end.

(** The same, with every axis one of the three constants of [SplitType]. *)
Fixpoint drawable (t : Tree) : Prop :=
  match t with
  | Nil => False
  | Node _ n l r =>
      Axis (node_SplitLine n) = SplitAxisNone
      ∨ ((Axis (node_SplitLine n) = SplitAxisX ∨ Axis (node_SplitLine n) = SplitAxisY)
         ∧ drawable l ∧ drawable r)
  end.

(** A callback that records the panes it is called with. *)
Definition record_pane (p : Pane) (s : NodeStore * list Pane)
  : result (NodeStore * list Pane) := Ok (fst s, (snd s ++ [p])%list).

Section BoundsTraversal.

Context {Extent2D : Type}.
Variable Extent2D_SplitX : Extent2D → float32 → Z → Extent2D * Extent2D * Extent2D.
Variable Extent2D_SplitY : Extent2D → float32 → Z → Extent2D * Extent2D * Extent2D.
Variable splitLineWidth : Z.

(** One call of the callback of [VisitPanesWithBounds]: the four extents
    and the pane. *)
Definition BoundsVisit : Type := Extent2D * Extent2D * Extent2D * Extent2D * Pane.

Definition visited_pane (v : BoundsVisit) : Pane := snd v.

(** A callback that records the calls. *)
Definition record_bounds (fb disp pdisp full : Extent2D) (p : Pane)
    (s : NodeStore * list BoundsVisit) : result (NodeStore * list BoundsVisit) :=
  Ok (fst s, (snd s ++ [(fb, disp, pdisp, full, p)])%list).

(** The in-order sequence of a tree with the extents of each element. *)
Fixpoint bounds_traversal (t : Tree) (fb disp pdisp full : Extent2D)
  : list BoundsVisit :=
  match t with
  | Nil => []
  | Node a n l r =>
      if decide (Axis (node_SplitLine n) = SplitAxisNone) then
        [(fb, disp, pdisp, full, node_Pane n)]
      else if decide (Axis (node_SplitLine n) = SplitAxisX) then
        let '(f0, fs, f1) :=
          Extent2D_SplitX fb (Pos (node_SplitLine n)) splitLineWidth in
        let '(d0, ds, d1) :=
          Extent2D_SplitX disp (Pos (node_SplitLine n)) splitLineWidth in
        bounds_traversal l f0 d0 disp full
          ++ (fs, ds, disp, full, Some (SplitLinePtr a))
          :: bounds_traversal r f1 d1 disp full
      else if decide (Axis (node_SplitLine n) = SplitAxisY) then
        let '(f0, fs, f1) :=
          Extent2D_SplitY fb (Pos (node_SplitLine n)) splitLineWidth in
        let '(d0, ds, d1) :=
          Extent2D_SplitY disp (Pos (node_SplitLine n)) splitLineWidth in
        bounds_traversal l f0 d0 disp full
          ++ (fs, ds, disp, full, Some (SplitLinePtr a))
          :: bounds_traversal r f1 d1 disp full
      else []
  end.

End BoundsTraversal.

(** The last element of a list that passes a test, or [cur]. *)
Definition pick_last (P : Pane → bool) (l : list Pane) (cur : Pane) : Pane :=
  fold_left (λ cur p, if P p then p else cur) l cur.

(** The tree with the position of the node at [a] set to zero. *)
Fixpoint reset_pos (a : loc) (t : Tree) : Tree :=
  match t with
  | Nil => Nil
  | Node b n l r =>
      Node b (if decide (b = a) then with_Pos float32_zero n else n)
        (reset_pos a l) (reset_pos a r)
  end.

(** A pane value that does not dangle: the object it points to is in its
    store. *)
Definition alive {St : Type} (w : World St) (p : Pane) : Prop :=
  match p with
  | None => True
  | Some (PanePtr _ a) => is_Some (panes w !! a)
  | Some (SplitLinePtr a) => is_Some (nodes w !! a)
  | Some (SplitLineObj a) => is_Some (splitLines w !! a)
  end.

(** No pane slot of the tree dangles. *)
Definition closed {St : Type} (w : World St) (t : Tree) : Prop :=
  ∀ p, p ∈ slots t → alive w p.

(** A pane value that the world does not know yet: a pointer to an
    object of its own, at an address not in use. *)
Definition unused {St : Type} (w : World St) (p : Pane) : Prop :=
  match p with
  | None => True
  | Some (PanePtr _ a) => panes w !! a = None
  | Some (SplitLinePtr _) => False
  | Some (SplitLineObj a) => splitLines w !! a = None
  end.

(** The second world has every object of the first, unchanged. *)
Definition extends {St : Type} (w w' : World St) : Prop :=
  nodes w ⊆ nodes w' ∧ panes w ⊆ panes w' ∧ splitLines w ⊆ splitLines w'.

(** The names of the panes of a list. *)
Fixpoint pane_names {St : Type} `{!PaneImpl St} (w : World St) (l : list Pane)
  : result (list string) :=
  match l with
  | [] => Ok []
  | p :: l =>
      s <- Name p w ;;
      ns <- pane_names w l ;;
      Ok (s :: ns)
  end.

(** What [Duplicate] promises of the copy [t'], made in world [w] and
    held by world [w'], of the tree [t]: the old objects are untouched; the
    nodes of the copy and the panes in its slots were unknown to [w]; the
    names along its traversal are those along the traversal of [t]. *)
Definition duplicate_of {St : Type} `{!PaneImpl St} (w w' : World St)
    (t t' : Tree) : Prop :=
  extends w w'
  ∧ wf t'
  ∧ (∀ a, a ∈ addrs t' → nodes w !! a = None)
  ∧ (∀ p, p ∈ slots t' → unused w p)
  ∧ ∃ ns, pane_names w (traversal t) = Ok ns
          ∧ pane_names w' (traversal t') = Ok ns.

(** * Sample panes and worlds *)

Module Examples.

(** A pane that is a name and a focus flag. *)
Record SimplePane := mkSimplePane { sp_name : string; sp_focus : bool }.

#[global] Instance SimplePane_impl : PaneImpl SimplePane := {|
  pane_zero := λ _, mkSimplePane "" false;
  pane_NewEmptyPane := mkSimplePane "(Empty)" false;
  pane_Name := λ _ st, sp_name st;
  pane_CanTakeKeyboardFocus := λ _ st, sp_focus st;
  pane_Duplicate := λ _ st nameAsCopy,
    if nameAsCopy then mkSimplePane (sp_name st ++ " copy") (sp_focus st) else st
|}.

Definition radar : PaneRef := PanePtr RadarScopePane 1%positive.
Definition strips : PaneRef := PanePtr FlightStripPane 2%positive.
(** A second radar scope with the same contents as [radar]. *)
Definition radar' : PaneRef := PanePtr RadarScopePane 3%positive.

Definition leaf (p : PaneRef) : DisplayNode :=
  mkDisplayNode (Some p) SplitLine_zero (None, None).
Definition split (axis : SplitType) (c0 c1 : loc) : DisplayNode :=
  mkDisplayNode None (mkSplitLine float32_half axis) (Some c0, Some c1).

(** A second flight-strip pane. *)
Definition strips' : PaneRef := PanePtr FlightStripPane 4%positive.

Definition pane_objects : gmap loc SimplePane :=
  <[4%positive := mkSimplePane "More strips" true]>
    (<[3%positive := mkSimplePane "Radar" true]>
       (<[2%positive := mkSimplePane "Strips" true]>
          (<[1%positive := mkSimplePane "Radar" true]> ∅))).

(** One pane: the root is a leaf. *)
Definition nodes_one : NodeStore := <[1%positive := leaf radar]> ∅.

(** Two panes side by side. *)
Definition nodes_two : NodeStore :=
  <[3%positive := leaf strips]>
    (<[2%positive := leaf radar]>
       (<[1%positive := split SplitAxisX 2%positive 3%positive]> ∅)).
Definition tree_two : Tree :=
  Node 1%positive (split SplitAxisX 2%positive 3%positive)
    (Node 2%positive (leaf radar) Nil Nil) (Node 3%positive (leaf strips) Nil Nil).

(** Two flight-strip panes side by side. *)
Definition nodes_strips : NodeStore :=
  <[3%positive := leaf strips']>
    (<[2%positive := leaf strips]>
       (<[1%positive := split SplitAxisX 2%positive 3%positive]> ∅)).
Definition tree_strips : Tree :=
  Node 1%positive (split SplitAxisX 2%positive 3%positive)
    (Node 2%positive (leaf strips) Nil Nil) (Node 3%positive (leaf strips') Nil Nil).

Definition world (h : NodeStore) : World SimplePane :=
  mkWorld h pane_objects ∅ (Some 1%positive) None None "" None "" [].

Definition world_one : World SimplePane := world nodes_one.
Definition world_two : World SimplePane := world nodes_two.
Definition world_strips : World SimplePane := world nodes_strips.

(** Exchange is armed and the radar scope is the first pick. *)
Definition world_armed : World SimplePane :=
  mkWorld nodes_two pane_objects ∅ (Some 1%positive) (Some radar)
    (Some (ButtonPick ExchangePick)) "Select second window for exchange"
    None "Exchange" [].

(** A raw message for the decoders of a saved tree: a node record with
    its type string and its children, and the members of such a record. *)
Inductive Raw :=
| RNode (ty : string) (kids : list Raw)
| RNull
| RString (s : string)
| RSplitLine
| RChildren (kids : list Raw)
| RPane.

Definition raw_map (r : Raw) : decoded string (gmap string (option Raw)) :=
  match r with
  | RNode ty kids =>
      Decoded (<["Type" := Some (RString ty)]>
                 (<["SplitLine" := Some RSplitLine]>
                    (<["Children" := Some (RChildren kids)]>
                       (<["Pane" := Some RPane]> ∅))))
  | _ => DecodeError "not an object"
  end.
Definition raw_string (r : Raw) (s0 : string) : decoded string string :=
  match r with
  | RString s => Decoded s
  | _ => DecodeError "not a string"
  end.
Definition raw_SplitLine (r : Raw) (s0 : SplitLine) : decoded string SplitLine :=
  match r with
  | RSplitLine => Decoded s0
  | _ => DecodeError "not a split line"
  end.
Definition raw_array (r : Raw) : decoded string (list (option Raw)) :=
  match r with
  | RChildren kids =>
      Decoded (map (λ k, match k with RNull => None | _ => Some k end) kids)
  | _ => DecodeError "not an array"
  end.
Definition raw_pane (ty : PaneType) (r : Raw) (st : SimplePane)
  : decoded string SimplePane :=
  match r with
  | RPane => Decoded st
  | _ => DecodeError "not a pane"
  end.

(** A node to load into, and a record of a pane type that wm.go does not
    know. *)
Definition world_load : World SimplePane :=
  world (<[1%positive := DisplayNode_zero]> ∅).
Definition record_unknown : Raw := RNode "*main.WeatherPane" [RNull; RNull].

(** A one-dimensional extent and its split at the middle. *)
Definition Interval : Type := Z * Z.
Definition halve (e : Interval) (pos : float32) (width : Z)
  : Interval * Interval * Interval :=
  let m := (fst e + snd e) / 2 in
  ((fst e, m), (m, m + width), (m + width, snd e)).

End Examples.

(** * Statements checked against the code *)

Section Statements.

Context {St : Type} `{!PaneImpl St}.

(** [p.CanTakeKeyboardFocus()] as a test on the panes of a tree. *)
Definition can_focus (w : World St) (p : Pane) : bool :=
  match CanTakeKeyboardFocus p w with
  | Ok b => b
  | _ => false
  end.

(** With no focus set and no CLI pane in the tree, the focus goes to the
    first pane of the traversal that can take it. *)
Definition focus_first_eligible (fuel : nat) (w : World St) (tr : list Pane) : Prop :=
  keyboardFocusPane w = None →
  List.filter is_CLIPane tr = [] →
  ∃ w', wmDrawPanes_focus fuel w = Ok (tt, w')
        ∧ keyboardFocusPane w' = default None (head (List.filter (can_focus w) tr)).

(** The world after the second click of Exchange on world [w]: the nodes
    are [h]; the first pick, the armed handler, the active button and the
    help text are cleared; two lines are logged; nothing else differs. *)
Definition exchanged (h : NodeStore) (w : World St) : World St :=
  mkWorld h (panes w) (splitLines w) (DisplayRoot w) None None ""
    (keyboardFocusPane w) ""
    (lg w ++ [LogPrintf "about echange nodes %p %+v %p %+v.\ntree: %s";
              LogPrintf "new tree:\n%s"]).

(** Every control of the edit mode that is shown is shown in a tree whose
    root has children. *)
Definition shown_only_when_split (w : World St) : Prop :=
  ∀ (i : nat) (name : string) (shw : M (St:=St) bool) (w' : World St),
    names (@wmInit_configButtons St) !! i = Some name →
    show (@wmInit_configButtons St) !! i = Some shw →
    shw w = Ok (true, w') →
    ∃ root n, DisplayRoot w = Some root ∧ nodes w !! root = Some n
              ∧ Children0 n ≠ None.

End Statements.

(** * Further operations and the shapes of edited trees *)

(** ** Edits of a tree, as trees *)

(** The panes of the leaves, in traversal order (the traversal without
    its dividers). *)
Fixpoint leaf_panes (t : Tree) : list Pane :=
  match t with
  | Nil => []
  | Node _ n l r =>
      if decide (Axis (node_SplitLine n) = SplitAxisNone) then [node_Pane n]
      else leaf_panes l ++ leaf_panes r
  end.

(** The pane slots below the root. *)
Definition child_slots (t : Tree) : list Pane :=
  match t with
  | Nil => []
  | Node _ _ l r => slots l ++ slots r
  end.

(** The root of [t] is a node whose slot is [pane]. *)
Definition holds (t : Tree) (pane : Pane) : bool :=
  match t with
  | Nil => false
  | Node _ n _ _ => bool_decide (node_Pane n = pane)
  end.

(** The node that [ParentNodeForPane] looks for, in its order: a node
    one of whose children holds [pane], the node itself before the nodes
    of its left subtree, those before the ones of its right subtree. *)
Fixpoint parent_of (pane : Pane) (t : Tree) : option (loc * Z) :=
  match t with
  | Nil => None
  | Node a _ l r =>
      if holds l pane then Some (a, 0)
      else if holds r pane then Some (a, 1)
      else match parent_of pane l with
           | Some x => Some x
           | None => parent_of pane r
           end
  end.

(** The subtree [t] with its root struct moved to address [a]. *)
Definition reroot (a : loc) (t : Tree) : option Tree :=
  match t with
  | Nil => None
  | Node _ n l r => Some (Node a n l r)
  end.

(** The tree after Delete of [pane]: the node found by [parent_of] is
    overwritten with its other child.  [None] when no node is found or
    the other child is nil. *)
Fixpoint delete_pane (pane : Pane) (t : Tree) : option Tree :=
  match t with
  | Nil => None
  | Node a n l r =>
      if holds l pane then reroot a r
      else if holds r pane then reroot a l
      else match parent_of pane l with
           | Some _ => l' ← delete_pane pane l; Some (Node a n l' r)
           | None => r' ← delete_pane pane r; Some (Node a n l r')
           end
  end.

(** The tree with every node at address [a] replaced by the tree [s]. *)
Fixpoint graft (a : loc) (s : Tree) (t : Tree) : Tree :=
  match t with
  | Nil => Nil
  | Node b n l r =>
      if decide (b = a) then s else Node b n (graft a s l) (graft a s r)
  end.

(** The tree with the struct of every node at address [a] changed by
    [f]. *)
Fixpoint update_node (a : loc) (f : DisplayNode → DisplayNode) (t : Tree) : Tree :=
  match t with
  | Nil => Nil
  | Node b n l r =>
      Node b (if decide (b = a) then f n else n)
        (update_node a f l) (update_node a f r)
  end.

(** The node structs with their addresses, parents first. *)
Fixpoint structs (t : Tree) : list (loc * DisplayNode) :=
  match t with
  | Nil => []
  | Node a n l r => (a, n) :: structs l ++ structs r
  end.

(** The node that [NodeForPane] returns, in its order: the node itself
    when its slot is [pane], else the one found in the left subtree, else
    the one found in the right subtree. *)
Fixpoint node_of (pane : Pane) (t : Tree) : option loc :=
  match t with
  | Nil => None
  | Node a n l r =>
      if decide (node_Pane n = pane) then Some a
      else match node_of pane l with
           | Some x => Some x
           | None => node_of pane r
           end
  end.

(** The leaves with their addresses, in traversal order. *)
Fixpoint leaves (t : Tree) : list (loc * Pane) :=
  match t with
  | Nil => []
  | Node a n l r =>
      if decide (Axis (node_SplitLine n) = SplitAxisNone) then [(a, node_Pane n)]
      else leaves l ++ leaves r
  end.

(** The node that Split leaves at [a]: a split at one half over a new
    leaf [c0] for the pane [N] and a new leaf [c1] for the pane [P]. *)
Definition split_node (a c0 c1 : loc) (axis : SplitType) (N P : Pane) : Tree :=
  Node a (mkDisplayNode None (mkSplitLine float32_half axis) (Some c0, Some c1))
    (Node c0 (mkDisplayNode N SplitLine_zero (None, None)) Nil Nil)
    (Node c1 (mkDisplayNode P SplitLine_zero (None, None)) Nil Nil).

(** The leaf that Copy and Exchange leave at [a]: the struct [n] with
    the pane [p] in its slot. *)
Definition leaf_with (a : loc) (n : DisplayNode) (p : Pane) : Tree :=
  Node a (with_Pane p n) Nil Nil.

(** * The rest of the window-manager state

    The fields of [wm] that the operations above do not use: the stack of
    saved keyboard focuses, the zoom on one pane with its node filter,
    and the pane that owns the mouse during a click or a drag. *)

(** The two closures that wmInit and wmDrawPanes assign to
    [wm.nodeFilter]: the identity, and the one that returns
    [&DisplayNode{Pane: pane}] for every node. *)
Inductive NodeFilter :=
| FilterIdentity
| FilterPane (pane : Pane).

Record WM (St : Type) := mkWM {
  wm_world : World St;
  keyboardFocusStack : list Pane;
  showPaneAsRoot : bool;
  nodeFilter : NodeFilter;
  nodeFilterUnset : bool;
  mouseConsumerOverride : Pane
}.

Arguments mkWM {St}.
Arguments wm_world {St} _.
Arguments keyboardFocusStack {St} _.
Arguments showPaneAsRoot {St} _.
Arguments nodeFilter {St} _.
Arguments nodeFilterUnset {St} _.
Arguments mouseConsumerOverride {St} _.

Section WMState.

Context {St : Type}.

Definition set_wm_world (w : World St) (s : WM St) : WM St :=
  mkWM w (keyboardFocusStack s) (showPaneAsRoot s) (nodeFilter s)
    (nodeFilterUnset s) (mouseConsumerOverride s).
Definition set_keyboardFocusStack (l : list Pane) (s : WM St) : WM St :=
  mkWM (wm_world s) l (showPaneAsRoot s) (nodeFilter s)
    (nodeFilterUnset s) (mouseConsumerOverride s).
Definition set_showPaneAsRoot (b : bool) (s : WM St) : WM St :=
  mkWM (wm_world s) (keyboardFocusStack s) b (nodeFilter s)
    (nodeFilterUnset s) (mouseConsumerOverride s).
Definition set_nodeFilter (f : NodeFilter) (s : WM St) : WM St :=
  mkWM (wm_world s) (keyboardFocusStack s) (showPaneAsRoot s) f
    (nodeFilterUnset s) (mouseConsumerOverride s).
Definition set_nodeFilterUnset (b : bool) (s : WM St) : WM St :=
  mkWM (wm_world s) (keyboardFocusStack s) (showPaneAsRoot s) (nodeFilter s)
    b (mouseConsumerOverride s).
Definition set_mouseConsumerOverride (p : Pane) (s : WM St) : WM St :=
  mkWM (wm_world s) (keyboardFocusStack s) (showPaneAsRoot s) (nodeFilter s)
    (nodeFilterUnset s) p.

(** [wm.keyboardFocusPane] *)
Definition focus (s : WM St) : Pane := keyboardFocusPane (wm_world s).

(** ** The keyboard focus stack *)

(** [func wmTakeKeyboardFocus(pane Pane, isTransient bool)] *)
Definition wmTakeKeyboardFocus (pane : Pane) (isTransient : bool) (s : WM St) : WM St :=
  if decide (focus s = pane) then s
  else
    let s :=
      if isTransient && bool_decide (focus s ≠ None)
      then set_keyboardFocusStack (keyboardFocusStack s ++ [focus s]) s
      else s in
    let s := if negb isTransient then set_keyboardFocusStack [] s else s in
    set_wm_world (set_keyboardFocusPane pane (wm_world s)) s.

(** [func wmReleaseKeyboardFocus()]; the index [n-1] is in range when
    [n > 0]. *)
Definition wmReleaseKeyboardFocus (s : WM St) : WM St :=
  let n := length (keyboardFocusStack s) in
  if decide (0 < n)%nat then
    match keyboardFocusStack s !! (n - 1)%nat with
    | Some p =>
        let s := set_wm_world (set_keyboardFocusPane p (wm_world s)) s in
        set_keyboardFocusStack (take (n - 1) (keyboardFocusStack s)) s
    | None => s
    end
  else s.

(** Transient takes of the panes of a list, one after the other, and a
    number of releases. *)
Definition take_all (ps : list Pane) (s : WM St) : WM St :=
  fold_left (λ s p, wmTakeKeyboardFocus p true s) ps s.
Definition release_times (n : nat) (s : WM St) : WM St :=
  Nat.iter n wmReleaseKeyboardFocus s.

(** Each pane of the list differs from the one that has the focus when
    it takes it, and that one is not nil. *)
Fixpoint takes_over (cur : Pane) (ps : list Pane) : Prop :=
  match ps with
  | [] => True
  | p :: ps => cur ≠ None ∧ p ≠ cur ∧ takes_over p ps
  end.

End WMState.

(** * The mouse and the zoom

    [Extent2D] with its [Inside], [SplitX] and [SplitY], and imgui's
    reports of the keys and buttons, are declared outside wm.go; the code
    is embedded over them. *)

(** A point [p [2]float32]. *)
Abbreviation Point := (float32 * float32)%type.

Section Mouse.

Context {St : Type} {Extent2D : Type}.
Variable Extent2D_Inside : Extent2D → Point → bool.
Variable Extent2D_SplitX : Extent2D → float32 → Z → Extent2D * Extent2D * Extent2D.
Variable Extent2D_SplitY : Extent2D → float32 → Z → Extent2D * Extent2D * Extent2D.
Variable splitLineWidth : Z.

(** [func findPaneForMouse(node *DisplayNode, displayExtent Extent2D,
    p [2]float32) Pane] *)
Fixpoint findPaneForMouse (fuel : nat) (node : option loc) (displayExtent : Extent2D)
    (p : Point) : M (St:=St) Pane :=
  match fuel with
  | O => out_of_fuel
  | S fuel =>
      if negb (Extent2D_Inside displayExtent p) then ret None
      else
        n <~ load node ;;
        if decide (Axis (node_SplitLine n) = SplitAxisNone) then ret (node_Pane n)
        else
          let '(d0, ds, d1) :=
            if decide (Axis (node_SplitLine n) = SplitAxisX)
            then Extent2D_SplitX displayExtent (Pos (node_SplitLine n)) splitLineWidth
            else Extent2D_SplitY displayExtent (Pos (node_SplitLine n)) splitLineWidth in
          if Extent2D_Inside d0 p then findPaneForMouse fuel (Children0 n) d0 p
          else if Extent2D_Inside ds p then
            match node with
            | Some a => ret (Some (SplitLinePtr a))
            | None => λ _, Panic
            end
          else if Extent2D_Inside d1 p then findPaneForMouse fuel (Children1 n) d1 p
          else
            logErrorf "Mouse not overlapping anything?" ;;;
            ret None
  end.

(** The world after the log line of a point that no part of a split
    extent contains. *)
Definition missed (w : World St) : World St :=
  set_lg (lg w ++ [LogErrorf "Mouse not overlapping anything?"]) w.

(** What [findPaneForMouse] returns for a point [p], from the world [w]:
    a pane and a display extent of the layout that contains [p], or nil. *)
Definition hit (t : Tree) (disp : Extent2D) (p : Point) (w : World St)
    (r : Pane * World St) : Prop :=
  (Extent2D_Inside disp p = false ∧ r = (None, w))
  ∨ (Extent2D_Inside disp p = true ∧ r = (None, missed w))
  ∨ (Extent2D_Inside disp p = true ∧ snd r = w
     ∧ ∀ fb pd full, ∃ fb' de pd',
         (fb', de, pd', full, fst r)
           ∈ bounds_traversal Extent2D_SplitX Extent2D_SplitY splitLineWidth
               t fb disp pd full
         ∧ Extent2D_Inside de p = true).

(** A call of [wm.nodeFilter]. *)
Definition apply_nodeFilter (f : NodeFilter) (d : option loc) : M (St:=St) (option loc) :=
  match f with
  | FilterIdentity => ret d
  | FilterPane pane =>
      a <~ alloc_node (mkDisplayNode pane SplitLine_zero (None, None)) ;;
      ret (Some a)
  end.

(** The part of wmDrawPanes that toggles the zoom and finds the pane
    under the mouse.  [wantCaptureKeyboard] and [controlFPressed] are
    what imgui and the platform report; the result is [mousePane]. *)
Definition wmDrawPanes_zoom (fuel : nat) (wantCaptureKeyboard controlFPressed : bool)
    (displayFull : Extent2D) (mousePos : Point) (s : WM St) : result (Pane * WM St) :=
  let s :=
    if negb wantCaptureKeyboard && controlFPressed
    then set_showPaneAsRoot (negb (showPaneAsRoot s)) s
    else s in
  r <- (if showPaneAsRoot s && nodeFilterUnset s then
          r <- findPaneForMouse fuel (DisplayRoot (wm_world s)) displayFull mousePos
                 (wm_world s) ;;
          let pane := fst r in
          let s := set_wm_world (snd r) s in
          if negb (is_SplitLine pane) && bool_decide (pane ≠ None) then
            Ok (pane, set_nodeFilterUnset false (set_nodeFilter (FilterPane pane) s))
          else Ok (None, s)
        else Ok (None, s)) ;;
  let mousePane := fst r in
  let s := snd r in
  if negb (showPaneAsRoot s) then
    let s :=
      if negb (nodeFilterUnset s)
      then set_nodeFilterUnset true (set_nodeFilter FilterIdentity s)
      else s in
    r <- findPaneForMouse fuel (DisplayRoot (wm_world s)) displayFull mousePos
           (wm_world s) ;;
    Ok (fst r, set_wm_world (snd r) s)
  else Ok (mousePane, s).

(** The part of wmDrawPanes that keeps [wm.mouseConsumerOverride];
    [wantCaptureMouse], [isDragging] and [isClicked] are what imgui
    reports. *)
Definition wmDrawPanes_override (wantCaptureMouse isDragging isClicked : bool)
    (mousePane : Pane) (s : WM St) : WM St :=
  let s :=
    if wantCaptureMouse || (negb isDragging && negb isClicked)
    then set_mouseConsumerOverride None s
    else s in
  if negb wantCaptureMouse && (isDragging || isClicked)
     && bool_decide (mouseConsumerOverride s = None)
  then set_mouseConsumerOverride mousePane s
  else s.

(** The traversal at the end of wmDrawPanes, with [visit] for its
    callback. *)
Definition wmDrawPanes_draw (fuel : nat) (fbFull displayFull displayTrueFull : Extent2D)
    (visit : Extent2D → Extent2D → Extent2D → Extent2D → Pane
             → World St → result (World St))
    (s : WM St) : result (WM St) :=
  w <- VisitPanesWithBounds Extent2D_SplitX Extent2D_SplitY splitLineWidth
         nodes fuel (apply_nodeFilter (nodeFilter s)) (DisplayRoot (wm_world s))
         fbFull displayFull displayFull displayTrueFull visit (wm_world s) ;;
  Ok (set_wm_world w s).

(** The node filter and its flag agree, and the pane of a zoom is a
    pane. *)
Definition zoom_ok (s : WM St) : Prop :=
  (nodeFilterUnset s = true ∧ nodeFilter s = FilterIdentity)
  ∨ (nodeFilterUnset s = false
     ∧ ∃ pane, nodeFilter s = FilterPane pane
               ∧ pane ≠ None ∧ is_SplitLine pane = false).

(** Frames in which a button is down and imgui does not want the
    mouse: what imgui reports for dragging and clicking, and the pane
    under the mouse. *)
Definition held (f : bool * bool * Pane) : Prop :=
  let '(isDragging, isClicked, _) := f in isDragging || isClicked = true.

Definition override_frames (fs : list (bool * bool * Pane)) (s : WM St) : WM St :=
  fold_left (λ s f, let '(isDragging, isClicked, mousePane) := f in
                    wmDrawPanes_override false isDragging isClicked mousePane s)
    fs s.

End Mouse.

(** The first pane of a list that is not nil. *)
Fixpoint first_pane (l : list Pane) : Pane :=
  match l with
  | [] => None
  | Some p :: _ => Some p
  | None :: l => first_pane l
  end.

(** * What a saved tree loads as *)

(** The address of the root of a tree; nil for no tree. *)
Definition tree_root (t : Tree) : option loc :=
  match t with
  | Nil => None
  | Node a _ _ _ => Some a
  end.

(** What a saved node record describes: its type string, its split
    line, the pane that [UnmarshalJSON] makes of it (nil for the empty
    type string; the type and the decoded state for a type that the
    switch names; an empty pane for any other), and its two children,
    [SavedNil] for a child that is missing or null. *)
Inductive Saved (St : Type) :=
| SavedNil
| SavedNode (ty : string) (sl : SplitLine) (pane : option (PaneType * St))
    (c0 c1 : Saved St).

Arguments SavedNil {St}.
Arguments SavedNode {St} ty sl pane c0 c1.

Fixpoint height {St : Type} (T : Saved St) : nat :=
  match T with
  | SavedNil => O
  | SavedNode _ _ _ c0 c1 => S (Nat.max (height c0) (height c1))
  end.

Section Load.

Context {St : Type} `{!PaneImpl St}.
Context {RawMessage error : Type}.
Variable Unmarshal_map : RawMessage → decoded error (gmap string (option RawMessage)).
Variable Unmarshal_string : RawMessage → string → decoded error string.
Variable Unmarshal_SplitLine : RawMessage → SplitLine → decoded error SplitLine.
Variable Unmarshal_array : RawMessage → decoded error (list (option RawMessage)).
Variable Unmarshal_pane : PaneType → RawMessage → St → decoded error St.

(** The members of the record [m] with type string [ty] give the pane
    [p]. *)
Definition pane_saved (m : gmap string (option RawMessage)) (ty : string)
    (p : option (PaneType * St)) : Prop :=
  (ty = "" ∧ p = None)
  ∨ (∃ pty rP st,
       known_pane_type ty = Some pty
       ∧ m !! "Pane" = Some (Some rP)
       ∧ Unmarshal_pane pty rP (pane_zero pty) = Decoded st
       ∧ p = Some (pty, st))
  ∨ (ty ≠ "" ∧ known_pane_type ty = None
     ∧ p = Some (EmptyPane, pane_NewEmptyPane)).

(** The element [e] of a children array, or the message itself, decodes
    without error as the saved tree [T], into nodes that start as
    [DisplayNode{}]. *)
Fixpoint saved (e : option (option RawMessage)) (T : Saved St) : Prop :=
  match T with
  | SavedNil => e = None ∨ e = Some None
  | SavedNode ty sl p c0 c1 =>
      ∃ s m rT rS rC elems,
        e = Some (Some s)
        ∧ Unmarshal_map s = Decoded m
        ∧ m !! "Type" = Some (Some rT)
        ∧ Unmarshal_string rT "" = Decoded ty
        ∧ m !! "SplitLine" = Some (Some rS)
        ∧ Unmarshal_SplitLine rS SplitLine_zero = Decoded sl
        ∧ m !! "Children" = Some (Some rC)
        ∧ Unmarshal_array rC = Decoded elems
        ∧ saved (elems !! 0%nat) c0
        ∧ saved (elems !! 1%nat) c1
        ∧ pane_saved m ty p
  end.

(** The slot holds the pane [p]: nil, or a pointer to an object of the
    type with the state. *)
Definition pane_loaded (w : World St) (p : option (PaneType * St)) (slot : Pane)
  : Prop :=
  match p with
  | None => slot = None
  | Some (pty, st) => ∃ a, slot = Some (PanePtr pty a) ∧ panes w !! a = Some st
  end.

(** The tree [t] of the store is the saved tree [T]. *)
Fixpoint loaded (w : World St) (T : Saved St) (t : Tree) : Prop :=
  match T, t with
  | SavedNil, Nil => True
  | SavedNode _ sl p c0 c1, Node _ n l r =>
      node_SplitLine n = sl ∧ pane_loaded w p (node_Pane n)
      ∧ loaded w c0 l ∧ loaded w c1 r
  | _, _ => False
  end.

(** From [w] to [w'] every node but [d] is kept as it is, and every
    pane object. *)
Definition grows (w w' : World St) (d : loc) : Prop :=
  (∀ b, b ≠ d → is_Some (nodes w !! b) → nodes w' !! b = nodes w !! b)
  ∧ panes w ⊆ panes w'
  ∧ (∀ b, is_Some (nodes w !! b) → is_Some (nodes w' !! b)).

(** [rec] loads every message that decodes as [T] into a tree that is
    [T], made of the node it is given and of new nodes. *)
Definition loads (rec : option loc → RawMessage → M (St:=St) (option error))
    (T : Saved St) : Prop :=
  ∀ s d w,
    saved (Some (Some s)) T → nodes w !! d = Some DisplayNode_zero →
    ∃ w' t,
      rec (Some d) s w = Ok (None, w')
      ∧ repr (nodes w') (Some d) t
      ∧ loaded w' T t
      ∧ grows w w' d
      ∧ (∀ a, a ∈ addrs t → a = d ∨ nodes w !! a = None).

End Load.

(** * More sample trees *)

Module MoreExamples.

(** The tree of [Examples.nodes_one]. *)
Definition tree_one : Tree := Node 1%positive (Examples.leaf Examples.radar) Nil Nil.

(** The radar scope has the keyboard focus; nothing is saved. *)
Definition wm_radar : WM Examples.SimplePane :=
  mkWM (set_keyboardFocusPane (Some Examples.radar) Examples.world_two)
    [] false FilterIdentity true None.

(** The same while zoomed on the flight strips. *)
Definition wm_zoomed : WM Examples.SimplePane :=
  mkWM (set_keyboardFocusPane (Some Examples.radar) Examples.world_two)
    [] true (FilterPane (Some Examples.strips)) false None.

(** A coordinate as an integer, and [Inside] for the one-dimensional
    extents of [Examples.Interval], on the first coordinate. *)
Definition coord (x : float32) : Z :=
  match x with
  | S754_finite s m e => (if s then -1 else 1) * Z.shiftl (Z.pos m) e
  | _ => 0
  end.
Definition inside (e : Examples.Interval) (p : Point) : bool :=
  bool_decide (fst e ≤ coord (fst p) < snd e).
Definition at_six : Point := (S754_finite false 6 0, float32_zero).

End MoreExamples.
(** * Properties *)

(** The setters of the world, unfolded. *)
Ltac world_simpl :=
  unfold set_nodes, set_panes, set_splitLines, set_paneFirstPick,
    set_handlePanePick, set_paneConfigHelpText, set_keyboardFocusPane,
    set_active, set_lg in *; simpl in *.

(** Facts about a concrete tree, by evaluation. *)
Ltac tree_facts :=
  vm_compute; repeat split; intros; try done; try discriminate.

Lemma wf_not_Nil t : wf t → t ≠ Nil.
Proof. by destruct t. Qed.

Lemma wf_binary t : wf t → binary t.
Proof.
  induction t as [|a n l IHl r IHr]; simpl; [done|].
  intros [(_ & _ & -> & ->) | (_ & _ & Hl & Hr)]; [done|].
  split; [|by auto].
  split; intros ->; [by destruct Hl | by destruct Hr].
Qed.

Lemma repr_None_inv h t : repr h None t → t = Nil.
Proof. destruct t; simpl; [done|]. by intros [? _]. Qed.

(** Two stores that agree on the nodes of a tree both hold it. *)
Lemma repr_agree h h' t d :
  repr h d t → (∀ a, a ∈ addrs t → h' !! a = h !! a) → repr h' d t.
Proof.
  revert d. induction t as [|a n l IHl r IHr]; simpl; [done|].
  intros d (-> & Ha & Hl & Hr) Hag. split; [done|]. split.
  - rewrite Hag; [done|]. set_solver.
  - split; [apply IHl | apply IHr]; try done; intros b Hb; apply Hag; set_solver.
Qed.

Lemma repr_weaken h h' t d : repr h d t → h ⊆ h' → repr h' d t.
Proof.
  revert d. induction t as [|a n l IHl r IHr]; simpl; [done|].
  intros d (-> & Ha & Hl & Hr) Hsub.
  repeat split; eauto using lookup_weaken.
Qed.

Lemma repr_addrs_dom h t d a : repr h d t → a ∈ addrs t → is_Some (h !! a).
Proof.
  revert d. induction t as [|b n l IHl r IHr]; simpl; [set_solver|].
  intros d (-> & Hb & Hl & Hr) Ha.
  apply elem_of_cons in Ha as [->|Ha]; [by eexists|].
  apply elem_of_app in Ha as [Ha|Ha]; eauto.
Qed.

(** ** NodeForPane *)

Lemma NodeForPane_tree h t : ∀ d pane fuel,
  repr h d t → t ≠ Nil → binary t → (depth t ≤ fuel)%nat →
  (pane ∈ slots t →
     ∃ a n, NodeForPane fuel h d pane = Ok (Some a)
            ∧ a ∈ addrs t ∧ h !! a = Some n ∧ node_Pane n = pane)
  ∧ (pane ∉ slots t → NodeForPane fuel h d pane = Ok None).
Proof.
  induction t as [|a n l IHl r IHr]; [done|].
  intros d pane fuel (-> & Ha & Hl & Hr) _ (Hlr & Hbl & Hbr) Hfuel.
  destruct fuel as [|fuel]; simpl in Hfuel; [lia|].
  simpl. rewrite Ha. simpl.
  destruct (decide (node_Pane n = pane)) as [Heq|Hne].
  { split; [|set_solver]. intros _. exists a, n. set_solver. }
  destruct (decide (Children0 n = None)) as [Hc0|Hc0].
  { rewrite Hc0 in Hl. apply repr_None_inv in Hl as ->.
    assert (r = Nil) as -> by by apply Hlr.
    split; [|done]. simpl. set_solver. }
  assert (l ≠ Nil) as Hln.
  { intros ->. simpl in Hl. done. }
  assert (r ≠ Nil) as Hrn by tauto.
  destruct (IHl (Children0 n) pane fuel Hl Hln Hbl ltac:(lia)) as [IHl1 IHl2].
  destruct (IHr (Children1 n) pane fuel Hr Hrn Hbr ltac:(lia)) as [IHr1 IHr2].
  destruct (decide (pane ∈ slots l)) as [Hin|Hnin].
  - destruct (IHl1 Hin) as (a' & n' & -> & Ha' & Hn' & Hp'). simpl.
    split; [|set_solver]. intros _. exists a', n'. set_solver.
  - rewrite (IHl2 Hnin). simpl. split.
    + intros Hin. assert (pane ∈ slots r) as Hinr by set_solver.
      destruct (IHr1 Hinr) as (a' & n' & -> & Ha' & Hn' & Hp').
      exists a', n'. set_solver.
    + intros Hnin'. apply IHr2. set_solver.
Qed.

(** C5. For a tree in the store and a pane reference [P]: when some
    node's pane slot is [P], [NodeForPane] returns a node of the tree
    whose slot is [P]; when no slot is [P], it returns nil.  The search
    compares interface values and never looks at the pane objects: a
    pane at another address than one in the tree is not found, even when
    the two objects have the same contents. *)
Theorem NodeForPane_identity (h : NodeStore) (root : loc) (t : Tree)
    (P : PaneRef) (fuel : nat) :
  repr h (Some root) t → binary t → (depth t ≤ fuel)%nat →
  (Some P ∈ slots t →
     ∃ a n, NodeForPane fuel h (Some root) (Some P) = Ok (Some a)
            ∧ a ∈ addrs t ∧ h !! a = Some n ∧ node_Pane n = Some P)
  ∧ (Some P ∉ slots t → NodeForPane fuel h (Some root) (Some P) = Ok None)
  ∧ (∀ (St : Type) (objects : gmap loc St) ty a a',
       a ≠ a' → objects !! a = objects !! a' →
       Some (PanePtr ty a) ∈ slots t → Some (PanePtr ty a') ∉ slots t →
       NodeForPane fuel h (Some root) (Some (PanePtr ty a')) = Ok None).
Proof.
  intros Hrepr Hbin Hfuel.
  assert (t ≠ Nil) as Hne by (by destruct t).
  destruct (NodeForPane_tree h t (Some root) (Some P) fuel Hrepr Hne Hbin Hfuel)
    as [Hfound Hnone].
  split; [exact Hfound|]. split; [exact Hnone|].
  intros St objects ty a a' _ _ _ Hnin.
  by apply (NodeForPane_tree h t (Some root) _ fuel Hrepr Hne Hbin Hfuel).
Qed.

Lemma NodeForPane_identity_witness :
  repr Examples.nodes_two (Some 1%positive) Examples.tree_two
  ∧ binary Examples.tree_two
  ∧ (depth Examples.tree_two ≤ 2)%nat
  ∧ NodeForPane 2 Examples.nodes_two (Some 1%positive) (Some Examples.strips)
      = Ok (Some 3%positive)
  ∧ NodeForPane 2 Examples.nodes_two (Some 1%positive) (Some Examples.radar')
      = Ok None.
Proof.
  assert (repr Examples.nodes_two (Some 1%positive) Examples.tree_two) as Hrepr
    by tree_facts.
  assert (binary Examples.tree_two) as Hbin by tree_facts.
  assert (depth Examples.tree_two ≤ 2)%nat as Hfuel by (simpl; lia).
  split; [exact Hrepr|]. split; [exact Hbin|]. split; [exact Hfuel|].
  destruct (NodeForPane_identity _ _ _ Examples.strips _ Hrepr Hbin Hfuel)
    as (Hfound & _ & _).
  destruct (NodeForPane_identity _ _ _ Examples.radar' _ Hrepr Hbin Hfuel)
    as (_ & _ & Hident).
  split.
  - assert (Some Examples.strips ∈ slots Examples.tree_two) as Hin
      by (simpl; set_solver).
    destruct (Hfound Hin) as (a & n & Hrun & _).
    etransitivity; [exact Hrun|]. vm_compute in Hrun. symmetry. exact Hrun.
  - apply (Hident Examples.SimplePane Examples.pane_objects RadarScopePane
             1%positive 3%positive).
    + discriminate.
    + reflexivity.
    + simpl. set_solver.
    + simpl. unfold Examples.radar, Examples.strips. set_solver.
Defined.

(** ** SplitX and SplitY *)

(** C3. For a leaf [d], a fraction [f] and a new sibling [c]: [SplitX]
    returns a new node, at an address that was not in use, with axis
    [SplitAxisX], position [f] and children [d] and [c], and changes
    nothing else; [SplitY] returns the same node: its axis is
    [SplitAxisX] too, not [SplitAxisY]. *)
Theorem SplitX_SplitY_node {St : Type} (w : World St) (d : loc) (n : DisplayNode)
    (f : float32) (c : option loc) :
  nodes w !! d = Some n →
  Axis (node_SplitLine n) = SplitAxisNone →
  ∃ a : loc,
    nodes w !! a = None
    ∧ SplitX (Some d) f c w
      = Ok (Some a,
            set_nodes (<[a := mkDisplayNode None (mkSplitLine f SplitAxisX) (Some d, c)]>
                         (nodes w)) w)
    ∧ SplitY (Some d) f c w
      = Ok (Some a,
            set_nodes (<[a := mkDisplayNode None (mkSplitLine f SplitAxisX) (Some d, c)]>
                         (nodes w)) w)
    ∧ SplitAxisX ≠ SplitAxisY.
Proof.
  intros Hd Hleaf.
  exists (fresh (dom (nodes w))). split.
  { apply not_elem_of_dom, is_fresh. }
  unfold SplitX, SplitY, bind, load, lift, alloc_node, ret. simpl.
  rewrite Hd. simpl.
  destruct (decide (Axis (node_SplitLine n) ≠ SplitAxisNone)); [done|].
  simpl. done.
Qed.

Lemma SplitX_SplitY_node_witness :
  nodes Examples.world_one !! 1%positive = Some (Examples.leaf Examples.radar)
  ∧ Axis (node_SplitLine (Examples.leaf Examples.radar)) = SplitAxisNone
  ∧ ∃ a w',
      SplitY (Some 1%positive) float32_half None Examples.world_one = Ok (Some a, w')
      ∧ option_map (λ n, Axis (node_SplitLine n)) (nodes w' !! a) = Some SplitAxisX.
Proof.
  assert (nodes Examples.world_one !! 1%positive = Some (Examples.leaf Examples.radar))
    as Hd by reflexivity.
  assert (Axis (node_SplitLine (Examples.leaf Examples.radar)) = SplitAxisNone)
    as Hleaf by reflexivity.
  split; [exact Hd|]. split; [exact Hleaf|].
  destruct (SplitX_SplitY_node Examples.world_one 1%positive _ float32_half None Hd Hleaf)
    as (a & _ & _ & HY & _).
  eexists _, _. split; [exact HY|].
  simpl. rewrite lookup_insert_eq. reflexivity.
Defined.

(** ** The buttons of the edit mode *)

Section Buttons.

Context {St : Type} `{!PaneImpl St}.

(** One round of the loop of [Draw] when no button is pressed and the
    [show] callback leaves the world alone. *)
Lemma Draw_from_idle (m : ModalButtonSet) (i : nat) (name : string)
    (rest : list string) (w : World St) (shw : M bool) (b : bool) :
  show m !! i = Some shw → shw w = Ok (b, w) →
  Draw_from m (λ _, false) i (name :: rest) w
  = match Draw_from m (λ _, false) (S i) rest w with
    | Ok (drawn, w') => Ok (if b then name :: drawn else drawn, w')
    | Panic => Panic
    | OutOfFuel => OutOfFuel
    end.
Proof.
  intros Hi Hshw. simpl. unfold bind at 1. unfold index. rewrite Hi.
  unfold bind at 1. rewrite Hshw.
  destruct b; simpl.
  - unfold bind at 1. unfold get. unfold bind at 1.
    case_decide; simpl; unfold bind, ret;
      by destruct (Draw_from m _ (S i) rest w) as [[??]| |].
  - by destruct (Draw_from m _ (S i) rest w) as [[??]| |].
Qed.

(** C2, as the code has it.  Copy, Exchange and Delete are shown exactly
    when the root has children; Split Horizontally and Split Vertically
    are always shown.  [ModalButtonSet.Draw] draws the buttons
    accordingly. *)
Theorem configButtons_show (w : World St) (root : loc) (n : DisplayNode) :
  DisplayRoot w = Some root → nodes w !! root = Some n →
  let b := bool_decide (Children0 n ≠ None) in
  names (@wmInit_configButtons St)
    = ["Copy"; "Exchange"; "Split Horizontally"; "Split Vertically"; "Delete"]
  ∧ map (λ shw : M bool, shw w) (show wmInit_configButtons)
    = [Ok (b, w); Ok (b, w); Ok (true, w); Ok (true, w); Ok (b, w)]
  ∧ ModalButtonSet_Draw wmInit_configButtons (λ _, false) w
    = Ok (if b
          then ["Copy"; "Exchange"; "Split Horizontally"; "Split Vertically"; "Delete"]
          else ["Split Horizontally"; "Split Vertically"], w).
Proof.
  intros Hroot Hn b.
  assert (show_if_split w = Ok (b, w)) as Hshow.
  { unfold show_if_split, bind, get, load, lift, ret. simpl.
    rewrite Hroot. simpl. rewrite Hn. done. }
  split; [done|]. split.
  { simpl. rewrite Hshow. done. }
  unfold ModalButtonSet_Draw.
  change (names wmInit_configButtons)
    with ["Copy"; "Exchange"; "Split Horizontally"; "Split Vertically"; "Delete"].
  rewrite (Draw_from_idle wmInit_configButtons 0 _ _ w show_if_split b eq_refl Hshow).
  rewrite (Draw_from_idle wmInit_configButtons 1 _ _ w show_if_split b eq_refl Hshow).
  rewrite (Draw_from_idle wmInit_configButtons 2 _ _ w show_always true eq_refl eq_refl).
  rewrite (Draw_from_idle wmInit_configButtons 3 _ _ w show_always true eq_refl eq_refl).
  rewrite (Draw_from_idle wmInit_configButtons 4 _ _ w show_if_split b eq_refl Hshow).
  simpl. by destruct b.
Qed.

End Buttons.

Lemma configButtons_show_witness :
  DisplayRoot Examples.world_two = Some 1%positive
  ∧ nodes Examples.world_two !! 1%positive
    = Some (Examples.split SplitAxisX 2%positive 3%positive)
  ∧ ModalButtonSet_Draw wmInit_configButtons (λ _, false) Examples.world_two
    = Ok (["Copy"; "Exchange"; "Split Horizontally"; "Split Vertically"; "Delete"],
          Examples.world_two).
Proof.
  assert (DisplayRoot Examples.world_two = Some 1%positive) as Hroot by reflexivity.
  assert (nodes Examples.world_two !! 1%positive
          = Some (Examples.split SplitAxisX 2%positive 3%positive)) as Hn
    by reflexivity.
  split; [exact Hroot|]. split; [exact Hn|].
  exact (proj2 (proj2 (configButtons_show Examples.world_two 1%positive _ Hroot Hn))).
Defined.

(** For a tree of one pane, [Draw] draws the two split buttons. *)
Example ModalButtonSet_Draw_single_pane :
  ModalButtonSet_Draw wmInit_configButtons (λ _, false) Examples.world_one
  = Ok (["Split Horizontally"; "Split Vertically"], Examples.world_one).
Proof. vm_compute. reflexivity. Qed.

(** C2 as stated fails: in a tree of one pane the two split buttons are
    shown. *)
Lemma configButtons_single_pane_counterexample :
  ¬ shown_only_when_split Examples.world_one.
Proof.
  intros Hstated.
  destruct (Hstated 2%nat "Split Horizontally" show_always Examples.world_one
              eq_refl eq_refl eq_refl)
    as (root & n & Hroot & Hn & Hc).
  vm_compute in Hroot. injection Hroot as <-.
  vm_compute in Hn. injection Hn as <-.
  by apply Hc.
Qed.

(** ** Traversals *)

Lemma wf_drawable t : wf t → drawable t.
Proof.
  induction t as [|a n l IHl r IHr]; simpl; [done|].
  intros [(? & _) | (? & _ & ? & ?)]; [by left|right; auto].
Qed.

Lemma drawable_visitable t : drawable t → visitable t.
Proof.
  induction t as [|a n l IHl r IHr]; simpl; [done|].
  intros [? | (_ & ? & ?)]; [by left|right; auto].
Qed.

Lemma visit_all_app {S X : Type} (visit : X → S → result S) (l1 l2 : list X) (s : S) :
  visit_all visit (l1 ++ l2) s = (s' <- visit_all visit l1 s ;; visit_all visit l2 s').
Proof.
  revert s. induction l1 as [|x l1 IH]; intros s; simpl; [done|].
  destruct (visit x s); simpl; auto.
Qed.

Lemma visit_all_store {S X Y : Type} (store : S → Y) (visit : X → S → result S)
    (l : list X) (s s' : S) :
  (∀ p s s', visit p s = Ok s' → store s' = store s) →
  visit_all visit l s = Ok s' → store s' = store s.
Proof.
  intros Hpres. revert s. induction l as [|x l IH]; intros s; simpl.
  - by intros [= ->].
  - destruct (visit x s) as [s1| |] eqn:Hx; simpl; try done.
    intros Hrest. rewrite (IH _ Hrest). eauto.
Qed.

(** On a tree of the store, [VisitPanes] calls [visit] on the in-order
    sequence of the tree, when the callback leaves the nodes alone. *)
Lemma VisitPanes_traversal {S : Type} (store : S → NodeStore)
    (visit : Pane → S → result S) (t : Tree) :
  (∀ p s s', visit p s = Ok s' → store s' = store s) →
  ∀ d fuel s,
    repr (store s) d t → visitable t → (depth t ≤ fuel)%nat →
    VisitPanes store fuel d visit s = visit_all visit (traversal t) s.
Proof.
  intros Hpres. induction t as [|a n l IHl r IHr]; [done|].
  intros d fuel s (-> & Ha & Hl & Hr) Hvis Hfuel.
  destruct fuel as [|fuel]; simpl in Hfuel; [lia|].
  simpl. rewrite Ha. simpl.
  destruct (decide (Axis (node_SplitLine n) = SplitAxisNone)) as [Hax|Hax].
  { simpl. by destruct (visit (node_Pane n) s). }
  destruct Hvis as [?|[Hvl Hvr]]; [done|].
  rewrite (IHl _ fuel s Hl Hvl ltac:(lia)).
  rewrite visit_all_app.
  destruct (visit_all visit (traversal l) s) as [s1| |] eqn:H1; simpl; try done.
  pose proof (visit_all_store store visit _ _ _ Hpres H1) as Hs1.
  destruct (visit (Some (SplitLinePtr a)) s1) as [s2| |] eqn:H2; simpl; try done.
  pose proof (Hpres _ _ _ H2) as Hs2.
  rewrite Hs2, Hs1, Ha. simpl.
  apply IHr; [|done|lia]. by rewrite Hs2, Hs1.
Qed.

Section BoundsProperties.

Context {Extent2D : Type}.
Variable Extent2D_SplitX : Extent2D → float32 → Z → Extent2D * Extent2D * Extent2D.
Variable Extent2D_SplitY : Extent2D → float32 → Z → Extent2D * Extent2D * Extent2D.
Variable splitLineWidth : Z.

#[local] Abbreviation VWB :=
  (VisitPanesWithBounds Extent2D_SplitX Extent2D_SplitY splitLineWidth).
#[local] Abbreviation layout :=
  (bounds_traversal Extent2D_SplitX Extent2D_SplitY splitLineWidth).

(** With the identity filter, [VisitPanesWithBounds] calls [visit] on the
    in-order sequence of the tree, each element with its extents. *)
Lemma VisitPanesWithBounds_traversal {S : Type} (store : S → NodeStore)
    (visit : Extent2D → Extent2D → Extent2D → Extent2D → Pane → S → result S)
    (t : Tree) :
  (∀ fb disp pd full p s s', visit fb disp pd full p s = Ok s' → store s' = store s) →
  ∀ d fuel fb disp pd full s,
    repr (store s) d t → drawable t → (depth t ≤ fuel)%nat →
    VWB store fuel nodeFilter_identity d fb disp pd full visit s
    = visit_all (λ v : @BoundsVisit Extent2D, let '(fb, disp, pd, full, p) := v in
                                    visit fb disp pd full p)
        (layout t fb disp pd full) s.
Proof.
  intros Hpres.
  set (visit' := λ v : @BoundsVisit Extent2D, let '(fb, disp, pd, full, p) := v in
                                    visit fb disp pd full p).
  assert (∀ v s s', visit' v s = Ok s' → store s' = store s) as Hpres'.
  { intros [[[[??]?]?]?] ??. apply Hpres. }
  induction t as [|a n l IHl r IHr]; [done|].
  intros d fuel fb disp pd full s (-> & Ha & Hl & Hr) Hdr Hfuel.
  destruct fuel as [|fuel]; simpl in Hfuel; [lia|].
  simpl. rewrite Ha. simpl.
  destruct (decide (Axis (node_SplitLine n) = SplitAxisNone)) as [Hax|Hax].
  { simpl. by destruct (visit fb disp pd full (node_Pane n) s). }
  destruct Hdr as [?|[Haxis [Hdl Hdr]]]; [done|].
  destruct (decide (Axis (node_SplitLine n) = SplitAxisX)) as [HX|HX].
  - destruct (Extent2D_SplitX fb _ _) as [[f0 fs] f1].
    destruct (Extent2D_SplitX disp _ _) as [[d0 ds] d1].
    rewrite (IHl _ fuel f0 d0 disp full s Hl Hdl ltac:(lia)).
    rewrite visit_all_app.
    destruct (visit_all visit' _ s) as [s1| |] eqn:H1; simpl; try done.
    pose proof (visit_all_store store visit' _ _ _ Hpres' H1) as Hs1.
    destruct (visit fs ds disp full (Some (SplitLinePtr a)) s1) as [s2| |] eqn:H2;
      simpl; try done.
    pose proof (Hpres _ _ _ _ _ _ _ H2) as Hs2.
    rewrite Hs2, Hs1, Ha. simpl.
    apply IHr; [|done|lia]. by rewrite Hs2, Hs1.
  - destruct (decide (Axis (node_SplitLine n) = SplitAxisY)) as [HY|HY];
      [|by destruct Haxis].
    destruct (Extent2D_SplitY fb _ _) as [[f0 fs] f1].
    destruct (Extent2D_SplitY disp _ _) as [[d0 ds] d1].
    rewrite (IHl _ fuel f0 d0 disp full s Hl Hdl ltac:(lia)).
    rewrite visit_all_app.
    destruct (visit_all visit' _ s) as [s1| |] eqn:H1; simpl; try done.
    pose proof (visit_all_store store visit' _ _ _ Hpres' H1) as Hs1.
    destruct (visit fs ds disp full (Some (SplitLinePtr a)) s1) as [s2| |] eqn:H2;
      simpl; try done.
    pose proof (Hpres _ _ _ _ _ _ _ H2) as Hs2.
    rewrite Hs2, Hs1, Ha. simpl.
    apply IHr; [|done|lia]. by rewrite Hs2, Hs1.
Qed.

(** The panes of the layout are the in-order sequence. *)
Lemma layout_panes (t : Tree) : ∀ fb disp pd full,
  drawable t → map visited_pane (layout t fb disp pd full) = traversal t.
Proof.
  induction t as [|a n l IHl r IHr]; [done|].
  intros fb disp pd full Hdr. simpl.
  destruct (decide (Axis (node_SplitLine n) = SplitAxisNone)) as [Hax|Hax]; [done|].
  destruct Hdr as [?|[Haxis [Hdl Hdr]]]; [done|].
  destruct (decide (Axis (node_SplitLine n) = SplitAxisX)) as [HX|HX].
  - destruct (Extent2D_SplitX fb _ _) as [[f0 fs] f1].
    destruct (Extent2D_SplitX disp _ _) as [[d0 ds] d1].
    rewrite map_app. simpl. by rewrite IHl, IHr.
  - destruct (decide (Axis (node_SplitLine n) = SplitAxisY)) as [HY|HY];
      [|by destruct Haxis].
    destruct (Extent2D_SplitY fb _ _) as [[f0 fs] f1].
    destruct (Extent2D_SplitY disp _ _) as [[d0 ds] d1].
    rewrite map_app. simpl. by rewrite IHl, IHr.
Qed.

Lemma visit_all_record_pane (l : list Pane) (h : NodeStore) (acc : list Pane) :
  visit_all record_pane l (h, acc) = Ok (h, (acc ++ l)%list).
Proof.
  revert acc. induction l as [|p l IH]; intros acc; simpl.
  - by rewrite app_nil_r.
  - unfold record_pane at 1. simpl. rewrite IH. by rewrite <- app_assoc.
Qed.

Lemma visit_all_record_bounds (l : list (@BoundsVisit Extent2D)) (h : NodeStore)
    (acc : list (@BoundsVisit Extent2D)) :
  visit_all (λ v : @BoundsVisit Extent2D, let '(fb, disp, pd, full, p) := v in
                                record_bounds fb disp pd full p) l (h, acc)
  = Ok (h, (acc ++ l)%list).
Proof.
  revert acc. induction l as [|[[[[fb disp] pd] full] p] l IH]; intros acc; simpl.
  - by rewrite app_nil_r.
  - rewrite IH. by rewrite <- app_assoc.
Qed.

(** C6. For a tree of the store whose split nodes have axis X or Y and
    two children, [VisitPanes] and [VisitPanesWithBounds] with the
    identity filter call their callbacks on the same sequence of panes
    and dividers: the in-order sequence of the tree (left subtree, the
    node's own divider, right subtree; the pane of a leaf). *)
Theorem VisitPanes_VisitPanesWithBounds_same_sequence (h : NodeStore) (root : loc)
    (t : Tree) (fuel : nat) (fb disp pd full : Extent2D) :
  repr h (Some root) t → drawable t → (depth t ≤ fuel)%nat →
  VisitPanes fst fuel (Some root) record_pane (h, []) = Ok (h, traversal t)
  ∧ ∃ calls : list (@BoundsVisit Extent2D),
      VWB fst fuel nodeFilter_identity (Some root) fb disp pd full
        record_bounds (h, []) = Ok (h, calls)
      ∧ map visited_pane calls = traversal t.
Proof.
  intros Hrepr Hdr Hfuel. split.
  - rewrite (VisitPanes_traversal fst record_pane t); try done.
    + by rewrite visit_all_record_pane.
    + by intros p [??] [??] [= <- _].
    + by apply drawable_visitable.
  - exists (layout t fb disp pd full). split; [|by apply layout_panes].
    rewrite (VisitPanesWithBounds_traversal fst record_bounds t); try done.
    + by rewrite visit_all_record_bounds.
    + by intros ????? [??] [??] [= <- _].
Qed.

End BoundsProperties.

Lemma VisitPanes_VisitPanesWithBounds_same_sequence_witness :
  repr Examples.nodes_two (Some 1%positive) Examples.tree_two
  ∧ drawable Examples.tree_two
  ∧ (depth Examples.tree_two ≤ 2)%nat
  ∧ VisitPanes fst 2 (Some 1%positive) record_pane (Examples.nodes_two, [])
    = Ok (Examples.nodes_two,
          [Some Examples.radar; Some (SplitLinePtr 1%positive); Some Examples.strips])
  ∧ ∃ calls,
      VisitPanesWithBounds Examples.halve Examples.halve 3 fst 2 nodeFilter_identity
        (Some 1%positive) (0, 100) (0, 100) (0, 100) (0, 100) record_bounds
        (Examples.nodes_two, [])
      = Ok (Examples.nodes_two, calls)
      ∧ map visited_pane calls
        = [Some Examples.radar; Some (SplitLinePtr 1%positive); Some Examples.strips].
Proof.
  assert (repr Examples.nodes_two (Some 1%positive) Examples.tree_two) as Hrepr
    by tree_facts.
  assert (drawable Examples.tree_two) as Hdr
    by (simpl; right; split; [by left|split; by left]).
  assert (depth Examples.tree_two ≤ 2)%nat as Hfuel by (simpl; lia).
  split; [exact Hrepr|]. split; [exact Hdr|]. split; [exact Hfuel|].
  exact (VisitPanes_VisitPanesWithBounds_same_sequence
           Examples.halve Examples.halve 3 Examples.nodes_two 1%positive
           Examples.tree_two 2 (0, 100) (0, 100) (0, 100) (0, 100)
           Hrepr Hdr Hfuel).
Defined.

(** ** Keyboard focus *)

Lemma traversal_wf (t : Tree) (p : Pane) :
  wf t → p ∈ traversal t →
  (∃ a, p = Some (SplitLinePtr a)) ∨ (p ≠ None ∧ p ∈ slots t).
Proof.
  induction t as [|a n l IHl r IHr]; simpl; [done|].
  intros [(Hax & Hp & -> & ->) | (Hax & Hp & Hl & Hr)].
  - rewrite decide_True by done. intros ->%list_elem_of_singleton.
    right. split; [done|]. set_solver.
  - rewrite decide_False by (unfold SplitAxisNone, SplitAxisX, SplitAxisY in *; lia).
    intros [Hin|Hin]%elem_of_app.
    + destruct (IHl Hl Hin) as [?|[? ?]]; [by left|right]. set_solver.
    + apply elem_of_cons in Hin as [->|Hin]; [left; by eexists|].
      destruct (IHr Hr Hin) as [?|[? ?]]; [by left|right]. set_solver.
Qed.

Lemma wf_visitable t : wf t → visitable t.
Proof. intros. by apply drawable_visitable, wf_drawable. Qed.

Lemma pick_last_filter (P : Pane → bool) (l : list Pane) (cur : Pane) :
  pick_last P l cur = default cur (last (List.filter P l)).
Proof.
  unfold pick_last. revert cur. induction l as [|p l IH]; intros cur; simpl; [done|].
  rewrite IH. destruct (P p); [|done].
  destruct (List.filter P l) as [|q l']; [done|].
  change (last (p :: q :: l')) with (last (q :: l')).
  destruct (last (q :: l')) eqn:Hlast; [done|].
  by apply last_None in Hlast.
Qed.

Section Focus.

Context {St : Type} `{!PaneImpl St}.

Lemma visit_all_found (pane : Pane) (l : list Pane) (w : World St) (acc : bool) :
  visit_all (λ p (s : World St * bool),
               Ok (if decide (p = pane) then (fst s, true) else s)) l (w, acc)
  = Ok (w, acc || bool_decide (pane ∈ l)).
Proof.
  revert acc. induction l as [|p l IH]; intros acc; simpl.
  - by rewrite orb_false_r.
  - destruct (decide (p = pane)) as [->|Hne]; simpl; rewrite IH.
    + rewrite (bool_decide_true (pane ∈ pane :: l)) by set_solver.
      by rewrite orb_true_r.
    + f_equal. f_equal. f_equal. apply bool_decide_ext. set_solver.
Qed.

Lemma wmPaneIsPresent_tree (w : World St) (t : Tree) (pane : Pane) (fuel : nat) :
  repr (nodes w) (DisplayRoot w) t → visitable t → (depth t ≤ fuel)%nat →
  wmPaneIsPresent fuel pane w = Ok (bool_decide (pane ∈ traversal t), w).
Proof.
  intros Hrepr Hvis Hfuel. unfold wmPaneIsPresent.
  rewrite (VisitPanes_traversal (λ s : World St * bool, nodes (fst s)) _ t);
    try done.
  - by rewrite visit_all_found.
  - intros p [??] [??]. case_decide; by intros [= <- <-].
Qed.

Lemma visit_all_CLIPane (l : list Pane) (w : World St) (cur : Pane) :
  visit_all (λ p (w : World St),
               Ok (if is_CLIPane p then set_keyboardFocusPane p w else w))
    l (set_keyboardFocusPane cur w)
  = Ok (set_keyboardFocusPane (pick_last is_CLIPane l cur) w).
Proof.
  unfold pick_last.
  revert cur. induction l as [|p l IH]; intros cur; simpl; [done|].
  destruct (is_CLIPane p); [|by rewrite IH].
  change (set_keyboardFocusPane p (set_keyboardFocusPane cur w))
    with (set_keyboardFocusPane p w).
  by rewrite IH.
Qed.

Lemma visit_all_focus (l : list Pane) (w : World St) (cur : Pane) :
  (∀ p, p ∈ l → ∃ b, CanTakeKeyboardFocus p w = Ok b) →
  visit_all (λ p (w : World St),
               c <- CanTakeKeyboardFocus p w ;;
               Ok (if c : bool then set_keyboardFocusPane p w else w))
    l (set_keyboardFocusPane cur w)
  = Ok (set_keyboardFocusPane (pick_last (can_focus w) l cur) w).
Proof.
  unfold pick_last.
  revert cur. induction l as [|p l IH]; intros cur Hok; simpl; [done|].
  destruct (Hok p ltac:(set_solver)) as [b Hb].
  change (CanTakeKeyboardFocus p (set_keyboardFocusPane cur w))
    with (CanTakeKeyboardFocus p w).
  unfold can_focus at 2. rewrite Hb. simpl.
  destruct b.
  - change (set_keyboardFocusPane p (set_keyboardFocusPane cur w))
      with (set_keyboardFocusPane p w).
    apply IH. intros; apply Hok; set_solver.
  - apply IH. intros; apply Hok; set_solver.
Qed.

Lemma CanTakeKeyboardFocus_tree (w : World St) (t : Tree) (p : Pane) :
  wf t → closed w t → p ∈ traversal t → ∃ b, CanTakeKeyboardFocus p w = Ok b.
Proof.
  intros Hwf Hcl Hin.
  destruct (traversal_wf t p Hwf Hin) as [[a ->]|[Hne Hslot]]; [by eexists|].
  destruct p as [[ty a|a|a]|]; try done; try by eexists.
  destruct (Hcl _ Hslot) as [st Hst]. simpl. rewrite Hst. by eexists.
Qed.

Lemma pick_last_CLIPane_nil (l : list Pane) :
  pick_last is_CLIPane l None = None ↔ List.filter is_CLIPane l = [].
Proof.
  rewrite pick_last_filter.
  destruct (List.filter is_CLIPane l) as [|q l'] eqn:Hf; [done|].
  split; [|done]. intros Hlast.
  assert (last (q :: l') = Some None) as Hl.
  { destruct (last (q :: l')) as [x|] eqn:Hx; [simpl in Hlast; by subst|].
    by apply last_None in Hx. }
  apply last_Some_elem_of in Hl.
  assert (In None (List.filter is_CLIPane l)) as Hin.
  { rewrite Hf. by apply list_elem_of_In. }
  apply filter_In in Hin as [_ Hin]. done.
Qed.

(** C1, as the code has it.  On a well-formed tree whose panes are alive:
    a focus pane that is among the visited panes is kept; otherwise the
    focus is cleared and set again, to the last CLI pane of the traversal
    if there is one, else to the LAST pane of the traversal whose
    [CanTakeKeyboardFocus] is true, else to nil.  Nothing else changes. *)
Theorem wmDrawPanes_focus_resolution (w : World St) (t : Tree) (fuel : nat) :
  repr (nodes w) (DisplayRoot w) t → wf t → closed w t → (depth t ≤ fuel)%nat →
  wmDrawPanes_focus fuel w
  = Ok (tt, set_keyboardFocusPane
              (if bool_decide (keyboardFocusPane w ∈ traversal t)
               then keyboardFocusPane w
               else match last (List.filter is_CLIPane (traversal t)) with
                    | Some p => p
                    | None =>
                        default None (last (List.filter (can_focus w) (traversal t)))
                    end) w).
Proof.
  intros Hrepr Hwf Hcl Hfuel.
  pose proof (wf_visitable t Hwf) as Hvis.
  unfold wmDrawPanes_focus.
  unfold bind at 1. unfold get at 1.
  unfold bind at 1. rewrite (wmPaneIsPresent_tree w t _ fuel Hrepr Hvis Hfuel).
  destruct (bool_decide (keyboardFocusPane w ∈ traversal t)) eqn:Hpresent; simpl.
  - apply bool_decide_eq_true in Hpresent.
    assert (keyboardFocusPane w ≠ None) as Hfocus.
    { destruct (traversal_wf t _ Hwf Hpresent) as [[a Ha]|[? _]]; [|done].
      by rewrite Ha. }
    unfold bind, ret, get. simpl.
    rewrite decide_False by done. by destruct w.
  - unfold bind at 1. unfold modify at 1.
    unfold bind at 1. unfold get at 1.
    rewrite decide_True by done.
    unfold bind at 1.
    rewrite (VisitPanes_traversal nodes _ t); try done;
      [|intros p ??; destruct (is_CLIPane p); by intros [= <-]].
    rewrite visit_all_CLIPane. simpl.
    unfold bind at 1. unfold get at 1.
    change (keyboardFocusPane (set_keyboardFocusPane ?x w)) with x.
    pose proof (pick_last_CLIPane_nil (traversal t)) as Hnil.
    rewrite (pick_last_filter is_CLIPane) in *.
    destruct (last (List.filter is_CLIPane (traversal t))) as [p|] eqn:Hlast; simpl in *.
    + destruct (decide (p = None)) as [->|Hp]; [|done].
      destruct Hnil as [Hnil _]. rewrite Hnil in Hlast by done. done.
    + rewrite (VisitPanes_traversal nodes _ t); try done.
      * rewrite visit_all_focus by eauto using CanTakeKeyboardFocus_tree.
        simpl. by rewrite pick_last_filter.
      * intros p ??. destruct (CanTakeKeyboardFocus p _) as [[]| |]; simpl;
          try done; by intros [= <-].
Qed.

End Focus.

(** The pane objects of a concrete tree are in the store. *)
Ltac closed_facts :=
  intros ? Hin; simpl in Hin;
  repeat (apply elem_of_cons in Hin as [->|Hin];
          [vm_compute; first [exact I | eexists; reflexivity]|]);
  by apply elem_of_nil in Hin.

Lemma wmDrawPanes_focus_resolution_witness :
  repr (nodes Examples.world_two) (DisplayRoot Examples.world_two) Examples.tree_two
  ∧ wf Examples.tree_two
  ∧ closed Examples.world_two Examples.tree_two
  ∧ (depth Examples.tree_two ≤ 2)%nat
  ∧ wmDrawPanes_focus 2 Examples.world_two
    = Ok (tt, set_keyboardFocusPane (Some Examples.strips) Examples.world_two).
Proof.
  assert (repr (nodes Examples.world_two) (DisplayRoot Examples.world_two)
            Examples.tree_two) as Hrepr by tree_facts.
  assert (wf Examples.tree_two) as Hwf.
  { simpl. right. split; [by left|]. split; [done|]. split; left; by repeat split. }
  assert (closed Examples.world_two Examples.tree_two) as Hcl by closed_facts.
  assert (depth Examples.tree_two ≤ 2)%nat as Hfuel by (simpl; lia).
  split; [exact Hrepr|]. split; [exact Hwf|]. split; [exact Hcl|].
  split; [exact Hfuel|].
  exact (wmDrawPanes_focus_resolution Examples.world_two Examples.tree_two 2
           Hrepr Hwf Hcl Hfuel).
Defined.

(** With two flight-strip panes that can take the focus, no CLI pane and
    no focus set, the focus goes to the second one. *)
Example wmDrawPanes_focus_two_strips :
  wmDrawPanes_focus 2 Examples.world_strips
  = Ok (tt, set_keyboardFocusPane (Some Examples.strips') Examples.world_strips).
Proof. vm_compute. reflexivity. Qed.

(** C1 as stated fails: with two flight-strip panes that can take the
    focus and no CLI pane, the focus goes to the second, not to the
    first. *)
Lemma wmDrawPanes_focus_first_counterexample :
  ¬ focus_first_eligible 2 Examples.world_strips (traversal Examples.tree_strips).
Proof.
  intros Hstated.
  destruct (Hstated eq_refl eq_refl) as (w' & Hrun & Hfocus).
  vm_compute in Hrun. injection Hrun as <-.
  vm_compute in Hfocus. discriminate Hfocus.
Qed.

(** ** Exchange *)

Section Exchange.

Context {St : Type} `{!PaneImpl St}.

(** C9. The second click of Exchange, handed over by wmDrawPanes to the
    armed handler, with [P1] the first pick and [P2] the pane clicked.
    When [P2] is [P1], no node changes.  When they differ and both are in
    the tree, the pane slots of the two nodes that hold them are swapped
    and no other node and no pane object changes.  In both cases the
    first pick and the help text are reset, and the handler, having
    reported completion, is disarmed. *)
Theorem Exchange_second_click (w : World St) (t : Tree) (P1 P2 : PaneRef) (fuel : nat) :
  handlePanePick w = Some (ButtonPick ExchangePick) →
  paneFirstPick w = Some P1 →
  is_SplitLine (Some P2) = false →
  repr (nodes w) (DisplayRoot w) t → t ≠ Nil → binary t → (depth t ≤ fuel)%nat →
  (P2 = P1 →
     wmDrawPanes_pick fuel true (Some P2) w = Ok (tt, exchanged (nodes w) w))
  ∧ (P2 ≠ P1 → Some P1 ∈ slots t → Some P2 ∈ slots t →
     ∃ a0 a1 n0 n1,
       a0 ≠ a1
       ∧ nodes w !! a0 = Some n0 ∧ node_Pane n0 = Some P1
       ∧ nodes w !! a1 = Some n1 ∧ node_Pane n1 = Some P2
       ∧ wmDrawPanes_pick fuel true (Some P2) w
         = Ok (tt, exchanged (<[a1 := with_Pane (Some P1) n1]>
                                (<[a0 := with_Pane (Some P2) n0]> (nodes w))) w)).
Proof.
  intros Harmed Hfirst Hsplit Hrepr Hne Hbin Hfuel.
  destruct (NodeForPane_tree _ _ _ (Some P1) fuel Hrepr Hne Hbin Hfuel) as [Hf1 Hn1].
  destruct (NodeForPane_tree _ _ _ (Some P2) fuel Hrepr Hne Hbin Hfuel) as [Hf2 Hn2].
  split.
  - intros ->.
    unfold wmDrawPanes_pick, bind at 1, get at 1. rewrite Harmed.
    rewrite Hsplit. simpl.
    unfold bind at 1. unfold bind at 1. unfold bind at 1. unfold get at 1.
    rewrite Hfirst. simpl.
    unfold bind at 1. unfold lift at 1. rewrite Hfirst.
    destruct (decide (Some P1 ∈ slots t)) as [Hin|Hnin].
    + destruct (Hf1 Hin) as (a & n & -> & _). simpl.
      unfold bind at 1. unfold lift at 1.
      destruct (Hf1 Hin) as (a' & n' & -> & _). simpl.
      unfold bind, logPrintf, modify, get, ret. simpl.
      rewrite Hfirst. rewrite decide_False by (intros Hx; by apply Hx).
      unfold exchanged. simpl. by rewrite <- app_assoc.
    + rewrite (Hn1 Hnin). simpl.
      unfold bind at 1. unfold lift at 1. rewrite (Hn1 Hnin). simpl.
      unfold bind, logPrintf, modify, get, ret. simpl.
      rewrite Hfirst. rewrite decide_False by (intros Hx; by apply Hx).
      unfold exchanged. simpl. by rewrite <- app_assoc.
  - intros Hdiff Hin1 Hin2.
    destruct (Hf1 Hin1) as (a0 & n0 & Hrun0 & _ & Ha0 & Hp0).
    destruct (Hf2 Hin2) as (a1 & n1 & Hrun1 & _ & Ha1 & Hp1).
    assert (a0 ≠ a1) as Hneq.
    { intros ->. rewrite Ha0 in Ha1. injection Ha1 as ->. congruence. }
    exists a0, a1, n0, n1. repeat (split; [done|]).
    unfold wmDrawPanes_pick, bind at 1, get at 1. rewrite Harmed.
    rewrite Hsplit. simpl.
    unfold bind at 1. unfold bind at 1. unfold bind at 1. unfold get at 1.
    rewrite Hfirst. simpl.
    unfold bind at 1. unfold lift at 1. rewrite Hfirst, Hrun0. simpl.
    unfold bind at 1. unfold lift at 1. rewrite Hrun1. simpl.
    unfold bind, logPrintf, modify, get, ret, load, lift, store. simpl.
    rewrite Hfirst. rewrite decide_True by congruence.
    world_simpl.
    rewrite Ha1. simpl. rewrite Ha0. simpl. rewrite ?Ha0. simpl.
    rewrite lookup_insert_ne by done. rewrite Ha1. simpl.
    rewrite Hp0, Hp1. unfold exchanged. simpl. by rewrite <- app_assoc.
Qed.

End Exchange.

Lemma Exchange_second_click_witness :
  handlePanePick Examples.world_armed = Some (ButtonPick ExchangePick)
  ∧ paneFirstPick Examples.world_armed = Some Examples.radar
  ∧ is_SplitLine (Some Examples.strips) = false
  ∧ repr (nodes Examples.world_armed) (DisplayRoot Examples.world_armed)
      Examples.tree_two
  ∧ Examples.tree_two ≠ Nil
  ∧ binary Examples.tree_two
  ∧ (depth Examples.tree_two ≤ 2)%nat
  ∧ (∃ a0 a1 n0 n1,
       a0 ≠ a1
       ∧ nodes Examples.world_armed !! a0 = Some n0
       ∧ node_Pane n0 = Some Examples.radar
       ∧ nodes Examples.world_armed !! a1 = Some n1
       ∧ node_Pane n1 = Some Examples.strips
       ∧ wmDrawPanes_pick 2 true (Some Examples.strips) Examples.world_armed
         = Ok (tt, exchanged
                     (<[a1 := with_Pane (Some Examples.radar) n1]>
                        (<[a0 := with_Pane (Some Examples.strips) n0]>
                           (nodes Examples.world_armed)))
                     Examples.world_armed)).
Proof.
  assert (repr (nodes Examples.world_armed) (DisplayRoot Examples.world_armed)
            Examples.tree_two) as Hrepr by tree_facts.
  assert (binary Examples.tree_two) as Hbin by tree_facts.
  assert (depth Examples.tree_two ≤ 2)%nat as Hfuel by (simpl; lia).
  assert (Examples.tree_two ≠ Nil) as Hne by discriminate.
  repeat (split; [first [reflexivity | assumption]|]).
  assert (Examples.strips ≠ Examples.radar) as Hdiff by discriminate.
  assert (Some Examples.radar ∈ slots Examples.tree_two) as Hin1
    by (simpl; set_solver).
  assert (Some Examples.strips ∈ slots Examples.tree_two) as Hin2
    by (simpl; set_solver).
  exact (proj2 (Exchange_second_click Examples.world_armed Examples.tree_two
                  Examples.radar Examples.strips 2 eq_refl eq_refl eq_refl
                  Hrepr Hne Hbin Hfuel) Hdiff Hin1 Hin2).
Defined.

(** ** Split and Delete *)

Lemma wf_pane_leaf (h : NodeStore) (t : Tree) : ∀ d a n,
  repr h d t → wf t → a ∈ addrs t → h !! a = Some n → node_Pane n ≠ None →
  Axis (node_SplitLine n) = SplitAxisNone ∧ node_Children n = (None, None).
Proof.
  induction t as [|b nb l IHl r IHr]; simpl; [done|].
  intros d a n (-> & Hb & Hl & Hr) Hwf Hin Ha Hpane.
  destruct Hwf as [(Hax & _ & -> & ->) | (_ & Hnone & Hwl & Hwr)].
  - assert (a = b) as -> by set_solver.
    rewrite Hb in Ha. injection Ha as <-. split; [done|].
    simpl in Hl, Hr. unfold Children0, Children1 in *.
    destruct (node_Children nb). simpl in *. by subst.
  - apply elem_of_cons in Hin as [->|Hin].
    + rewrite Hb in Ha. injection Ha as <-. done.
    + apply elem_of_app in Hin as [Hin|Hin]; eauto.
Qed.

Lemma reset_pos_addrs a t : addrs (reset_pos a t) = addrs t.
Proof. induction t; simpl; congruence. Qed.

Lemma reset_pos_slots a t : slots (reset_pos a t) = slots t.
Proof.
  induction t as [|b n l IHl r IHr]; simpl; [done|].
  rewrite IHl, IHr. by case_decide.
Qed.

Lemma reset_pos_traversal a t : traversal (reset_pos a t) = traversal t.
Proof.
  induction t as [|b n l IHl r IHr]; simpl; [done|].
  rewrite IHl, IHr. by destruct (decide (b = a)).
Qed.

Lemma reset_pos_wf a t : wf t → wf (reset_pos a t).
Proof.
  induction t as [|b n l IHl r IHr]; simpl; [done|].
  intros [(? & ? & -> & ->) | (? & ? & ? & ?)].
  - left. by case_decide.
  - right. case_decide; simpl; auto.
Qed.

(** A store that holds the nodes of [t], but for a new position at [a],
    holds [reset_pos a t]. *)
Lemma reset_pos_repr (h h' : NodeStore) (a : loc) (t : Tree) : ∀ d,
  repr h d t →
  (∀ b n, b ∈ addrs t → h !! b = Some n →
          h' !! b = Some (if decide (b = a) then with_Pos float32_zero n else n)) →
  repr h' d (reset_pos a t).
Proof.
  induction t as [|b n l IHl r IHr]; simpl; [done|].
  intros d (-> & Hb & Hl & Hr) Hag. split; [done|].
  split; [apply Hag; [set_solver|done]|].
  split.
  - replace (Children0 (if decide (b = a) then with_Pos float32_zero n else n))
      with (Children0 n) by by case_decide.
    apply IHl; [done|]. intros; apply Hag; [set_solver|done].
  - replace (Children1 (if decide (b = a) then with_Pos float32_zero n else n))
      with (Children1 n) by by case_decide.
    apply IHr; [done|]. intros; apply Hag; [set_solver|done].
Qed.

Lemma child_holds_other (h hS : NodeStore) (t : Tree) (d : option loc)
    (a : loc) (nS : DisplayNode) (N : Pane) :
  repr h d t →
  (∀ b, b ∈ addrs t → b ≠ a → hS !! b = h !! b) →
  hS !! a = Some nS → node_Pane nS ≠ N → N ∉ slots t →
  child_holds hS d N = Ok false.
Proof.
  destruct t as [|b nb l r]; simpl; [by intros ->|].
  intros (-> & Hb & _ & _) Hag Ha HnS Hnin. simpl.
  destruct (decide (b = a)) as [->|Hne].
  - rewrite Ha. simpl. by rewrite bool_decide_false.
  - rewrite Hag by set_solver. rewrite Hb. simpl.
    rewrite bool_decide_false; [done|]. set_solver.
Qed.

(** After a split of the node at [a], the parent of the new pane [N] is
    [a], with [N] in its first child. *)
Lemma ParentNodeForPane_after_split (h hS : NodeStore) (a c0 : loc)
    (nS n0 : DisplayNode) (N : Pane) (t : Tree) :
  hS !! a = Some nS → node_Pane nS ≠ N →
  Children0 nS = Some c0 → hS !! c0 = Some n0 → node_Pane n0 = N →
  ∀ d fuel,
    repr h d t →
    (∀ b, b ∈ addrs t → b ≠ a → hS !! b = h !! b) →
    N ∉ slots t → (depth t < fuel)%nat →
    ParentNodeForPane fuel hS d N
    = Ok (if decide (a ∈ addrs t) then (Some a, 0) else (None, -1)).
Proof.
  intros Ha HnS Hc0 Hn0 HN.
  induction t as [|b nb l IHl r IHr]; intros d fuel Hrepr Hag Hnin Hfuel.
  { simpl in Hrepr. subst d. destruct fuel; [simpl in Hfuel; lia|done]. }
  destruct Hrepr as (-> & Hb & Hl & Hr).
  destruct fuel as [|fuel]; simpl in Hfuel; [lia|].
  simpl ParentNodeForPane.
  destruct (decide (b = a)) as [->|Hne].
  - rewrite Ha. simpl. rewrite Hc0. simpl. rewrite Hn0. simpl.
    rewrite bool_decide_true by done. simpl.
    rewrite decide_True by set_solver. done.
  - rewrite Hag by set_solver. rewrite Hb. simpl.
    rewrite (child_holds_other h hS l _ a nS N Hl); try done;
      [|intros; apply Hag; set_solver|set_solver].
    simpl.
    rewrite (child_holds_other h hS r _ a nS N Hr); try done;
      [|intros; apply Hag; set_solver|set_solver].
    simpl.
    rewrite (IHl _ fuel Hl); [|intros; apply Hag; set_solver|set_solver|lia].
    simpl.
    destruct (decide (a ∈ addrs l)) as [Hinl|Hninl]; simpl.
    + rewrite decide_True by set_solver. done.
    + rewrite (IHr _ fuel Hr); [|intros; apply Hag; set_solver|set_solver|lia].
      destruct (decide (a ∈ addrs r)) as [Hinr|Hninr].
      * rewrite decide_True by set_solver. done.
      * rewrite decide_False by set_solver. done.
Qed.

Section SplitDelete.

Context {St : Type} `{!PaneImpl St}.

Lemma SplitPick_run (w : World St) (a : loc) (n : DisplayNode) (P : Pane)
    (axis : SplitType) (fuel : nat) :
  NodeForPane fuel (nodes w) (DisplayRoot w) P = Ok (Some a) →
  nodes w !! a = Some n →
  ∃ (e c0 c1 : loc) (w1 : World St),
    panes w !! e = None ∧ nodes w !! c0 = None ∧ nodes w !! c1 = None ∧ c0 ≠ c1
    ∧ callPick fuel (SplitPick axis) P w = Ok (true, w1)
    ∧ nodes w1 !! a
      = Some (mkDisplayNode None (mkSplitLine float32_half axis) (Some c0, Some c1))
    ∧ nodes w1 !! c0
      = Some (mkDisplayNode (Some (PanePtr EmptyPane e)) SplitLine_zero (None, None))
    ∧ nodes w1 !! c1 = Some (mkDisplayNode P SplitLine_zero (None, None))
    ∧ (∀ b, is_Some (nodes w !! b) → b ≠ a → nodes w1 !! b = nodes w !! b)
    ∧ DisplayRoot w1 = DisplayRoot w
    ∧ panes w1 = <[e := pane_zero EmptyPane]> (panes w).
Proof.
  intros Hrun Ha.
  unfold callPick, bind, lift, logPrintf, modify, alloc_pane, alloc_node, store, ret.
  world_simpl. rewrite Hrun. simpl.
  set (e := fresh (dom (panes w))).
  set (c0 := fresh (dom (nodes w))).
  assert (nodes w !! c0 = None) as Hc0 by apply not_elem_of_dom, is_fresh.
  assert (c0 ≠ a) as Hc0a by congruence.
  rewrite lookup_insert_ne by done. rewrite Ha. simpl.
  set (h2 := <[a:=with_Children0 (Some c0) n]> (<[c0:=_]> (nodes w))).
  set (c1 := fresh (dom h2)).
  assert (h2 !! c1 = None) as Hc1 by apply not_elem_of_dom, is_fresh.
  assert (c1 ≠ a) as Hc1a.
  { intros ->. unfold h2 in Hc1. by rewrite lookup_insert_eq in Hc1. }
  assert (c1 ≠ c0) as Hc1c0.
  { intros Heq. unfold h2 in Hc1. rewrite lookup_insert_ne in Hc1 by done.
    rewrite Heq in Hc1. by rewrite lookup_insert_eq in Hc1. }
  rewrite lookup_insert_ne by done. unfold h2 at 1. rewrite lookup_insert_eq. simpl.
  repeat (rewrite lookup_insert_eq; simpl).
  assert (nodes w !! c1 = None) as Hc1w.
  { unfold h2 in Hc1. by rewrite !lookup_insert_ne in Hc1 by done. }
  exists e, c0, c1. eexists.
  split; [apply not_elem_of_dom, is_fresh|].
  do 3 (split; [done|]).
  split; [reflexivity|]. simpl.
  split; [by rewrite lookup_insert_eq|].
  split.
  { rewrite !(lookup_insert_ne _ a c0) by done.
    rewrite lookup_insert_ne by done. unfold h2.
    rewrite lookup_insert_ne by done. by rewrite lookup_insert_eq. }
  split.
  { rewrite !(lookup_insert_ne _ a c1) by done. by rewrite lookup_insert_eq. }
  split; [|done].
  intros b [nb Hb] Hba.
  assert (b ≠ c0) by congruence. assert (b ≠ c1) by congruence.
  rewrite !(lookup_insert_ne _ a b) by done.
  rewrite lookup_insert_ne by done. unfold h2.
  rewrite lookup_insert_ne by done. by rewrite lookup_insert_ne by done.
Qed.

Lemma DeletePick_run (w : World St) (a c : loc) (n cn : DisplayNode) (N : Pane)
    (fuel : nat) :
  ParentNodeForPane fuel (nodes w) (DisplayRoot w) N = Ok (Some a, 0) →
  nodes w !! a = Some n → Children1 n = Some c → nodes w !! c = Some cn →
  ∃ w2, callPick fuel DeletePick N w = Ok (true, w2)
        ∧ nodes w2 = <[a := cn]> (nodes w)
        ∧ DisplayRoot w2 = DisplayRoot w.
Proof.
  intros Hrun Ha Hc Hcn.
  unfold callPick, bind, load, lift, logPrintf, modify, store, ret.
  world_simpl. rewrite Hrun. simpl. rewrite Ha. simpl.
  rewrite Hc. simpl. rewrite Hcn. simpl. rewrite Ha.
  eexists. split; [reflexivity|]. done.
Qed.

(** C4. On a well-formed tree whose panes are alive, with [P] in some
    leaf: the split of [P] rewrites the node [a] that holds it into a
    split node over a new empty pane [N] and a new leaf for [P]; the
    delete of [N] that follows writes that leaf over [a].  Afterwards the
    root is the same, every other node of the tree is as it was, and [a]
    is again the leaf of [P], with its position reset to zero: the tree
    is well-formed and has the same nodes, the same panes in the same
    nodes and the same traversal as before the split. *)
Theorem Split_then_Delete_restores (w : World St) (t : Tree) (P : PaneRef)
    (axis : SplitType) (fuel : nat) :
  repr (nodes w) (DisplayRoot w) t → wf t → closed w t →
  Some P ∈ slots t → (depth t < fuel)%nat →
  ∃ (a : loc) (n : DisplayNode) (c0 c1 : loc) (N : PaneRef) (w1 w2 : World St),
    a ∈ addrs t ∧ nodes w !! a = Some n ∧ node_Pane n = Some P
    ∧ callPick fuel (SplitPick axis) (Some P) w = Ok (true, w1)
    ∧ nodes w1 !! a
      = Some (mkDisplayNode None (mkSplitLine float32_half axis) (Some c0, Some c1))
    ∧ nodes w1 !! c0 = Some (mkDisplayNode (Some N) SplitLine_zero (None, None))
    ∧ nodes w1 !! c1 = Some (mkDisplayNode (Some P) SplitLine_zero (None, None))
    ∧ (Some N ∉ slots t)
    ∧ callPick fuel DeletePick (Some N) w1 = Ok (true, w2)
    ∧ DisplayRoot w2 = DisplayRoot w
    ∧ nodes w2 !! a = Some (with_Pos float32_zero n)
    ∧ (∀ b, b ∈ addrs t → b ≠ a → nodes w2 !! b = nodes w !! b)
    ∧ repr (nodes w2) (DisplayRoot w2) (reset_pos a t)
    ∧ wf (reset_pos a t)
    ∧ addrs (reset_pos a t) = addrs t
    ∧ slots (reset_pos a t) = slots t
    ∧ traversal (reset_pos a t) = traversal t.
Proof.
  intros Hrepr Hwf Hcl Hin Hfuel.
  pose proof (wf_binary t Hwf) as Hbin.
  pose proof (wf_not_Nil t Hwf) as Hne.
  destruct (NodeForPane_tree _ _ _ (Some P) fuel Hrepr Hne Hbin ltac:(lia))
    as [Hfound _].
  destruct (Hfound Hin) as (a & n & Hrun & Hat & Ha & Hp).
  destruct (SplitPick_run w a n (Some P) axis fuel Hrun Ha)
    as (e & c0 & c1 & w1 & He & Hc0 & Hc1 & Hc01 & Hsplit & Hw1a & Hw1c0 & Hw1c1
        & Hw1b & Hroot1 & Hpanes1).
  set (N := PanePtr EmptyPane e).
  assert (Some N ∉ slots t) as HN.
  { intros HinN. destruct (Hcl _ HinN) as [st Hst]. congruence. }
  assert (∀ b, b ∈ addrs t → b ≠ a → nodes w1 !! b = nodes w !! b) as Hag.
  { intros b Hb Hba. apply Hw1b; [|done]. by eapply repr_addrs_dom. }
  assert (ParentNodeForPane fuel (nodes w1) (DisplayRoot w1) (Some N) = Ok (Some a, 0))
    as Hparent.
  { rewrite Hroot1.
    rewrite (ParentNodeForPane_after_split (nodes w) (nodes w1) a c0 _ _ (Some N) t
               Hw1a ltac:(done) eq_refl Hw1c0 eq_refl _ fuel Hrepr Hag HN Hfuel).
    by rewrite decide_True. }
  destruct (DeletePick_run w1 a c1 _ _ (Some N) fuel Hparent Hw1a eq_refl Hw1c1)
    as (w2 & Hdelete & Hnodes2 & Hroot2).
  destruct (wf_pane_leaf _ _ _ a n Hrepr Hwf Hat Ha ltac:(by rewrite Hp))
    as [Hax Hch].
  assert (nodes w2 !! a = Some (with_Pos float32_zero n)) as Hw2a.
  { rewrite Hnodes2, lookup_insert_eq. f_equal.
    destruct n as [p [pos ax] ch]. simpl in *. by subst. }
  assert (∀ b, b ∈ addrs t → b ≠ a → nodes w2 !! b = nodes w !! b) as Hag2.
  { intros b Hb Hba. rewrite Hnodes2, lookup_insert_ne by done. by apply Hag. }
  exists a, n, c0, c1, N, w1, w2.
  repeat (split; [done|]).
  split; [by rewrite Hroot2|].
  repeat (split; [done|]).
  split.
  { rewrite Hroot2, Hroot1. apply (reset_pos_repr (nodes w)); [done|].
    intros b nb Hb Hnb. destruct (decide (b = a)) as [->|Hba].
    - rewrite Hw2a. congruence.
    - rewrite Hag2 by done. done. }
  split; [by apply reset_pos_wf|].
  by rewrite reset_pos_addrs, reset_pos_slots, reset_pos_traversal.
Qed.

End SplitDelete.

Lemma Split_then_Delete_restores_witness :
  repr (nodes Examples.world_two) (DisplayRoot Examples.world_two) Examples.tree_two
  ∧ wf Examples.tree_two
  ∧ closed Examples.world_two Examples.tree_two
  ∧ Some Examples.radar ∈ slots Examples.tree_two
  ∧ (depth Examples.tree_two < 3)%nat
  ∧ ∃ (a : loc) (N : PaneRef) (w1 w2 : World Examples.SimplePane),
      callPick 3 (SplitPick SplitAxisY) (Some Examples.radar) Examples.world_two
        = Ok (true, w1)
      ∧ callPick 3 DeletePick (Some N) w1 = Ok (true, w2)
      ∧ repr (nodes w2) (DisplayRoot w2) (reset_pos a Examples.tree_two)
      ∧ traversal (reset_pos a Examples.tree_two) = traversal Examples.tree_two.
Proof.
  assert (repr (nodes Examples.world_two) (DisplayRoot Examples.world_two)
            Examples.tree_two) as Hrepr by tree_facts.
  assert (wf Examples.tree_two) as Hwf.
  { simpl. right. split; [by left|]. split; [done|]. split; left; by repeat split. }
  assert (closed Examples.world_two Examples.tree_two) as Hcl by closed_facts.
  assert (Some Examples.radar ∈ slots Examples.tree_two) as Hin
    by (simpl; set_solver).
  assert (depth Examples.tree_two < 3)%nat as Hfuel by (simpl; lia).
  do 5 (split; [assumption|]).
  destruct (Split_then_Delete_restores Examples.world_two Examples.tree_two
              Examples.radar SplitAxisY 3 Hrepr Hwf Hcl Hin Hfuel)
    as (a & n & c0 & c1 & N & w1 & w2 & _ & _ & _ & Hsplit & _ & _ & _ & _ & Hdelete
        & _ & _ & _ & Hrepr2 & _ & _ & _ & Htr).
  by exists a, N, w1, w2.
Defined.

(** ** Duplicate *)

Lemma traversal_wf_addrs (t : Tree) (p : Pane) :
  wf t → p ∈ traversal t →
  (∃ a, a ∈ addrs t ∧ p = Some (SplitLinePtr a)) ∨ (p ≠ None ∧ p ∈ slots t).
Proof.
  induction t as [|a n l IHl r IHr]; simpl; [done|].
  intros [(Hax & Hp & -> & ->) | (Hax & Hp & Hl & Hr)].
  - rewrite decide_True by done. intros ->%list_elem_of_singleton.
    right. split; [done|]. set_solver.
  - rewrite decide_False by (unfold SplitAxisNone, SplitAxisX, SplitAxisY in *; lia).
    intros [Hin|Hin]%elem_of_app.
    + destruct (IHl Hl Hin) as [(b & ? & ?)|[? ?]]; [left; exists b|right]; set_solver.
    + apply elem_of_cons in Hin as [->|Hin]; [left; exists a; set_solver|].
      destruct (IHr Hr Hin) as [(b & ? & ?)|[? ?]]; [left; exists b|right]; set_solver.
Qed.

Section Duplicate.

Context {St : Type} `{!PaneImpl St}.

Lemma extends_refl (w : World St) : extends w w.
Proof. by repeat split. Qed.

Lemma extends_trans (w1 w2 w3 : World St) :
  extends w1 w2 → extends w2 w3 → extends w1 w3.
Proof.
  intros (? & ? & ?) (? & ? & ?). repeat split; by etrans.
Qed.

Lemma alive_extends (w w' : World St) (p : Pane) :
  extends w w' → alive w p → alive w' p.
Proof.
  intros (Hn & Hp & Hs). destruct p as [[ty a|a|a]|]; simpl; [| | |done];
    intros [x Hx]; exists x; eauto using lookup_weaken.
Qed.

Lemma closed_extends (w w' : World St) (t : Tree) :
  extends w w' → closed w t → closed w' t.
Proof. intros Hext Hcl p Hp. eapply alive_extends; eauto. Qed.

Lemma Name_panes (w w' : World St) (p : Pane) (s : string) :
  panes w ⊆ panes w' → Name p w = Ok s → Name p w' = Ok s.
Proof.
  intros Hp. destruct p as [[ty a|a|a]|]; simpl; try done.
  destruct (panes w !! a) as [st|] eqn:Hst; [|done].
  by rewrite (lookup_weaken _ _ _ _ Hst Hp).
Qed.

Lemma pane_names_panes (w w' : World St) (l : list Pane) (ns : list string) :
  panes w ⊆ panes w' → pane_names w l = Ok ns → pane_names w' l = Ok ns.
Proof.
  intros Hext. revert ns. induction l as [|p l IH]; intros ns; simpl; [done|].
  destruct (Name p w) as [s| |] eqn:Hs; simpl; try done.
  rewrite (Name_panes w w' p s Hext Hs). simpl.
  destruct (pane_names w l) as [ns'| |]; simpl; try done.
  by rewrite (IH ns' eq_refl).
Qed.

Lemma unused_extends (w w' : World St) (p : Pane) :
  extends w w' → unused w' p → unused w p.
Proof.
  intros (_ & Hp & Hs). destruct p as [[ty a|a|a]|]; simpl; try done; intros Hnone.
  - destruct (panes w !! a) as [x|] eqn:Hx; [|done].
    by rewrite (lookup_weaken _ _ _ _ Hx Hp) in Hnone.
  - destruct (splitLines w !! a) as [x|] eqn:Hx; [|done].
    by rewrite (lookup_weaken _ _ _ _ Hx Hs) in Hnone.
Qed.

Lemma fresh_extends (w w' : World St) (a : loc) :
  extends w w' → nodes w' !! a = None → nodes w !! a = None.
Proof.
  intros (Hn & _) Hnone.
  destruct (nodes w !! a) as [x|] eqn:Hx; [|done].
  by rewrite (lookup_weaken _ _ _ _ Hx Hn) in Hnone.
Qed.

Lemma pane_names_app (w : World St) (l1 l2 : list Pane) (n1 n2 : list string) :
  pane_names w l1 = Ok n1 → pane_names w l2 = Ok n2 →
  pane_names w (l1 ++ l2) = Ok (n1 ++ n2)%list.
Proof.
  revert n1. induction l1 as [|p l1 IH]; intros n1; simpl.
  - by intros [= <-].
  - destruct (Name p w) as [s| |]; simpl; try done.
    destruct (pane_names w l1) as [ns| |]; simpl; try done.
    intros [= <-] H2. by rewrite (IH ns eq_refl H2).
Qed.

(** The panes of a well-formed tree that is closed have names. *)
Lemma pane_names_defined (w : World St) (t : Tree) :
  wf t → closed w t → ∃ ns, pane_names w (traversal t) = Ok ns.
Proof.
  induction t as [|a n l IHl r IHr]; simpl; [done|].
  intros [(Hax & Hp & -> & ->) | (Hax & Hp & Hwl & Hwr)] Hcl.
  - rewrite decide_True by done. simpl.
    pose proof (Hcl (node_Pane n) ltac:(simpl; set_solver)) as Halive.
    destruct (node_Pane n) as [[ty x|x|x]|]; simpl in *; try done; try by eexists.
    destruct Halive as [st ->]. by eexists.
  - rewrite decide_False by (unfold SplitAxisNone, SplitAxisX, SplitAxisY in *; lia).
    destruct (IHl Hwl) as [nl Hnl]. { intros p Hin. apply Hcl. simpl. set_solver. }
    destruct (IHr Hwr) as [nr Hnr]. { intros p Hin. apply Hcl. simpl. set_solver. }
    exists (nl ++ "Split Line" :: nr)%list.
    apply pane_names_app; [done|]. simpl. by rewrite Hnr.
Qed.

(** The duplicate of a pane that is alive: a new pane value, unknown to
    the world before, with the name of the original when the pane type's
    own [Duplicate] keeps the name. *)
Lemma Pane_Duplicate_spec (w : World St) (p : Pane) :
  (∀ ty st, pane_Name ty (pane_Duplicate ty st false) = pane_Name ty st) →
  p ≠ None → alive w p →
  ∃ p' w' s,
    Pane_Duplicate p false w = Ok (p', w')
    ∧ nodes w' = nodes w ∧ extends w w'
    ∧ p' ≠ None ∧ unused w p' ∧ alive w' p'
    ∧ Name p w = Ok s ∧ Name p' w' = Ok s.
Proof.
  intros Hname Hp Halive.
  destruct p as [[ty a|a|a]|]; [| | |done].
  - destruct Halive as [st Hst].
    exists (Some (PanePtr ty (fresh (dom (panes w))))).
    eexists. exists (pane_Name ty st).
    unfold Pane_Duplicate, bind, get, alloc_pane, ret. rewrite Hst.
    split; [reflexivity|]. simpl.
    assert (panes w !! fresh (dom (panes w)) = None) as Hfresh
      by apply not_elem_of_dom, is_fresh.
    split; [done|]. split.
    { repeat split; [done| |done]. by apply insert_subseteq. }
    split; [done|]. split; [done|].
    rewrite lookup_insert_eq. split; [by eexists|].
    rewrite Hst. by rewrite Hname.
  - exists (Some (SplitLineObj (fresh (dom (splitLines w))))).
    eexists. exists "Split Line".
    unfold Pane_Duplicate, SplitLine_Duplicate, bind, logErrorf, modify,
      alloc_splitLine, ret.
    split; [reflexivity|]. simpl.
    assert (splitLines w !! fresh (dom (splitLines w)) = None) as Hfresh
      by apply not_elem_of_dom, is_fresh.
    split; [done|]. split.
    { repeat split; [done|done|]. by apply insert_subseteq. }
    rewrite lookup_insert_eq. by repeat split.
  - exists (Some (SplitLineObj (fresh (dom (splitLines w))))).
    eexists. exists "Split Line".
    unfold Pane_Duplicate, SplitLine_Duplicate, bind, logErrorf, modify,
      alloc_splitLine, ret.
    split; [reflexivity|]. simpl.
    assert (splitLines w !! fresh (dom (splitLines w)) = None) as Hfresh
      by apply not_elem_of_dom, is_fresh.
    split; [done|]. split.
    { repeat split; [done|done|]. by apply insert_subseteq. }
    rewrite lookup_insert_eq. by repeat split.
Qed.

Lemma bind_ok {A B : Type} (m : M (St:=St) A) (k : A → M (St:=St) B)
    (w w' : World St) (a : A) :
  m w = Ok (a, w') → bind m k w = k a w'.
Proof. unfold bind. by intros ->. Qed.

Lemma load_ok (w : World St) (a : loc) (n : DisplayNode) :
  nodes w !! a = Some n → load (Some a) w = Ok (n, w).
Proof. unfold load, lift. simpl. by intros ->. Qed.

Lemma store_ok (w : World St) (a : loc) (n : DisplayNode)
    (f : DisplayNode → DisplayNode) :
  nodes w !! a = Some n →
  store (Some a) f w = Ok (tt, set_nodes (<[a := f n]> (nodes w)) w).
Proof. unfold store. by intros ->. Qed.

(** Writing to a node that the first world does not have keeps the
    second world an extension of it. *)
Lemma extends_set_nodes (w w' : World St) (a : loc) (n : DisplayNode) :
  extends w w' → nodes w !! a = None →
  extends w (set_nodes (<[a := n]> (nodes w')) w').
Proof.
  intros (Hn & Hp & Hs) Ha. repeat split; try done. simpl.
  apply map_subseteq_spec. intros b x Hb.
  rewrite lookup_insert_ne by congruence. by eapply lookup_weaken.
Qed.

Lemma Duplicate_tree (t : Tree) :
  (∀ ty st, pane_Name ty (pane_Duplicate ty st false) = pane_Name ty st) →
  ∀ (d : loc) (fuel : nat) (w : World St),
    repr (nodes w) (Some d) t → wf t → closed w t → (depth t ≤ fuel)%nat →
    ∃ d' t' w',
      DisplayNode_Duplicate fuel (Some d) w = Ok (Some d', w')
      ∧ repr (nodes w') (Some d') t'
      ∧ duplicate_of w w' t t'.
Proof.
  intros Hname. induction t as [|a n l IHl r IHr]; [done|].
  intros d fuel w ([= ->] & Ha & Hl & Hr) Hwf Hcl Hfuel.
  destruct fuel as [|fuel]; simpl in Hfuel; [lia|].
  simpl DisplayNode_Duplicate.
  set (a' := fresh (dom (nodes w))).
  assert (nodes w !! a' = None) as Ha' by apply not_elem_of_dom, is_fresh.
  assert (a' ≠ a) as Ha'a by congruence.
  set (w0 := set_nodes (<[a' := DisplayNode_zero]> (nodes w)) w).
  assert (extends w w0) as Hext0
    by (apply (extends_set_nodes w w); [apply extends_refl|done]).
  rewrite (bind_ok (alloc_node DisplayNode_zero) _ w w0 a' eq_refl).
  assert (nodes w0 !! a = Some n) as Ha0.
  { unfold w0. simpl. by rewrite lookup_insert_ne. }
  rewrite (bind_ok _ _ _ _ _ (load_ok w0 a n Ha0)).
  destruct Hwf as [(Hax & Hp & -> & ->) | (Hax & Hp & Hwl & Hwr)].
  - (* a leaf *)
    destruct (Pane_Duplicate_spec w0 (node_Pane n) Hname Hp)
      as (p' & w1 & s & Hdup & Hnodes1 & Hext1 & Hp' & Hunused & Halive & Hs & Hs').
    { eapply alive_extends; [done|]. apply Hcl. simpl. set_solver. }
    rewrite decide_True by done.
    assert (nodes w1 !! a' = Some DisplayNode_zero) as Ha'1.
    { rewrite Hnodes1. unfold w0. simpl. by rewrite lookup_insert_eq. }
    set (w2 := set_nodes (<[a' := with_Pane p' DisplayNode_zero]> (nodes w1)) w1).
    assert ((p <~ Pane_Duplicate (node_Pane n) false ;; store (Some a') (with_Pane p)) w0
            = Ok (tt, w2)) as Hstep.
    { rewrite (bind_ok _ _ _ _ _ Hdup). by rewrite (store_ok w1 a' _ _ Ha'1). }
    rewrite (bind_ok _ _ _ _ _ Hstep).
    assert (nodes w2 !! a = Some n) as Ha2.
    { unfold w2. simpl. rewrite lookup_insert_ne by done. by rewrite Hnodes1. }
    rewrite (bind_ok _ _ _ _ _ (load_ok w2 a n Ha2)).
    assert (nodes w2 !! a' = Some (with_Pane p' DisplayNode_zero)) as Ha'2.
    { unfold w2. simpl. by rewrite lookup_insert_eq. }
    rewrite (bind_ok _ _ _ _ _ (store_ok w2 a' _ _ Ha'2)).
    set (n' := with_SplitLine (node_SplitLine n) (with_Pane p' DisplayNode_zero)).
    set (w3 := set_nodes (<[a' := n']> (nodes w2)) w2).
    assert (nodes w3 !! a = Some n) as Ha3.
    { unfold w3. simpl. by rewrite lookup_insert_ne. }
    rewrite (bind_ok _ _ _ _ _ (load_ok w3 a n Ha3)).
    rewrite decide_False by (intros Hx; by apply Hx).
    unfold bind at 1, ret at 1. unfold ret.
    exists a', (Node a' n' Nil Nil), w3.
    split; [done|].
    assert (extends w w1) as Hext01 by (by eapply extends_trans).
    assert (extends w w3) as Hext3.
    { apply extends_set_nodes; [|done].
      apply (extends_set_nodes w w1); done. }
    split.
    { simpl. split; [done|]. split; [|done].
      unfold w3. simpl. by rewrite lookup_insert_eq. }
    split; [done|].
    split. { simpl. left. by repeat split. }
    split. { intros b Hb. simpl in Hb. by apply list_elem_of_singleton in Hb as ->. }
    split.
    { intros p Hin. simpl in Hin. apply list_elem_of_singleton in Hin as ->.
      destruct p' as [[ty x|x|x]|]; simpl in *; try done. }
    exists [s]. simpl.
    rewrite !decide_True by done. simpl.
    change (Name (node_Pane n) w) with (Name (node_Pane n) w0).
    change (Name p' w3) with (Name p' w1).
    by rewrite Hs, Hs'.
  - (* a split node *)
    assert (Axis (node_SplitLine n) ≠ SplitAxisNone) as Hax'
      by (unfold SplitAxisNone, SplitAxisX, SplitAxisY in *; lia).
    rewrite decide_False by (intros Hx; by apply Hx).
    rewrite (bind_ok (ret tt) _ w0 w0 tt eq_refl).
    rewrite (bind_ok _ _ _ _ _ (load_ok w0 a n Ha0)).
    assert (nodes w0 !! a' = Some DisplayNode_zero) as Ha'0.
    { unfold w0. simpl. by rewrite lookup_insert_eq. }
    rewrite (bind_ok _ _ _ _ _ (store_ok w0 a' _ _ Ha'0)).
    set (n1 := with_SplitLine (node_SplitLine n) DisplayNode_zero).
    set (w1 := set_nodes (<[a' := n1]> (nodes w0)) w0).
    assert (extends w w1) as Hext1 by (by apply (extends_set_nodes w w0)).
    assert (nodes w1 !! a = Some n) as Ha1.
    { unfold w1. simpl. by rewrite lookup_insert_ne. }
    assert (nodes w1 !! a' = Some n1) as Ha'1.
    { unfold w1. simpl. by rewrite lookup_insert_eq. }
    rewrite (bind_ok _ _ _ _ _ (load_ok w1 a n Ha1)).
    rewrite decide_True by done.
    (* the left child *)
    destruct l as [|cl nl ll lr]; [done|].
    destruct r as [|cr nr rl rr]; [done|].
    assert (Children0 n = Some cl) as Hcl0 by (by destruct Hl).
    assert (Children1 n = Some cr) as Hcr1 by (by destruct Hr).
    rewrite Hcl0 in Hl. rewrite Hcr1 in Hr.
    assert (closed w (Node cl nl ll lr)) as Hcll.
    { intros p Hin. apply Hcl. simpl in *. set_solver. }
    assert (closed w (Node cr nr rl rr)) as Hclr.
    { intros p Hin. apply Hcl. simpl in *. set_solver. }
    destruct (IHl cl fuel w1) as (c0 & l' & w2 & Hrun0 & Hrepr0 & Hdup0).
    { eapply repr_weaken; [done|]. apply Hext1. }
    { done. }
    { by eapply closed_extends. }
    { lia. }
    destruct Hdup0 as (Hext12 & Hwfl' & Hfreshl & Hunusedl & nsl & Hnl & Hnl').
    assert (nodes w2 !! a' = Some n1) as Ha'2.
    { eapply lookup_weaken; [done|]. apply Hext12. }
    assert (nodes w2 !! a = Some n) as Ha2.
    { eapply lookup_weaken; [done|]. apply Hext12. }
    set (n3 := with_Children0 (Some c0) n1).
    set (w3 := set_nodes (<[a' := n3]> (nodes w2)) w2).
    assert (extends w w2) as Hext2 by (by eapply extends_trans).
    assert (extends w w3) as Hext3 by (by apply (extends_set_nodes w w2)).
    assert (nodes w3 !! a = Some n) as Ha3.
    { unfold w3. simpl. by rewrite lookup_insert_ne. }
    assert (nodes w3 !! a' = Some n3) as Ha'3.
    { unfold w3. simpl. by rewrite lookup_insert_eq. }
    (* the right child *)
    destruct (IHr cr fuel w3) as (c1 & r' & w4 & Hrun1 & Hrepr1 & Hdup1).
    { eapply repr_weaken; [done|]. apply Hext3. }
    { done. }
    { by eapply closed_extends. }
    { lia. }
    destruct Hdup1 as (Hext34 & Hwfr' & Hfreshr & Hunusedr & nsr & Hnr & Hnr').
    assert (nodes w4 !! a' = Some n3) as Ha'4.
    { eapply lookup_weaken; [done|]. apply Hext34. }
    set (n5 := with_Children1 (Some c1) n3).
    set (w5 := set_nodes (<[a' := n5]> (nodes w4)) w4).
    assert (extends w w4) as Hext4 by (by eapply extends_trans).
    assert (extends w w5) as Hext5 by (by apply (extends_set_nodes w w4)).
    assert ((n2 <~ load (Some a) ;;
             c0 <~ DisplayNode_Duplicate fuel (Children0 n2) ;;
             store (Some a') (with_Children0 c0) ;;;
             n3 <~ load (Some a) ;;
             c1 <~ DisplayNode_Duplicate fuel (Children1 n3) ;;
             store (Some a') (with_Children1 c1)) w1 = Ok (tt, w5)) as Hstep.
    { rewrite (bind_ok _ _ _ _ _ (load_ok w1 a n Ha1)).
      rewrite Hcl0. rewrite (bind_ok _ _ _ _ _ Hrun0).
      rewrite (bind_ok _ _ _ _ _ (store_ok w2 a' _ _ Ha'2)).
      fold n3. fold w3.
      rewrite (bind_ok _ _ _ _ _ (load_ok w3 a n Ha3)).
      rewrite Hcr1. rewrite (bind_ok _ _ _ _ _ Hrun1).
      by rewrite (store_ok w4 a' _ _ Ha'4). }
    rewrite (bind_ok _ _ _ _ _ Hstep). unfold ret.
    exists a', (Node a' n5 l' r'), w5.
    split; [done|].
    assert (a' ∉ addrs l') as Hal'.
    { intros Hin. apply Hfreshl in Hin. congruence. }
    assert (a' ∉ addrs r') as Har'.
    { intros Hin. apply Hfreshr in Hin. congruence. }
    split.
    { simpl. split; [done|]. split; [unfold w5; simpl; by rewrite lookup_insert_eq|].
      split.
      - apply (repr_agree (nodes w4)).
        + eapply repr_weaken; [|apply Hext34].
          apply (repr_agree (nodes w2)); [done|].
          intros b Hb. unfold w3. simpl. rewrite lookup_insert_ne; [done|].
          intros <-. done.
        + intros b Hb. unfold w5. simpl. rewrite lookup_insert_ne; [done|].
          intros <-. done.
      - apply (repr_agree (nodes w4)); [done|].
        intros b Hb. unfold w5. simpl. rewrite lookup_insert_ne; [done|].
        intros <-. done. }
    split; [done|].
    split. { simpl. right. by repeat split. }
    split.
    { intros b Hb. simpl in Hb.
      apply elem_of_cons in Hb as [->|Hb]; [done|].
      apply elem_of_app in Hb as [Hb|Hb].
      - eapply fresh_extends; [apply Hext1|]. by apply Hfreshl.
      - eapply fresh_extends; [apply Hext3|]. by apply Hfreshr. }
    split.
    { intros p Hin. simpl in Hin.
      apply elem_of_cons in Hin as [->|Hin]; [done|].
      apply elem_of_app in Hin as [Hin|Hin].
      - eapply unused_extends; [apply Hext1|]. by apply Hunusedl.
      - eapply unused_extends; [apply Hext3|]. by apply Hunusedr. }
    destruct (pane_names_defined w _ Hwr Hclr) as [nsr' Hnr0].
    assert (nsr' = nsr) as ->.
    { pose proof (pane_names_panes w w3 _ _ (proj1 (proj2 Hext3)) Hnr0) as Hx.
      congruence. }
    exists (nsl ++ "Split Line" :: nsr)%list.
    change (traversal (Node a n (Node cl nl ll lr) (Node cr nr rl rr)))
      with (if decide (Axis (node_SplitLine n) = SplitAxisNone) then [node_Pane n]
            else (traversal (Node cl nl ll lr)
                   ++ Some (SplitLinePtr a) :: traversal (Node cr nr rl rr))%list).
    change (traversal (Node a' n5 l' r'))
      with (if decide (Axis (node_SplitLine n) = SplitAxisNone) then [node_Pane n5]
            else (traversal l' ++ Some (SplitLinePtr a') :: traversal r')%list).
    rewrite !decide_False by done.
    split.
    + apply pane_names_app; [by apply (pane_names_panes w1 w)|].
      change (pane_names w (Some (SplitLinePtr a) :: traversal (Node cr nr rl rr)))
        with (ns <- pane_names w (traversal (Node cr nr rl rr)) ;;
              Ok ("Split Line" :: ns)).
      by rewrite Hnr0.
    + apply pane_names_app.
      * apply (pane_names_panes w2); [|done].
        change (panes w5) with (panes w4). change (panes w2) with (panes w3).
        apply Hext34.
      * change (pane_names w5 (Some (SplitLinePtr a') :: traversal r'))
          with (ns <- pane_names w5 (traversal r') ;; Ok ("Split Line" :: ns)).
        by rewrite (pane_names_panes w4 w5 _ _ ltac:(done) Hnr').
Qed.

Lemma unused_not_alive (w : World St) (p : Pane) :
  p ≠ None → unused w p → alive w p → False.
Proof.
  destruct p as [[ty a|a|a]|]; simpl; try done; intros _ -> [? ?]; done.
Qed.

(** C7. When the [Duplicate] of every concrete pane keeps the name: on a
    well-formed tree whose panes are alive, [Duplicate] returns a tree
    that shares no node with the source and no pane or divider identity
    with it, leaves the source as it was, and whose traversal yields the
    same sequence of names. *)
Theorem DisplayNode_Duplicate_independent (w : World St) (d : loc) (t : Tree)
    (fuel : nat) :
  (∀ ty st, pane_Name ty (pane_Duplicate ty st false) = pane_Name ty st) →
  repr (nodes w) (Some d) t → wf t → closed w t → (depth t ≤ fuel)%nat →
  ∃ (d' : loc) (t' : Tree) (w' : World St) (ns : list string),
    DisplayNode_Duplicate fuel (Some d) w = Ok (Some d', w')
    ∧ repr (nodes w') (Some d') t'
    ∧ repr (nodes w') (Some d) t
    ∧ (∀ a, a ∈ addrs t' → a ∉ addrs t)
    ∧ (∀ p, p ∈ slots t' → p ≠ None → p ∉ slots t)
    ∧ (∀ p, p ∈ traversal t' → p ∉ traversal t)
    ∧ pane_names w (traversal t) = Ok ns
    ∧ pane_names w' (traversal t') = Ok ns.
Proof.
  intros Hname Hrepr Hwf Hcl Hfuel.
  destruct (Duplicate_tree t Hname d fuel w Hrepr Hwf Hcl Hfuel)
    as (d' & t' & w' & Hrun & Hrepr' & Hext & Hwf' & Hfresh & Hunused & ns & Hns & Hns').
  exists d', t', w', ns.
  split; [done|]. split; [done|].
  split. { eapply repr_weaken; [done|]. apply Hext. }
  split.
  { intros a Ha Hin. destruct (repr_addrs_dom _ _ _ a Hrepr Hin) as [x Hx].
    rewrite (Hfresh a Ha) in Hx. done. }
  split.
  { intros p Hp Hne Hin. eapply unused_not_alive; eauto. }
  split; [|done].
  intros p Hp' Hp.
  destruct (traversal_wf_addrs t' p Hwf' Hp') as [(a' & Ha' & ->)|[Hne Hslot']].
  - pose proof (Hfresh a' Ha') as Hnone.
    destruct (traversal_wf_addrs t _ Hwf Hp) as [(b & Hb & [= <-])|[_ Hslot]].
    + destruct (repr_addrs_dom _ _ _ a' Hrepr Hb) as [x Hx]. congruence.
    + destruct (Hcl _ Hslot) as [x Hx]. congruence.
  - pose proof (Hunused p Hslot') as Hun.
    destruct (traversal_wf_addrs t _ Hwf Hp) as [(b & Hb & ->)|[_ Hslot]].
    + done.
    + eapply unused_not_alive; eauto.
Qed.

End Duplicate.

Lemma DisplayNode_Duplicate_independent_witness :
  (∀ ty st, pane_Name ty (pane_Duplicate (St:=Examples.SimplePane) ty st false)
            = pane_Name ty st)
  ∧ repr (nodes Examples.world_two) (Some 1%positive) Examples.tree_two
  ∧ wf Examples.tree_two
  ∧ closed Examples.world_two Examples.tree_two
  ∧ (depth Examples.tree_two ≤ 2)%nat
  ∧ ∃ (d' : loc) (t' : Tree) (w' : World Examples.SimplePane),
      DisplayNode_Duplicate 2 (Some 1%positive) Examples.world_two = Ok (Some d', w')
      ∧ repr (nodes w') (Some d') t'
      ∧ (∀ a, a ∈ addrs t' → a ∉ addrs Examples.tree_two)
      ∧ (∀ p, p ∈ traversal t' → p ∉ traversal Examples.tree_two)
      ∧ pane_names w' (traversal t') = Ok ["Radar"; "Split Line"; "Strips"].
Proof.
  assert (∀ ty st, pane_Name ty (pane_Duplicate (St:=Examples.SimplePane) ty st false)
                   = pane_Name ty st) as Hname by reflexivity.
  assert (repr (nodes Examples.world_two) (Some 1%positive) Examples.tree_two)
    as Hrepr by tree_facts.
  assert (wf Examples.tree_two) as Hwf.
  { simpl. right. split; [by left|]. split; [done|]. split; left; by repeat split. }
  assert (closed Examples.world_two Examples.tree_two) as Hcl by closed_facts.
  assert (depth Examples.tree_two ≤ 2)%nat as Hfuel by (simpl; lia).
  do 5 (split; [assumption|]).
  destruct (DisplayNode_Duplicate_independent Examples.world_two 1%positive
              Examples.tree_two 2 Hname Hrepr Hwf Hcl Hfuel)
    as (d' & t' & w' & ns & Hrun & Hrepr' & _ & Hnodes & _ & Hpanes & Hns & Hns').
  exists d', t', w'. repeat (split; [assumption|]).
  rewrite Hns'. rewrite <- Hns. reflexivity.
Defined.

(** ** Loading a tree *)

Section UnmarshalProperties.

Context {St : Type} `{!PaneImpl St}.
Context {RawMessage error : Type}.
Variable Unmarshal_map : RawMessage → decoded error (gmap string (option RawMessage)).
Variable Unmarshal_string : RawMessage → string → decoded error string.
Variable Unmarshal_SplitLine : RawMessage → SplitLine → decoded error SplitLine.
Variable Unmarshal_array : RawMessage → decoded error (list (option RawMessage)).
Variable Unmarshal_pane : PaneType → RawMessage → St → decoded error St.

#[local] Abbreviation Unmarshal :=
  (UnmarshalJSON Unmarshal_map Unmarshal_string Unmarshal_SplitLine
     Unmarshal_array Unmarshal_pane).

(** C8. A node record whose type string is not empty and names no known
    pane type, and whose split line and children were decoded without
    error into world [w1]: [UnmarshalJSON] logs the type, puts a new
    empty pane, unknown to [w1], into the pane slot of the node, and
    returns nil. *)
Theorem UnmarshalJSON_unknown_type (fuel : nat) (d : loc) (s r : RawMessage)
    (m : gmap string (option RawMessage)) (paneType : string)
    (w w1 : World St) (n1 : DisplayNode) :
  Unmarshal_map s = Decoded m →
  m !! "Type" = Some (Some r) →
  Unmarshal_string r "" = Decoded paneType →
  paneType ≠ "" →
  known_pane_type paneType = None →
  Unmarshal_SplitLine_Children Unmarshal_SplitLine Unmarshal_array
    (Unmarshal fuel) (Some d) m w = Ok (None, w1) →
  nodes w1 !! d = Some n1 →
  ∃ a : loc,
    panes w1 !! a = None
    ∧ Unmarshal (S fuel) (Some d) s w
      = Ok (None,
            set_nodes (<[d := with_Pane (Some (PanePtr EmptyPane a)) n1]> (nodes w1))
              (set_panes (<[a := pane_NewEmptyPane]> (panes w1))
                 (set_lg (lg w1 ++ [LogErrorf
                                      (paneType ++ ": Unhandled type in config file")])
                    w1))).
Proof.
  intros Hmap Htype Hstring Hnonempty Hunknown Hfields Hd.
  exists (fresh (dom (panes w1))).
  split; [apply not_elem_of_dom, is_fresh|].
  simpl. rewrite Hmap.
  unfold bind at 1. unfold member at 1. rewrite Htype. rewrite Hstring.
  unfold bind at 1. rewrite Hfields.
  unfold Unmarshal_Pane. rewrite decide_False by done. rewrite Hunknown.
  unfold bind, logErrorf, modify, NewEmptyPane, alloc_pane, store, ret. simpl.
  rewrite Hd. done.
Qed.

End UnmarshalProperties.

Lemma UnmarshalJSON_unknown_type_witness :
  ∃ (m : gmap string (option Examples.Raw)) (w1 : World Examples.SimplePane)
    (n1 : DisplayNode),
    Examples.raw_map Examples.record_unknown = Decoded m
    ∧ m !! "Type" = Some (Some (Examples.RString "*main.WeatherPane"))
    ∧ Examples.raw_string (Examples.RString "*main.WeatherPane") ""
      = Decoded "*main.WeatherPane"
    ∧ "*main.WeatherPane" ≠ ""
    ∧ known_pane_type "*main.WeatherPane" = None
    ∧ Unmarshal_SplitLine_Children Examples.raw_SplitLine Examples.raw_array
        (UnmarshalJSON Examples.raw_map Examples.raw_string Examples.raw_SplitLine
           Examples.raw_array Examples.raw_pane 1)
        (Some 1%positive) m Examples.world_load = Ok (None, w1)
    ∧ nodes w1 !! 1%positive = Some n1
    ∧ ∃ a w',
        UnmarshalJSON Examples.raw_map Examples.raw_string Examples.raw_SplitLine
          Examples.raw_array Examples.raw_pane 2 (Some 1%positive)
          Examples.record_unknown Examples.world_load = Ok (None, w')
        ∧ option_map node_Pane (nodes w' !! 1%positive)
          = Some (Some (PanePtr EmptyPane a))
        ∧ panes w' !! a = Some (pane_NewEmptyPane (St:=Examples.SimplePane))
        ∧ lg w' = [LogErrorf "*main.WeatherPane: Unhandled type in config file"].
Proof.
  eexists _, _, _.
  split; [reflexivity|].
  split; [reflexivity|].
  split; [reflexivity|].
  split; [discriminate|].
  split; [reflexivity|].
  split; [vm_compute; reflexivity|].
  split; [vm_compute; reflexivity|].
  destruct (UnmarshalJSON_unknown_type Examples.raw_map Examples.raw_string
              Examples.raw_SplitLine Examples.raw_array Examples.raw_pane
              1 1%positive Examples.record_unknown
              (Examples.RString "*main.WeatherPane") _ "*main.WeatherPane"
              Examples.world_load _ _
              eq_refl eq_refl eq_refl ltac:(discriminate) eq_refl
              ltac:(vm_compute; reflexivity) ltac:(vm_compute; reflexivity))
    as (a & Hfresh & Hrun).
  eexists a, _. split; [exact Hrun|].
  simpl. rewrite !lookup_insert_eq. by repeat split.
Defined.

(** * Further properties *)

(** Well-formedness and distinct addresses of a concrete tree. *)
Ltac wf_facts :=
  simpl; repeat first [done | split | left; repeat split; done | right].
Ltac nodup_facts :=
  simpl; repeat (apply NoDup_cons; split; [set_solver|]); apply NoDup_nil; done.

(** ** ParentNodeForPane on any tree *)

Lemma child_holds_tree (h : NodeStore) (t : Tree) (d : option loc) (pane : Pane) :
  repr h d t → child_holds h d pane = Ok (holds t pane).
Proof.
  destruct t as [|a n l r]; simpl; [by intros ->|].
  intros (-> & Ha & _ & _). simpl. by rewrite Ha.
Qed.

(** [ParentNodeForPane] computes [parent_of]. *)
Lemma ParentNodeForPane_parent_of (h : NodeStore) (pane : Pane) (t : Tree) :
  ∀ d fuel,
    repr h d t → (depth t < fuel)%nat →
    ParentNodeForPane fuel h d pane
    = Ok (match parent_of pane t with
          | Some (a, i) => (Some a, i)
          | None => (None, -1)
          end).
Proof.
  induction t as [|a n l IHl r IHr]; intros d fuel Hrepr Hfuel.
  { simpl in Hrepr. subst d. destruct fuel; [simpl in Hfuel; lia|done]. }
  destruct Hrepr as (-> & Ha & Hl & Hr).
  destruct fuel as [|fuel]; simpl in Hfuel; [lia|].
  simpl. rewrite Ha. simpl.
  rewrite (child_holds_tree h l _ pane Hl). simpl.
  destruct (holds l pane); [done|].
  rewrite (child_holds_tree h r _ pane Hr). simpl.
  destruct (holds r pane); [done|].
  rewrite (IHl _ fuel Hl) by lia. simpl.
  destruct (parent_of pane l) as [[b i]|]; simpl; [done|].
  apply IHr; [done|lia].
Qed.

Lemma holds_slots (t : Tree) (pane : Pane) : holds t pane = true → pane ∈ slots t.
Proof.
  destruct t as [|a n l r]; simpl; [done|].
  intros ->%bool_decide_eq_true. set_solver.
Qed.

(** What [parent_of] finds is a node of the tree with a child that holds
    the pane. *)
Lemma parent_of_Some (h : NodeStore) (pane : Pane) (t : Tree) :
  ∀ d a i,
    repr h d t → parent_of pane t = Some (a, i) →
    ∃ na c nc,
      a ∈ addrs t ∧ h !! a = Some na ∧ (i = 0 ∨ i = 1)
      ∧ Children_at na i = Ok (Some c)
      ∧ h !! c = Some nc ∧ node_Pane nc = pane.
Proof.
  induction t as [|b n l IHl r IHr]; intros d a i Hrepr Hfind; [done|].
  destruct Hrepr as (-> & Hb & Hl & Hr). simpl in Hfind.
  destruct (holds l pane) eqn:Hhl.
  { injection Hfind as <- <-.
    destruct l as [|c nc ll lr]; [done|]. destruct Hl as (Hc & Hnc & _).
    apply bool_decide_eq_true in Hhl.
    exists n, c, nc. repeat split; try done; [set_solver|by left|].
    unfold Children_at. by rewrite decide_True, Hc. }
  destruct (holds r pane) eqn:Hhr.
  { injection Hfind as <- <-.
    destruct r as [|c nc rl rr]; [done|]. destruct Hr as (Hc & Hnc & _).
    apply bool_decide_eq_true in Hhr.
    exists n, c, nc. repeat split; try done; [set_solver|by right|].
    unfold Children_at. rewrite decide_False by done.
    by rewrite decide_True, Hc. }
  destruct (parent_of pane l) as [x|] eqn:Hpl.
  - injection Hfind as ->.
    destruct (IHl _ a i Hl eq_refl) as (na & c & nc & ? & ?).
    exists na, c, nc. split; [set_solver|done].
  - destruct (IHr _ a i Hr Hfind) as (na & c & nc & ? & ?).
    exists na, c, nc. split; [set_solver|done].
Qed.

Lemma parent_of_None (pane : Pane) (t : Tree) :
  parent_of pane t = None ↔ pane ∉ child_slots t.
Proof.
  induction t as [|b n l IHl r IHr]; simpl; [set_solver|].
  destruct (holds l pane) eqn:Hhl.
  { apply holds_slots in Hhl. split; [done|set_solver]. }
  destruct (holds r pane) eqn:Hhr.
  { apply holds_slots in Hhr. split; [done|set_solver]. }
  assert (∀ s, holds s pane = false → pane ∈ slots s → pane ∈ child_slots s) as Hroot.
  { intros [|c nc sl sr]; simpl; [set_solver|].
    intros Hf%bool_decide_eq_false Hin. set_solver. }
  destruct (parent_of pane l) as [x|] eqn:Hpl.
  - split; [done|]. intros Hnin.
    assert (pane ∉ child_slots l) as Hx.
    { intros Hin. apply Hnin. destruct l; simpl in *; set_solver. }
    apply IHl in Hx. done.
  - rewrite IHr. destruct IHl as [IHl _]. specialize (IHl eq_refl).
    split.
    + intros Hnr Hin. apply elem_of_app in Hin as [Hin|Hin].
      * apply IHl. by apply Hroot.
      * apply Hnr. by apply Hroot.
    + intros Hnin Hin. apply Hnin. destruct r; simpl in *; set_solver.
Qed.

(** X1. On any tree of the store, with fuel beyond its depth:
    [ParentNodeForPane] returns a node of the tree and the index, 0 or 1,
    of a child of it whose pane slot is the pane, when some node below
    the root has the pane in its slot; it returns nil and -1 when none
    has - in particular for a pane that only the root holds. *)
Theorem ParentNodeForPane_spec (h : NodeStore) (d : option loc) (t : Tree)
    (pane : Pane) (fuel : nat) :
  repr h d t → (depth t < fuel)%nat →
  (pane ∈ child_slots t →
     ∃ a i na c nc,
       ParentNodeForPane fuel h d pane = Ok (Some a, i)
       ∧ a ∈ addrs t ∧ h !! a = Some na ∧ (i = 0 ∨ i = 1)
       ∧ Children_at na i = Ok (Some c)
       ∧ h !! c = Some nc ∧ node_Pane nc = pane)
  ∧ (pane ∉ child_slots t → ParentNodeForPane fuel h d pane = Ok (None, -1)).
Proof.
  intros Hrepr Hfuel.
  rewrite (ParentNodeForPane_parent_of h pane t d fuel Hrepr Hfuel).
  split.
  - intros Hin. destruct (parent_of pane t) as [[a i]|] eqn:Hfind.
    + destruct (parent_of_Some h pane t d a i Hrepr Hfind) as (na & c & nc & ?).
      by exists a, i, na, c, nc.
    + apply parent_of_None in Hfind. done.
  - intros Hnin. apply parent_of_None in Hnin. by rewrite Hnin.
Qed.

Lemma ParentNodeForPane_spec_witness :
  repr Examples.nodes_two (Some 1%positive) Examples.tree_two
  ∧ (depth Examples.tree_two < 3)%nat
  ∧ ParentNodeForPane 3 Examples.nodes_two (Some 1%positive) (Some Examples.strips)
    = Ok (Some 1%positive, 1)
  ∧ ParentNodeForPane 3 Examples.nodes_two (Some 1%positive) (Some Examples.radar')
    = Ok (None, -1).
Proof.
  assert (repr Examples.nodes_two (Some 1%positive) Examples.tree_two) as Hrepr
    by tree_facts.
  assert (depth Examples.tree_two < 3)%nat as Hfuel by (simpl; lia).
  split; [exact Hrepr|]. split; [exact Hfuel|].
  destruct (ParentNodeForPane_spec _ _ _ (Some Examples.strips) _ Hrepr Hfuel)
    as [Hfound _].
  destruct (ParentNodeForPane_spec _ _ _ (Some Examples.radar') _ Hrepr Hfuel)
    as [_ Hnone].
  split.
  - destruct Hfound as (a & i & na & c & nc & Hrun & _); [simpl; set_solver|].
    etransitivity; [exact Hrun|]. vm_compute in Hrun. symmetry. exact Hrun.
  - apply Hnone. simpl. unfold Examples.radar', Examples.radar, Examples.strips.
    set_solver.
Defined.

(** ** Delete *)

Lemma delete_pane_None (pane : Pane) (t : Tree) :
  parent_of pane t = None → delete_pane pane t = None.
Proof.
  induction t as [|b n l IHl r IHr]; simpl; [done|].
  destruct (holds l pane); [done|]. destruct (holds r pane); [done|].
  destruct (parent_of pane l) as [x|] eqn:Hpl; [done|].
  intros Hr. by rewrite (IHr Hr).
Qed.

Lemma parent_of_addrs (pane : Pane) (t : Tree) (a : loc) (i : Z) :
  parent_of pane t = Some (a, i) → a ∈ addrs t.
Proof.
  induction t as [|b n l IHl r IHr]; simpl; [done|].
  destruct (holds l pane); [intros [= <- <-]; set_solver|].
  destruct (holds r pane); [intros [= <- <-]; set_solver|].
  destruct (parent_of pane l) as [x|] eqn:Hpl.
  - intros [= ->]. set_solver.
  - intros Hr. set_solver.
Qed.

(** The store after the write of Delete holds the tree [delete_pane]. *)
Lemma delete_pane_repr (h : NodeStore) (pane : Pane) (a : loc) (i : Z)
    (na : DisplayNode) (t : Tree) :
  h !! a = Some na →
  ∀ d,
    repr h d t → NoDup (addrs t) → parent_of pane t = Some (a, i) →
    match Children_at na (other_child i) with
    | Ok (Some c) =>
        ∀ nc, h !! c = Some nc →
              ∃ t', delete_pane pane t = Some t' ∧ repr (<[a := nc]> h) d t'
    | Ok None => delete_pane pane t = None
    | _ => False
    end.
Proof.
  intros Ha. induction t as [|b n l IHl r IHr]; intros d Hrepr Hnd Hfind; [done|].
  destruct Hrepr as (-> & Hb & Hl & Hr).
  simpl in Hnd. apply NoDup_cons in Hnd as [Hbn Hnd].
  apply NoDup_app in Hnd as (Hndl & Hlr & Hndr).
  simpl in Hfind. simpl delete_pane.
  destruct (holds l pane) eqn:Hhl.
  { injection Hfind as <- <-. rewrite Hb in Ha. injection Ha as <-.
    change (Children_at n (other_child 0)) with (Ok (Children1 n) : result (option loc)).
    destruct r as [|c nc rl rr]; simpl in Hr.
    - by rewrite Hr.
    - destruct Hr as (-> & Hc & Hrl & Hrr). intros nc' Hnc'.
      rewrite Hc in Hnc'. injection Hnc' as <-.
      eexists. split; [reflexivity|]. simpl.
      split; [done|]. rewrite lookup_insert_eq. split; [done|].
      split; (eapply repr_agree; [eassumption|]); intros x Hx;
        rewrite lookup_insert_ne; try done; intros <-; apply Hbn; simpl; set_solver. }
  destruct (holds r pane) eqn:Hhr.
  { injection Hfind as <- <-. rewrite Hb in Ha. injection Ha as <-.
    change (Children_at n (other_child 1)) with (Ok (Children0 n) : result (option loc)).
    destruct l as [|c nc ll lr]; simpl in Hl.
    - by rewrite Hl.
    - destruct Hl as (-> & Hc & Hll & Hlr'). intros nc' Hnc'.
      rewrite Hc in Hnc'. injection Hnc' as <-.
      eexists. split; [reflexivity|]. simpl.
      split; [done|]. rewrite lookup_insert_eq. split; [done|].
      split; (eapply repr_agree; [eassumption|]); intros x Hx;
        rewrite lookup_insert_ne; try done; intros <-; apply Hbn; simpl; set_solver. }
  destruct (parent_of pane l) as [x|] eqn:Hpl.
  - injection Hfind as ->.
    pose proof (parent_of_addrs _ _ _ _ Hpl) as Hal.
    specialize (IHl _ Hl Hndl eq_refl).
    destruct (Children_at na (other_child i)) as [[c|]| |]; try done.
    + intros nc Hnc. destruct (IHl nc Hnc) as (l' & -> & Hl').
      eexists. split; [reflexivity|]. simpl.
      assert (b ≠ a) by (intros ->; apply Hbn; set_solver).
      split; [done|]. rewrite lookup_insert_ne by done. split; [done|].
      split; [done|].
      eapply repr_agree; [eassumption|]. intros y Hy.
      rewrite lookup_insert_ne; [done|]. intros <-. by eapply Hlr.
    + by rewrite IHl.
  - pose proof (parent_of_addrs _ _ _ _ Hfind) as Har.
    specialize (IHr _ Hr Hndr Hfind).
    destruct (Children_at na (other_child i)) as [[c|]| |]; try done.
    + intros nc Hnc. destruct (IHr nc Hnc) as (r' & -> & Hr').
      eexists. split; [reflexivity|]. simpl.
      assert (b ≠ a) by (intros ->; apply Hbn; set_solver).
      split; [done|]. rewrite lookup_insert_ne by done. split; [done|].
      split; [|done].
      eapply repr_agree; [eassumption|]. intros y Hy.
      rewrite lookup_insert_ne; [done|]. intros <-. by eapply Hlr.
    + by rewrite IHr.
Qed.

Lemma wf_holds_leaf (t : Tree) (pane : Pane) :
  wf t → pane ≠ None → holds t pane = true → leaf_panes t = [pane].
Proof.
  destruct t as [|a n l r]; simpl; [done|].
  intros [(Hax & _ & -> & ->) | (_ & Hnone & _)] Hne Hh%bool_decide_eq_true.
  - rewrite decide_True by done. by rewrite Hh.
  - congruence.
Qed.

Lemma wf_reroot (a : loc) (t : Tree) : wf t → ∃ t', reroot a t = Some t' ∧ wf t'
  ∧ leaf_panes t' = leaf_panes t
  ∧ addrs t' ⊆ a :: addrs t
  ∧ (NoDup (addrs t) → a ∉ addrs t → NoDup (addrs t')).
Proof.
  destruct t as [|c n l r]; simpl; [done|].
  intros Hwf. eexists. split; [reflexivity|]. split; [done|]. split; [done|].
  split; [set_solver|].
  intros Hnd Ha. apply NoDup_cons in Hnd as [_ Hnd].
  apply NoDup_cons. split; [set_solver|done].
Qed.

(** On a well-formed tree, [delete_pane] takes one occurrence of the pane
    out of the leaves and leaves a well-formed tree. *)
Lemma delete_pane_leaves (pane : Pane) (t : Tree) :
  pane ≠ None →
  ∀ t',
    wf t → delete_pane pane t = Some t' →
    wf t'
    ∧ addrs t' ⊆ addrs t
    ∧ (NoDup (addrs t) → NoDup (addrs t'))
    ∧ ∃ l1 l2, leaf_panes t = (l1 ++ pane :: l2)%list
               ∧ leaf_panes t' = (l1 ++ l2)%list.
Proof.
  intros Hne. induction t as [|b n l IHl r IHr]; intros t' Hwf Hdel; [done|].
  simpl in Hdel.
  destruct Hwf as [(Hax & Hp & -> & ->) | (Hax & Hp & Hwl & Hwr)]; [done|].
  assert (Axis (node_SplitLine n) ≠ SplitAxisNone) as Hax'
    by (unfold SplitAxisNone, SplitAxisX, SplitAxisY in *; lia).
  simpl leaf_panes. rewrite decide_False by done.
  destruct (holds l pane) eqn:Hhl.
  { destruct (wf_reroot b r Hwr) as (r' & Hr' & Hwr' & Hlp & Hsub & Hnd).
    rewrite Hr' in Hdel. injection Hdel as <-.
    split; [done|]. split; [simpl; set_solver|]. split.
    { intros Hn. simpl in Hn. apply NoDup_cons in Hn as [Hb Hn].
      apply NoDup_app in Hn as (_ & _ & Hn). apply Hnd; [done|set_solver]. }
    exists [], (leaf_panes r). rewrite (wf_holds_leaf l pane Hwl Hne Hhl).
    by rewrite Hlp. }
  destruct (holds r pane) eqn:Hhr.
  { destruct (wf_reroot b l Hwl) as (l' & Hl' & Hwl' & Hlp & Hsub & Hnd).
    rewrite Hl' in Hdel. injection Hdel as <-.
    split; [done|]. split; [simpl; set_solver|]. split.
    { intros Hn. simpl in Hn. apply NoDup_cons in Hn as [Hb Hn].
      apply NoDup_app in Hn as (Hn & _ & _). apply Hnd; [done|set_solver]. }
    exists (leaf_panes l), []. rewrite (wf_holds_leaf r pane Hwr Hne Hhr).
    rewrite Hlp. by rewrite app_nil_r. }
  destruct (parent_of pane l) as [x|] eqn:Hpl.
  - destruct (delete_pane pane l) as [l'|] eqn:Hdl; [|done].
    simpl in Hdel. injection Hdel as <-.
    destruct (IHl l' Hwl eq_refl) as (Hwl' & Hsub & Hnd & l1 & l2 & H1 & H2).
    split; [simpl; right; by repeat split|].
    split; [simpl; set_solver|]. split.
    { intros Hn. simpl in *. apply NoDup_cons in Hn as [Hb Hn].
      apply NoDup_app in Hn as (Hnl & Hlr & Hnr).
      apply NoDup_cons. split; [set_solver|].
      apply NoDup_app. split; [by apply Hnd|]. split; [|done].
      intros y Hy. apply Hlr. by apply Hsub. }
    exists l1, (l2 ++ leaf_panes r)%list. simpl. rewrite decide_False by done.
    rewrite H1, H2. by rewrite <- !app_assoc.
  - destruct (delete_pane pane r) as [r'|] eqn:Hdr; [|done].
    simpl in Hdel. injection Hdel as <-.
    destruct (IHr r' Hwr eq_refl) as (Hwr' & Hsub & Hnd & l1 & l2 & H1 & H2).
    split; [simpl; right; by repeat split|].
    split; [simpl; set_solver|]. split.
    { intros Hn. simpl in *. apply NoDup_cons in Hn as [Hb Hn].
      apply NoDup_app in Hn as (Hnl & Hlr & Hnr).
      apply NoDup_cons. split; [set_solver|].
      apply NoDup_app. split; [done|]. split; [|by apply Hnd].
      intros y Hy Hy'. eapply Hlr; [done|]. by apply Hsub. }
    exists (leaf_panes l ++ l1)%list, l2. simpl. rewrite decide_False by done.
    rewrite H1, H2. by rewrite <- !app_assoc.
Qed.

Section DeleteProperties.

Context {St : Type} `{!PaneImpl St}.

(** X2. Delete of a pane that no node below the root holds - the pane of
    a single-pane tree, or a pane that is not in the tree - panics: the
    parent that [ParentNodeForPane] returns is nil and is dereferenced. *)
Theorem Delete_without_parent_panics (w : World St) (t : Tree) (pane : Pane)
    (fuel : nat) :
  repr (nodes w) (DisplayRoot w) t → (depth t < fuel)%nat →
  pane ∉ child_slots t →
  callPick fuel DeletePick pane w = Panic.
Proof.
  intros Hrepr Hfuel Hnin.
  apply parent_of_None in Hnin.
  pose proof (ParentNodeForPane_parent_of (nodes w) pane t _ fuel Hrepr Hfuel) as Hrun.
  rewrite Hnin in Hrun.
  unfold callPick, bind, load, lift, logPrintf, modify.
  world_simpl. by rewrite Hrun.
Qed.

(** Delete on a well-formed tree without shared nodes. *)
Lemma DeletePick_tree (w : World St) (t : Tree) (P : PaneRef) (fuel : nat) :
  repr (nodes w) (DisplayRoot w) t → wf t → NoDup (addrs t) →
  Some P ∈ child_slots t → (depth t < fuel)%nat →
  ∃ (t' : Tree) (w2 : World St) (l1 l2 : list Pane),
    callPick fuel DeletePick (Some P) w = Ok (true, w2)
    ∧ DisplayRoot w2 = DisplayRoot w
    ∧ panes w2 = panes w
    ∧ repr (nodes w2) (DisplayRoot w2) t'
    ∧ wf t'
    ∧ NoDup (addrs t')
    ∧ addrs t' ⊆ addrs t
    ∧ leaf_panes t = (l1 ++ Some P :: l2)%list
    ∧ leaf_panes t' = (l1 ++ l2)%list.
Proof.
  intros Hrepr Hwf Hnd Hin Hfuel.
  pose proof (ParentNodeForPane_parent_of (nodes w) (Some P) t _ fuel Hrepr Hfuel)
    as Hrun.
  destruct (parent_of (Some P) t) as [[a i]|] eqn:Hfind;
    [|by apply parent_of_None in Hfind].
  destruct (parent_of_Some (nodes w) _ t _ a i Hrepr Hfind)
    as (na & c & nc & Hat & Ha & Hi & Hci & Hc & Hp).
  pose proof (delete_pane_repr (nodes w) (Some P) a i na t Ha _ Hrepr Hnd Hfind) as Hdel.
  destruct (Children_at na (other_child i)) as [[c'|]| |] eqn:Hother; try done.
  - destruct (nodes w !! c') as [nc'|] eqn:Hc'.
    + destruct (Hdel nc' eq_refl) as (t' & Hdp & Hrepr').
      destruct (delete_pane_leaves (Some P) t ltac:(done) t' Hwf Hdp)
        as (Hwf' & Hsub & Hnd' & l1 & l2 & H1 & H2).
      assert (∃ w2, callPick fuel DeletePick (Some P) w = Ok (true, w2)
                    ∧ nodes w2 = <[a := nc']> (nodes w)
                    ∧ DisplayRoot w2 = DisplayRoot w
                    ∧ panes w2 = panes w) as (w2 & Hcall & Hn2 & Hr2 & Hp2).
      { unfold callPick, bind, load, lift, logPrintf, modify, store, ret.
        world_simpl. rewrite Hrun. simpl. rewrite Ha. simpl.
        rewrite Hother. simpl. rewrite Hc'. simpl. rewrite Ha.
        eexists. split; [reflexivity|]. done. }
      exists t', w2, l1, l2. rewrite Hr2, Hn2. auto 10.
    + exfalso.
      (* the other child of a node of a tree is in the store *)
      clear Hdel Hrun.
      assert (∀ s d, repr (nodes w) d s → a ∈ addrs s →
                     nodes w !! c' = None → False) as Hno.
      { induction s as [|b n l IHl r IHr]; simpl; [set_solver|].
        intros d (-> & Hb & Hl & Hr) Hab Hnone.
        destruct (decide (a = b)) as [->|Hne].
        - rewrite Hb in Ha. injection Ha as <-.
          unfold Children_at, other_child in Hother.
          destruct Hi as [-> | ->]; simpl in Hother; injection Hother as Hoc.
          + rewrite Hoc in Hr. destruct r; simpl in Hr; [done|].
            destruct Hr as ([= <-] & ? & _). congruence.
          + rewrite Hoc in Hl. destruct l; simpl in Hl; [done|].
            destruct Hl as ([= <-] & ? & _). congruence.
        - apply elem_of_cons in Hab as [?|Hab]; [done|].
          apply elem_of_app in Hab as [?|?]; eauto. }
      eauto.
  - exfalso.
    (* a well-formed node that has one child with a pane has two *)
    clear Hrun.
    assert (∀ s d, repr (nodes w) d s → wf s → a ∈ addrs s → False) as Hno.
    { induction s as [|b n l IHl r IHr]; simpl; [done|].
      intros d (-> & Hb & Hl & Hr) Hw Hab.
      destruct (decide (a = b)) as [->|Hne].
      - rewrite Hb in Ha. injection Ha as <-.
        destruct Hw as [(_ & _ & -> & ->) | (_ & _ & Hwl & Hwr)].
        + simpl in Hl, Hr. unfold Children_at in Hci.
          destruct Hi as [-> | ->]; simpl in Hci; injection Hci as Hx; congruence.
        + unfold Children_at, other_child in Hother.
          destruct Hi as [-> | ->]; simpl in Hother; injection Hother as Hoc.
          * rewrite Hoc in Hr. destruct r; [done|]. by destruct Hr.
          * rewrite Hoc in Hl. destruct l; [done|]. by destruct Hl.
      - destruct Hw as [(_ & _ & -> & ->) | (_ & _ & Hwl & Hwr)]; [set_solver|].
        apply elem_of_cons in Hab as [?|Hab]; [done|].
        apply elem_of_app in Hab as [?|?]; eauto. }
    eauto.
Qed.

(** X3. Delete of a pane [P] that a node below the root holds, on a
    well-formed tree without shared nodes: the handler returns true; the
    root pointer and the pane objects are as before; the store holds a
    well-formed tree again, without shared nodes and made of nodes of the
    old tree; and the panes of its leaves are those of the old tree with
    one occurrence of [P] taken out. *)
Theorem Delete_removes_pane (w : World St) (t : Tree) (P : PaneRef) (fuel : nat) :
  repr (nodes w) (DisplayRoot w) t → wf t → NoDup (addrs t) →
  Some P ∈ child_slots t → (depth t < fuel)%nat →
  ∃ (t' : Tree) (w2 : World St) (l1 l2 : list Pane),
    callPick fuel DeletePick (Some P) w = Ok (true, w2)
    ∧ DisplayRoot w2 = DisplayRoot w
    ∧ panes w2 = panes w
    ∧ repr (nodes w2) (DisplayRoot w2) t'
    ∧ wf t'
    ∧ NoDup (addrs t')
    ∧ addrs t' ⊆ addrs t
    ∧ leaf_panes t = (l1 ++ Some P :: l2)%list
    ∧ leaf_panes t' = (l1 ++ l2)%list.
Proof. apply DeletePick_tree. Qed.

End DeleteProperties.

Lemma Delete_without_parent_panics_witness :
  repr (nodes Examples.world_one) (DisplayRoot Examples.world_one)
    MoreExamples.tree_one
  ∧ (depth MoreExamples.tree_one < 2)%nat
  ∧ (Some Examples.radar ∉ child_slots MoreExamples.tree_one)
  ∧ callPick 2 DeletePick (Some Examples.radar) Examples.world_one = Panic.
Proof.
  assert (repr (nodes Examples.world_one) (DisplayRoot Examples.world_one)
            MoreExamples.tree_one) as Hrepr by tree_facts.
  assert (depth MoreExamples.tree_one < 2)%nat as Hfuel by (simpl; lia).
  assert (Some Examples.radar ∉ child_slots MoreExamples.tree_one) as Hnin
    by (simpl; set_solver).
  do 3 (split; [assumption|]).
  exact (Delete_without_parent_panics Examples.world_one MoreExamples.tree_one
           (Some Examples.radar) 2 Hrepr Hfuel Hnin).
Defined.

Lemma Delete_removes_pane_witness :
  repr (nodes Examples.world_two) (DisplayRoot Examples.world_two) Examples.tree_two
  ∧ wf Examples.tree_two
  ∧ NoDup (addrs Examples.tree_two)
  ∧ (Some Examples.strips ∈ child_slots Examples.tree_two)
  ∧ (depth Examples.tree_two < 3)%nat
  ∧ ∃ (t' : Tree) (w2 : World Examples.SimplePane),
      callPick 3 DeletePick (Some Examples.strips) Examples.world_two = Ok (true, w2)
      ∧ repr (nodes w2) (DisplayRoot w2) t'
      ∧ leaf_panes t' = [Some Examples.radar].
Proof.
  assert (repr (nodes Examples.world_two) (DisplayRoot Examples.world_two)
            Examples.tree_two) as Hrepr by tree_facts.
  assert (wf Examples.tree_two) as Hwf by wf_facts.
  assert (NoDup (addrs Examples.tree_two)) as Hnd by nodup_facts.
  assert (Some Examples.strips ∈ child_slots Examples.tree_two) as Hin
    by (simpl; set_solver).
  assert (depth Examples.tree_two < 3)%nat as Hfuel by (simpl; lia).
  do 5 (split; [assumption|]).
  destruct (Delete_removes_pane Examples.world_two Examples.tree_two
              Examples.strips 3 Hrepr Hwf Hnd Hin Hfuel)
    as (t' & w2 & l1 & l2 & Hrun & _ & _ & Hrepr' & _ & _ & _ & H1 & H2).
  exists t', w2. split; [exact Hrun|]. split; [exact Hrepr'|].
  rewrite H2. clear -H1. simpl in H1.
  destruct l1 as [|x [|y l1]]; simplify_eq/=; [reflexivity|].
  by destruct l1.
Defined.

(** ** The node that NodeForPane returns *)

Lemma NodeForPane_node_of (h : NodeStore) (pane : Pane) (t : Tree) :
  ∀ d fuel, repr h d t → t ≠ Nil → binary t → (depth t ≤ fuel)%nat →
  NodeForPane fuel h d pane = Ok (node_of pane t).
Proof.
  induction t as [|a n l IHl r IHr]; [done|].
  intros d fuel (-> & Ha & Hl & Hr) _ (Hlr & Hbl & Hbr) Hfuel.
  destruct fuel as [|fuel]; simpl in Hfuel; [lia|].
  simpl. rewrite Ha. simpl.
  destruct (decide (node_Pane n = pane)) as [Heq|Hne]; [done|].
  destruct l as [|al nl ll rl].
  { simpl in Hl. rewrite Hl. simpl.
    destruct Hlr as [Hlr _]. rewrite (Hlr eq_refl). done. }
  destruct r as [|ar nr lr rr]; [by destruct Hlr as [_ Hlr]; discriminate Hlr|].
  assert (Children0 n ≠ None) as Hc0 by (destruct Hl as [-> _]; done).
  rewrite decide_False by done.
  rewrite (IHl _ fuel Hl) by (done || lia).
  destruct (node_of pane (Node al nl ll rl)) as [x|]; simpl; [done|].
  apply IHr; (done || lia).
Qed.

Lemma node_of_first (pane : Pane) (t : Tree) :
  pane ∈ slots t →
  ∃ a n pre post,
    node_of pane t = Some a
    ∧ structs t = (pre ++ (a, n) :: post)%list
    ∧ node_Pane n = pane
    ∧ Forall (λ x, node_Pane x.2 ≠ pane) pre.
Proof.
  induction t as [|a n l IHl r IHr]; [by intros ?%elem_of_nil|].
  simpl. intros Hin.
  destruct (decide (node_Pane n = pane)) as [Heq|Hne].
  { exists a, n, [], (structs l ++ structs r)%list. done. }
  destruct (decide (pane ∈ slots l)) as [Hl|Hl].
  - destruct (IHl Hl) as (x & nx & pre & post & -> & Hs & Hp & Hpre).
    exists x, nx, ((a, n) :: pre), (post ++ structs r)%list.
    split; [done|]. split; [|split; [done|by constructor]].
    rewrite Hs. simpl. by rewrite <- app_assoc.
  - assert (pane ∈ slots r) as Hr by set_solver.
    destruct (IHr Hr) as (x & nx & pre & post & Hx & Hs & Hp & Hpre).
    assert (node_of pane l = None) as ->.
    { clear -Hl. induction l as [|b m l1 IH1 l2 IH2]; [done|].
      simpl in *. rewrite decide_False by set_solver.
      rewrite IH1 by set_solver. apply IH2. set_solver. }
    exists x, nx, ((a, n) :: structs l ++ pre)%list, post.
    split; [done|]. split; [|split; [done|]].
    + rewrite Hs. simpl. by rewrite <- app_assoc.
    + constructor; [done|]. apply Forall_app. split; [|done].
      clear -Hl. induction l as [|b m l1 IH1 l2 IH2]; [constructor|].
      simpl in *. constructor; [set_solver|].
      apply Forall_app. split; [apply IH1|apply IH2]; set_solver.
Qed.

(** X4. On a tree whose nodes have two children or none, in which some
    slot is [pane]: [NodeForPane] returns the first node, in the order
    parent, left subtree, right subtree, whose slot is [pane]. *)
Theorem NodeForPane_first (h : NodeStore) (d : option loc) (t : Tree)
    (pane : Pane) (fuel : nat) :
  repr h d t → binary t → (depth t ≤ fuel)%nat → pane ∈ slots t →
  ∃ a n pre post,
    NodeForPane fuel h d pane = Ok (Some a)
    ∧ structs t = (pre ++ (a, n) :: post)%list
    ∧ node_Pane n = pane
    ∧ Forall (λ x, node_Pane x.2 ≠ pane) pre.
Proof.
  intros Hrepr Hbin Hfuel Hin.
  assert (t ≠ Nil) as Hne by (intros ->; by apply elem_of_nil in Hin).
  rewrite (NodeForPane_node_of h pane t d fuel Hrepr Hne Hbin Hfuel).
  destruct (node_of_first pane t Hin) as (a & n & pre & post & -> & H).
  by exists a, n, pre, post.
Qed.

Lemma NodeForPane_first_witness :
  repr Examples.nodes_two (Some 1%positive) Examples.tree_two
  ∧ binary Examples.tree_two
  ∧ (depth Examples.tree_two ≤ 2)%nat
  ∧ (Some Examples.strips ∈ slots Examples.tree_two)
  ∧ ∃ a n pre post,
      NodeForPane 2 Examples.nodes_two (Some 1%positive) (Some Examples.strips)
      = Ok (Some a)
      ∧ structs Examples.tree_two = (pre ++ (a, n) :: post)%list
      ∧ node_Pane n = Some Examples.strips
      ∧ Forall (λ x, node_Pane x.2 ≠ Some Examples.strips) pre.
Proof.
  assert (repr Examples.nodes_two (Some 1%positive) Examples.tree_two) as Hrepr
    by tree_facts.
  assert (binary Examples.tree_two) as Hbin by (simpl; done).
  assert (depth Examples.tree_two ≤ 2)%nat as Hfuel by (simpl; lia).
  assert (Some Examples.strips ∈ slots Examples.tree_two) as Hin
    by (simpl; set_solver).
  do 4 (split; [assumption|]).
  exact (NodeForPane_first Examples.nodes_two (Some 1%positive) Examples.tree_two
           (Some Examples.strips) 2 Hrepr Hbin Hfuel Hin).
Defined.

(** ** Replacing a subtree *)

Lemma graft_repr (h h' : NodeStore) (a : loc) (s : Tree) (t : Tree) :
  ∀ d, repr h d t →
  (∀ b, b ∈ addrs t → b ≠ a → h' !! b = h !! b) →
  (a ∈ addrs t → repr h' (Some a) s) →
  repr h' d (graft a s t).
Proof.
  induction t as [|b n l IHl r IHr]; [done|].
  intros d (-> & Hb & Hl & Hr) Hsame Hs. simpl.
  destruct (decide (b = a)) as [->|Hne].
  { apply Hs. set_solver. }
  simpl. split; [done|]. split.
  { rewrite Hsame; [done|set_solver|done]. }
  split.
  - apply IHl; [done| |].
    + intros x Hx. apply Hsame. set_solver.
    + intros Hx. apply Hs. set_solver.
  - apply IHr; [done| |].
    + intros x Hx. apply Hsame. set_solver.
    + intros Hx. apply Hs. set_solver.
Qed.

Lemma graft_notin (a : loc) (s t : Tree) : a ∉ addrs t → graft a s t = t.
Proof.
  induction t as [|b n l IHl r IHr]; [done|].
  simpl. intros Hnin.
  rewrite decide_False by set_solver.
  rewrite IHl, IHr by set_solver. done.
Qed.

Lemma graft_addrs (a : loc) (s t : Tree) (x : loc) :
  x ∈ addrs (graft a s t) → x ∈ addrs t ∨ x ∈ addrs s.
Proof.
  induction t as [|b n l IHl r IHr]; [by intros ?%elem_of_nil|].
  simpl. destruct (decide (b = a)) as [->|Hne]; [by right|].
  simpl. set_solver.
Qed.

Lemma graft_NoDup (a : loc) (s t : Tree) :
  NoDup (addrs t) → NoDup (addrs s) →
  (∀ x, x ∈ addrs s → x = a ∨ x ∉ addrs t) →
  NoDup (addrs (graft a s t)).
Proof.
  induction t as [|b n l IHl r IHr]; [done|].
  simpl. intros Hnd Hs Hfresh.
  destruct (decide (b = a)) as [->|Hne]; [done|].
  apply NoDup_cons in Hnd as [Hb Hnd].
  apply NoDup_app in Hnd as (Hndl & Hlr & Hndr).
  simpl. apply NoDup_cons. split.
  { intros [Hx|Hx]%elem_of_app.
    - apply graft_addrs in Hx as [Hx|Hx]; [set_solver|].
      destruct (Hfresh _ Hx); set_solver.
    - apply graft_addrs in Hx as [Hx|Hx]; [set_solver|].
      destruct (Hfresh _ Hx); set_solver. }
  destruct (decide (a ∈ addrs l)) as [Hal|Hal].
  - rewrite (graft_notin a s r) by (intros Hx; by apply (Hlr a)).
    apply NoDup_app. split; [|split; [|done]].
    + apply IHl; [done|done|]. intros x Hx. destruct (Hfresh _ Hx); set_solver.
    + intros x Hx Hxr. apply graft_addrs in Hx as [Hx|Hx]; [by apply (Hlr x)|].
      destruct (Hfresh _ Hx) as [->|Hn]; [by apply (Hlr a)|set_solver].
  - rewrite (graft_notin a s l) by done.
    apply NoDup_app. split; [done|]. split.
    + intros x Hx Hxr. apply graft_addrs in Hxr as [Hxr|Hxr]; [by apply (Hlr x)|].
      destruct (Hfresh _ Hxr) as [->|Hn]; [done|set_solver].
    + apply IHr; [done|done|]. intros x Hx. destruct (Hfresh _ Hx); set_solver.
Qed.

Lemma graft_wf (a : loc) (s t : Tree) : wf t → wf s → wf (graft a s t).
Proof.
  induction t as [|b n l IHl r IHr]; [done|].
  simpl. intros Hwf Hs.
  destruct (decide (b = a)) as [->|Hne]; [done|].
  simpl. destruct Hwf as [(Hax & Hp & -> & ->)|(Hax & Hp & Hl & Hr)].
  - by left.
  - right. split; [done|]. split; [done|]. split; [by apply IHl|by apply IHr].
Qed.

Lemma graft_depth (a : loc) (s t : Tree) :
  (1 ≤ depth s)%nat → wf t → (depth (graft a s t) ≤ depth t + depth s - 1)%nat.
Proof.
  intros Hs.
  induction t as [|b n l IHl r IHr]; [done|].
  simpl. intros Hwf.
  destruct (decide (b = a)) as [->|Hne]; [lia|].
  destruct Hwf as [(Hax & Hp & -> & ->)|(Hax & Hp & Hl & Hr)].
  - simpl. lia.
  - simpl. specialize (IHl Hl). specialize (IHr Hr).
    assert (1 ≤ depth l)%nat by (destruct l; [done|simpl; lia]).
    assert (1 ≤ depth r)%nat by (destruct r; [done|simpl; lia]).
    lia.
Qed.

Lemma leaves_addrs (t : Tree) (x : loc * Pane) : x ∈ leaves t → x.1 ∈ addrs t.
Proof.
  induction t as [|b n l IHl r IHr]; [by intros ?%elem_of_nil|].
  simpl. destruct (decide _); set_solver.
Qed.

Lemma leaves_slots (t : Tree) (x : loc * Pane) : x ∈ leaves t → x.2 ∈ slots t.
Proof.
  induction t as [|b n l IHl r IHr]; [by intros ?%elem_of_nil|].
  simpl. destruct (decide _); set_solver.
Qed.

Lemma leaf_panes_leaves (t : Tree) : leaf_panes t = (leaves t).*2.
Proof.
  induction t as [|b n l IHl r IHr]; [done|].
  simpl. destruct (decide _); [done|].
  by rewrite fmap_app, IHl, IHr.
Qed.

Lemma app_eq_split_l {A : Type} (l r k1 k2 : list A) (x : A) :
  (l ++ r = k1 ++ x :: k2)%list → x ∉ r →
  ∃ k2', l = (k1 ++ x :: k2')%list ∧ k2 = (k2' ++ r)%list.
Proof.
  revert l. induction k1 as [|z k1 IH]; intros l Heq Hnin.
  - destruct l as [|y l]; simpl in Heq.
    + subst r. set_solver.
    + injection Heq as -> <-. by exists l.
  - destruct l as [|y l]; simpl in Heq.
    + subst r. set_solver.
    + injection Heq as -> Heq. destruct (IH l Heq Hnin) as (k2' & -> & ->).
      by exists k2'.
Qed.

Lemma app_eq_split_r {A : Type} (l r k1 k2 : list A) (x : A) :
  (l ++ r = k1 ++ x :: k2)%list → x ∉ l →
  ∃ k1', r = (k1' ++ x :: k2)%list ∧ k1 = (l ++ k1')%list.
Proof.
  revert k1. induction l as [|y l IH]; intros k1 Heq Hnin.
  - by exists k1.
  - destruct k1 as [|z k1]; simpl in Heq.
    + injection Heq as -> _. set_solver.
    + injection Heq as -> Heq.
      destruct (IH k1 Heq ltac:(set_solver)) as (k1' & -> & ->).
      by exists k1'.
Qed.

(** Replacing the leaf at [a] replaces its entry among the leaves. *)
Lemma graft_leaves (a : loc) (P : Pane) (s : Tree) (t : Tree) :
  ∀ k1 k2, wf t → NoDup (addrs t) →
  leaves t = (k1 ++ (a, P) :: k2)%list →
  leaves (graft a s t) = (k1 ++ leaves s ++ k2)%list.
Proof.
  induction t as [|b n l IHl r IHr]; [done|].
  intros k1 k2 Hwf Hnd Heq. simpl in Heq.
  destruct Hwf as [(Hax & Hp & -> & ->)|(Hax & Hp & Hl & Hr)].
  - rewrite decide_True in Heq by done.
    destruct k1 as [|z k1]; simpl in Heq.
    + injection Heq as -> _ <-. simpl. rewrite decide_True by done.
      by rewrite app_nil_r.
    + injection Heq as _ Heq. by destruct k1.
  - rewrite decide_False in Heq by (destruct Hax as [-> | ->]; done).
    simpl in Hnd. apply NoDup_cons in Hnd as [Hb Hnd].
    apply NoDup_app in Hnd as (Hndl & Hlr & Hndr).
    assert ((a, P) ∈ (leaves l ++ leaves r)%list) as Hin by (rewrite Heq; set_solver).
    assert (b ≠ a) as Hne.
    { intros ->. apply Hb. apply elem_of_app in Hin as [Hin|Hin];
        apply leaves_addrs in Hin; set_solver. }
    simpl. rewrite decide_False by done. simpl.
    rewrite decide_False by (destruct Hax as [-> | ->]; done).
    apply elem_of_app in Hin as [Hin|Hin].
    + assert ((a, P) ∉ leaves r) as Hnr.
      { intros Hx. apply leaves_addrs in Hx, Hin. by apply (Hlr a). }
      destruct (app_eq_split_l _ _ _ _ _ Heq Hnr) as (k2' & Hl' & ->).
      rewrite (IHl _ _ Hl Hndl Hl').
      rewrite (graft_notin a s r)
        by (intros Hx; apply leaves_addrs in Hin; by apply (Hlr a)).
      by rewrite <- !app_assoc.
    + assert ((a, P) ∉ leaves l) as Hnl.
      { intros Hx. apply leaves_addrs in Hx, Hin. by apply (Hlr a). }
      destruct (app_eq_split_r _ _ _ _ _ Heq Hnl) as (k1' & Hr' & ->).
      rewrite (IHr _ _ Hr Hndr Hr').
      rewrite (graft_notin a s l)
        by (intros Hx; apply leaves_addrs in Hin; by apply (Hlr a)).
      by rewrite <- !app_assoc.
Qed.

(** The node that holds a pane of a well-formed tree is a leaf, the
    first one with that pane. *)
Lemma node_of_leaf (pane : Pane) (t : Tree) :
  wf t → pane ≠ None → pane ∈ slots t →
  ∃ a k1 k2,
    node_of pane t = Some a
    ∧ a ∈ addrs t
    ∧ leaves t = (k1 ++ (a, pane) :: k2)%list
    ∧ pane ∉ k1.*2.
Proof.
  intros Hwf Hpane.
  induction t as [|b n l IHl r IHr]; [done|].
  simpl. intros Hin.
  destruct Hwf as [(Hax & Hp & -> & ->)|(Hax & Hp & Hl & Hr)].
  - assert (node_Pane n = pane) as Heq by set_solver.
    rewrite decide_True by done. rewrite decide_True by done.
    exists b, [], []. rewrite Heq. set_solver.
  - rewrite decide_False by congruence.
    rewrite decide_False by (destruct Hax as [-> | ->]; done).
    destruct (decide (pane ∈ slots l)) as [Hinl|Hinl].
    + destruct (IHl Hl Hinl) as (a & k1 & k2 & -> & Ha & Hk & Hfirst).
      exists a, k1, (k2 ++ leaves r)%list.
      split; [done|]. split; [set_solver|]. split; [|done].
      rewrite Hk. by rewrite <- app_assoc.
    + assert (pane ∈ slots r) as Hinr by set_solver.
      destruct (IHr Hr Hinr) as (a & k1 & k2 & Hnode & Ha & Hk & Hfirst).
      assert (node_of pane l = None) as ->.
      { clear -Hinl. induction l as [|c m l1 IH1 l2 IH2]; [done|].
        simpl in *. rewrite decide_False by set_solver.
        rewrite IH1 by set_solver. apply IH2. set_solver. }
      exists a, (leaves l ++ k1)%list, k2.
      split; [done|]. split; [set_solver|]. split.
      * rewrite Hk. by rewrite <- app_assoc.
      * rewrite fmap_app. intros [Hx|Hx]%elem_of_app; [|done].
        apply Hinl. apply list_elem_of_fmap in Hx as (y & -> & Hy).
        by apply leaves_slots.
Qed.

Section SplitProperties.

Context {St : Type} `{!PaneImpl St}.

(** Split on a well-formed tree without shared nodes. *)
Lemma SplitPick_tree (w : World St) (t : Tree) (P : PaneRef) (axis : SplitType)
    (fuel : nat) :
  repr (nodes w) (DisplayRoot w) t → wf t → NoDup (addrs t) →
  Some P ∈ slots t → axis = SplitAxisX ∨ axis = SplitAxisY →
  (depth t ≤ fuel)%nat →
  ∃ (t' : Tree) (w1 : World St) (e : loc) (l1 l2 : list Pane),
    callPick fuel (SplitPick axis) (Some P) w = Ok (true, w1)
    ∧ panes w !! e = None
    ∧ panes w1 = <[e := pane_zero EmptyPane]> (panes w)
    ∧ DisplayRoot w1 = DisplayRoot w
    ∧ repr (nodes w1) (DisplayRoot w1) t'
    ∧ wf t'
    ∧ NoDup (addrs t')
    ∧ (depth t' ≤ S (depth t))%nat
    ∧ leaf_panes t = (l1 ++ Some P :: l2)%list
    ∧ (Some P ∉ l1)
    ∧ leaf_panes t' = (l1 ++ Some (PanePtr EmptyPane e) :: Some P :: l2)%list.
Proof.
  intros Hrepr Hwf Hnd Hin Haxis Hfuel.
  pose proof (wf_binary t Hwf) as Hbin.
  pose proof (wf_not_Nil t Hwf) as Hne.
  destruct (node_of_leaf (Some P) t Hwf ltac:(done) Hin)
    as (a & k1 & k2 & Hnode & Ha & Hk & Hfirst).
  pose proof (NodeForPane_node_of (nodes w) (Some P) t _ fuel Hrepr Hne Hbin Hfuel)
    as Hrun.
  rewrite Hnode in Hrun.
  destruct (repr_addrs_dom _ _ _ _ Hrepr Ha) as [n Hn].
  destruct (SplitPick_run w a n (Some P) axis fuel Hrun Hn)
    as (e & c0 & c1 & w1 & He & Hc0 & Hc1 & Hc01 & Hsplit & Hw1a & Hw1c0 & Hw1c1
        & Hw1b & Hroot1 & Hpanes1).
  set (s := split_node a c0 c1 axis (Some (PanePtr EmptyPane e)) (Some P)).
  assert (c0 ∉ addrs t) as Hc0t.
  { intros Hx. destruct (repr_addrs_dom _ _ _ _ Hrepr Hx) as [? Hy]. congruence. }
  assert (c1 ∉ addrs t) as Hc1t.
  { intros Hx. destruct (repr_addrs_dom _ _ _ _ Hrepr Hx) as [? Hy]. congruence. }
  exists (graft a s t), w1, e, k1.*2, k2.*2.
  split; [done|]. split; [done|]. split; [done|]. split; [done|].
  split.
  { rewrite Hroot1. apply (graft_repr (nodes w)); [done| |].
    - intros b Hb Hba. apply Hw1b; [|done]. by eapply repr_addrs_dom.
    - intros _. unfold s, split_node. simpl. by rewrite Hw1a, Hw1c0, Hw1c1. }
  split.
  { apply graft_wf; [done|]. unfold s, split_node. simpl.
    right. split; [done|]. split; [done|]. split; left; done. }
  split.
  { apply graft_NoDup; [done| |].
    - unfold s, split_node. simpl.
      assert (a ≠ c0) by (intros ->; by apply Hc0t).
      assert (a ≠ c1) by (intros ->; by apply Hc1t).
      repeat (apply NoDup_cons; split; [set_solver|]). apply NoDup_nil. done.
    - unfold s, split_node. simpl. intros x Hx.
      assert (x = a ∨ x = c0 ∨ x = c1) as [->|[->| ->]] by set_solver; auto. }
  split.
  { pose proof (graft_depth a s t ltac:(simpl; lia) Hwf) as Hd.
    unfold s, split_node in Hd. simpl in Hd. unfold s, split_node. lia. }
  rewrite !leaf_panes_leaves.
  rewrite (graft_leaves a (Some P) s t k1 k2 Hwf Hnd Hk).
  rewrite Hk. rewrite !fmap_app. simpl.
  split; [done|]. split; [done|].
  unfold s, split_node. simpl.
  rewrite decide_False by (destruct Haxis as [-> | ->]; done).
  done.
Qed.

(** X5. Split of a pane [P] of a well-formed tree without shared nodes:
    the handler returns true, a new empty pane is allocated, and the
    store holds a well-formed tree again, without shared nodes, whose
    leaves are those of the old tree with the new empty pane put right
    before the first [P]. *)
Theorem Split_inserts_pane (w : World St) (t : Tree) (P : PaneRef) (axis : SplitType)
    (fuel : nat) :
  repr (nodes w) (DisplayRoot w) t → wf t → NoDup (addrs t) →
  Some P ∈ slots t → axis = SplitAxisX ∨ axis = SplitAxisY →
  (depth t ≤ fuel)%nat →
  ∃ (t' : Tree) (w1 : World St) (e : loc) (l1 l2 : list Pane),
    callPick fuel (SplitPick axis) (Some P) w = Ok (true, w1)
    ∧ panes w !! e = None
    ∧ panes w1 = <[e := pane_zero EmptyPane]> (panes w)
    ∧ DisplayRoot w1 = DisplayRoot w
    ∧ repr (nodes w1) (DisplayRoot w1) t'
    ∧ wf t'
    ∧ NoDup (addrs t')
    ∧ (depth t' ≤ S (depth t))%nat
    ∧ leaf_panes t = (l1 ++ Some P :: l2)%list
    ∧ (Some P ∉ l1)
    ∧ leaf_panes t' = (l1 ++ Some (PanePtr EmptyPane e) :: Some P :: l2)%list.
Proof. apply SplitPick_tree. Qed.

End SplitProperties.

Lemma Split_inserts_pane_witness :
  repr (nodes Examples.world_two) (DisplayRoot Examples.world_two) Examples.tree_two
  ∧ wf Examples.tree_two
  ∧ NoDup (addrs Examples.tree_two)
  ∧ (Some Examples.strips ∈ slots Examples.tree_two)
  ∧ (SplitAxisY = SplitAxisX ∨ SplitAxisY = SplitAxisY)
  ∧ (depth Examples.tree_two ≤ 2)%nat
  ∧ ∃ (t' : Tree) (w1 : World Examples.SimplePane) (e : loc),
      callPick 2 (SplitPick SplitAxisY) (Some Examples.strips) Examples.world_two
      = Ok (true, w1)
      ∧ repr (nodes w1) (DisplayRoot w1) t'
      ∧ leaf_panes t'
        = [Some Examples.radar; Some (PanePtr EmptyPane e); Some Examples.strips].
Proof.
  assert (repr (nodes Examples.world_two) (DisplayRoot Examples.world_two)
            Examples.tree_two) as Hrepr by tree_facts.
  assert (wf Examples.tree_two) as Hwf by wf_facts.
  assert (NoDup (addrs Examples.tree_two)) as Hnd by nodup_facts.
  assert (Some Examples.strips ∈ slots Examples.tree_two) as Hin
    by (simpl; set_solver).
  assert (SplitAxisY = SplitAxisX ∨ SplitAxisY = SplitAxisY) as Hax by (by right).
  assert (depth Examples.tree_two ≤ 2)%nat as Hfuel by (simpl; lia).
  do 6 (split; [assumption|]).
  destruct (Split_inserts_pane Examples.world_two Examples.tree_two
              Examples.strips SplitAxisY 2 Hrepr Hwf Hnd Hin Hax Hfuel)
    as (t' & w1 & e & l1 & l2 & Hrun & _ & _ & _ & Hrepr' & _ & _ & _ & H1 & Hfirst & H2).
  exists t', w1, e. split; [exact Hrun|]. split; [exact Hrepr'|].
  rewrite H2. clear -H1 Hfirst. simpl in H1.
  destruct l1 as [|x [|y l1]]; simplify_eq/=; [reflexivity|].
  by destruct l1.
Defined.

(** ** Split and Delete, Copy, Exchange on the leaves *)

Lemma leaf_panes_slots (t : Tree) (p : Pane) : p ∈ leaf_panes t → p ∈ slots t.
Proof.
  rewrite leaf_panes_leaves. intros (x & -> & Hx)%list_elem_of_fmap.
  by apply leaves_slots.
Qed.

Lemma leaf_panes_child_slots (t : Tree) (p : Pane) :
  wf t → (2 ≤ length (leaf_panes t))%nat → p ∈ leaf_panes t → p ∈ child_slots t.
Proof.
  destruct t as [|a n l r]; [done|].
  simpl. intros [(Hax & Hp & -> & ->)|(Hax & Hp & Hl & Hr)].
  - rewrite decide_True by done. simpl. lia.
  - rewrite decide_False by (destruct Hax as [-> | ->]; done).
    intros _ [Hx|Hx]%elem_of_app; apply leaf_panes_slots in Hx; set_solver.
Qed.

Lemma remove_after_insert {A : Type} (x y : A) (l1 l2 m1 m2 : list A) :
  x ∉ l1 → x ∉ l2 →
  (m1 ++ x :: m2 = l1 ++ y :: x :: l2)%list →
  (m1 ++ m2 = l1 ++ y :: l2)%list.
Proof.
  revert m1. induction l1 as [|a l1 IH]; intros m1 Hl1 Hl2 Heq.
  - destruct m1 as [|b [|c m1]]; simpl in Heq.
    + by injection Heq as -> ->.
    + by injection Heq as -> ->.
    + injection Heq as -> -> Heq. subst l2. set_solver.
  - destruct m1 as [|b m1]; simpl in Heq.
    + injection Heq as -> _. set_solver.
    + injection Heq as -> Heq. simpl. f_equal. apply IH; [set_solver|done|done].
Qed.

Lemma leaves_repr (h : NodeStore) (t : Tree) (a : loc) (p : Pane) :
  ∀ d, repr h d t → wf t → (a, p) ∈ leaves t →
  ∃ n, h !! a = Some n ∧ node_Pane n = p
       ∧ Axis (node_SplitLine n) = SplitAxisNone
       ∧ node_Children n = (None, None).
Proof.
  induction t as [|b n l IHl r IHr]; [done|].
  intros d (-> & Hb & Hl & Hr) Hwf Hin. simpl in Hin.
  destruct Hwf as [(Hax & Hp & -> & ->)|(Hax & Hp & Hwl & Hwr)].
  - rewrite decide_True in Hin by done.
    apply list_elem_of_singleton in Hin. injection Hin as -> ->.
    exists n. simpl in Hl, Hr. unfold Children0, Children1 in *.
    destruct n as [pn sn [c0 c1]]. simpl in *. by subst.
  - rewrite decide_False in Hin by (destruct Hax as [-> | ->]; done).
    apply elem_of_app in Hin as [Hin|Hin]; eauto.
Qed.

Lemma two_splits {A : Type} (x y : A) (k1 k2 m1 m2 : list A) :
  (k1 ++ x :: k2 = m1 ++ y :: m2)%list → x ≠ y →
  (∃ m, k1 = (m1 ++ y :: m)%list ∧ m2 = (m ++ x :: k2)%list)
  ∨ (∃ m, m1 = (k1 ++ x :: m)%list ∧ k2 = (m ++ y :: m2)%list).
Proof.
  revert m1. induction k1 as [|a k1 IH]; intros m1 Heq Hne.
  - destruct m1 as [|b m1]; simpl in Heq.
    + by injection Heq as -> _.
    + injection Heq as -> ->. right. by exists m1.
  - destruct m1 as [|b m1]; simpl in Heq.
    + injection Heq as -> <-. left. by exists k1.
    + injection Heq as -> Heq. destruct (IH m1 Heq Hne) as [(m & -> & ->)|(m & -> & ->)].
      * left. by exists m.
      * right. by exists m.
Qed.

Section EditProperties.

Context {St : Type} `{!PaneImpl St}.

(** X6. Split of a pane [P] that exactly one leaf holds, then Delete of
    [P] itself: both handlers return true, and the store holds a
    well-formed tree whose leaves are those of the first tree with the
    new empty pane in the place of [P]. *)
Theorem Split_then_Delete_original (w : World St) (t : Tree) (P : PaneRef)
    (axis : SplitType) (fuel : nat) (l1 l2 : list Pane) :
  repr (nodes w) (DisplayRoot w) t → wf t → NoDup (addrs t) →
  leaf_panes t = (l1 ++ Some P :: l2)%list → Some P ∉ l1 → Some P ∉ l2 →
  axis = SplitAxisX ∨ axis = SplitAxisY →
  (S (depth t) < fuel)%nat →
  ∃ (t2 : Tree) (w1 w2 : World St) (e : loc),
    callPick fuel (SplitPick axis) (Some P) w = Ok (true, w1)
    ∧ panes w !! e = None
    ∧ callPick fuel DeletePick (Some P) w1 = Ok (true, w2)
    ∧ DisplayRoot w2 = DisplayRoot w
    ∧ repr (nodes w2) (DisplayRoot w2) t2
    ∧ wf t2
    ∧ NoDup (addrs t2)
    ∧ leaf_panes t2 = (l1 ++ Some (PanePtr EmptyPane e) :: l2)%list.
Proof.
  intros Hrepr Hwf Hnd Hleaves Hl1 Hl2 Haxis Hfuel.
  assert (Some P ∈ slots t) as Hin.
  { apply leaf_panes_slots. rewrite Hleaves. set_solver. }
  destruct (SplitPick_tree w t P axis fuel Hrepr Hwf Hnd Hin Haxis ltac:(lia))
    as (t1 & w1 & e & k1 & k2 & Hsplit & He & _ & Hroot1 & Hrepr1 & Hwf1 & Hnd1
        & Hdepth1 & Hk & Hfirst & Hleaves1).
  assert (k1 = l1 ∧ k2 = l2) as [-> ->].
  { rewrite Hleaves in Hk. clear -Hk Hl1 Hfirst.
    revert k1 Hk Hfirst. induction l1 as [|a l1 IH]; intros k1 Hk Hfirst.
    - destruct k1 as [|b k1]; simpl in Hk; [by injection Hk as ->|].
      injection Hk as <- _. set_solver.
    - destruct k1 as [|b k1]; simpl in Hk.
      + injection Hk as -> _. set_solver.
      + injection Hk as <- Hk.
        destruct (IH ltac:(set_solver) k1 Hk ltac:(set_solver)) as [-> ->]. done. }
  assert (Some P ∈ child_slots t1) as Hin1.
  { apply leaf_panes_child_slots; [done| |].
    - rewrite Hleaves1. rewrite length_app. simpl. lia.
    - rewrite Hleaves1. set_solver. }
  destruct (DeletePick_tree w1 t1 P fuel Hrepr1 Hwf1 Hnd1 Hin1 ltac:(lia))
    as (t2 & w2 & m1 & m2 & Hdelete & Hroot2 & _ & Hrepr2 & Hwf2 & Hnd2 & _
        & Hm & Hleaves2).
  exists t2, w1, w2, e.
  split; [done|]. split; [done|]. split; [done|].
  split; [congruence|]. split; [done|]. split; [done|]. split; [done|].
  rewrite Hleaves2. rewrite Hleaves1 in Hm.
  by apply (remove_after_insert (Some P)).
Qed.




(** The second click of Exchange on two nodes. *)
Lemma ExchangePick_run (w : World St) (a0 a1 : loc) (n0 n1 : DisplayNode)
    (P1 : PaneRef) (P2 : Pane) (fuel : nat) :
  paneFirstPick w = Some P1 → P2 ≠ Some P1 →
  NodeForPane fuel (nodes w) (DisplayRoot w) (Some P1) = Ok (Some a0) →
  NodeForPane fuel (nodes w) (DisplayRoot w) P2 = Ok (Some a1) →
  nodes w !! a0 = Some n0 → nodes w !! a1 = Some n1 → a0 ≠ a1 →
  ∃ (w1 : World St),
    callPick fuel ExchangePick P2 w = Ok (true, w1)
    ∧ nodes w1 = <[a1 := with_Pane (node_Pane n0) n1]>
                   (<[a0 := with_Pane (node_Pane n1) n0]> (nodes w))
    ∧ panes w1 = panes w
    ∧ paneFirstPick w1 = None
    ∧ paneConfigHelpText w1 = ""
    ∧ DisplayRoot w1 = DisplayRoot w.
Proof.
  intros Hfirst Hdiff Hrun0 Hrun1 Ha0 Ha1 Hne.
  eexists. split.
  { unfold callPick, bind at 1, get at 1. rewrite Hfirst. simpl.
    unfold bind at 1. unfold lift at 1. rewrite Hfirst, Hrun0. simpl.
    unfold bind at 1. unfold lift at 1. rewrite Hrun1. simpl.
    unfold bind, logPrintf, modify, get, ret, load, lift, store. simpl.
    rewrite Hfirst. rewrite decide_True by done.
    world_simpl.
    rewrite Ha1. simpl. rewrite Ha0. simpl. rewrite ?Ha0. simpl.
    rewrite lookup_insert_ne by done. rewrite Ha1. simpl.
    reflexivity. }
  done.
Qed.

(** The second click of Exchange on a well-formed tree without shared
    nodes. *)
Lemma ExchangePick_tree (w : World St) (t : Tree) (P1 P2 : PaneRef) (fuel : nat) :
  paneFirstPick w = Some P1 → P2 ≠ P1 →
  repr (nodes w) (DisplayRoot w) t → wf t → NoDup (addrs t) →
  Some P1 ∈ slots t → Some P2 ∈ slots t → (depth t ≤ fuel)%nat →
  ∃ (t' : Tree) (w1 : World St) (l1 l2 l3 : list Pane) (X Y : Pane),
    callPick fuel ExchangePick (Some P2) w = Ok (true, w1)
    ∧ panes w1 = panes w
    ∧ paneFirstPick w1 = None
    ∧ paneConfigHelpText w1 = ""
    ∧ DisplayRoot w1 = DisplayRoot w
    ∧ repr (nodes w1) (DisplayRoot w1) t'
    ∧ wf t'
    ∧ NoDup (addrs t')
    ∧ (depth t' ≤ depth t)%nat
    ∧ ((X = Some P1 ∧ Y = Some P2) ∨ (X = Some P2 ∧ Y = Some P1))
    ∧ leaf_panes t = (l1 ++ X :: l2 ++ Y :: l3)%list
    ∧ (X ∉ l1) ∧ (Y ∉ l1) ∧ (Y ∉ l2)
    ∧ leaf_panes t' = (l1 ++ Y :: l2 ++ X :: l3)%list.
Proof.
  intros Hfirst Hdiff Hrepr Hwf Hnd Hin1 Hin2 Hfuel.
  pose proof (wf_binary t Hwf) as Hbin.
  pose proof (wf_not_Nil t Hwf) as Hne.
  destruct (node_of_leaf (Some P1) t Hwf ltac:(done) Hin1)
    as (a0 & k1 & k2 & Hnode0 & Ha0 & Hk & Hfirstk).
  destruct (node_of_leaf (Some P2) t Hwf ltac:(done) Hin2)
    as (a1 & m1 & m2 & Hnode1 & Ha1 & Hm & Hfirstm).
  pose proof (NodeForPane_node_of (nodes w) (Some P1) t _ fuel Hrepr Hne Hbin Hfuel)
    as Hrun0.
  pose proof (NodeForPane_node_of (nodes w) (Some P2) t _ fuel Hrepr Hne Hbin Hfuel)
    as Hrun1.
  rewrite Hnode0 in Hrun0. rewrite Hnode1 in Hrun1.
  assert ((a0, Some P1) ∈ leaves t) as Hleaf0 by (rewrite Hk; set_solver).
  assert ((a1, Some P2) ∈ leaves t) as Hleaf1 by (rewrite Hm; set_solver).
  destruct (leaves_repr _ _ _ _ _ Hrepr Hwf Hleaf0) as (n0 & Hn0 & Hp0 & Hax0 & Hch0).
  destruct (leaves_repr _ _ _ _ _ Hrepr Hwf Hleaf1) as (n1 & Hn1 & Hp1 & Hax1 & Hch1).
  assert (a0 ≠ a1) as Hneq.
  { intros ->. rewrite Hn0 in Hn1. injection Hn1 as ->. congruence. }
  destruct (ExchangePick_run w a0 a1 n0 n1 P1 (Some P2) fuel Hfirst ltac:(congruence)
              Hrun0 Hrun1 Hn0 Hn1 Hneq)
    as (w1 & Hrun & Hnodes1 & Hpanes1 & Hfirst1 & Hhelp1 & Hroot1).
  rewrite Hp0, Hp1 in Hnodes1.
  set (s0 := leaf_with a0 n0 (Some P2)).
  set (s1 := leaf_with a1 n1 (Some P1)).
  set (t1 := graft a0 s0 t).
  set (h1 := <[a0 := with_Pane (Some P2) n0]> (nodes w)).
  assert (repr h1 (DisplayRoot w) t1) as Hrepr1.
  { apply (graft_repr (nodes w)); [done| |].
    - intros b Hb Hba. unfold h1. by rewrite lookup_insert_ne.
    - intros _. unfold s0, leaf_with, h1. simpl. rewrite lookup_insert_eq.
      unfold Children0, Children1. simpl. by rewrite Hch0. }
  assert (wf t1) as Hwf1.
  { apply graft_wf; [done|]. unfold s0, leaf_with. simpl. by left. }
  assert (NoDup (addrs t1)) as Hnd1.
  { apply graft_NoDup; [done| |].
    - unfold s0, leaf_with. simpl. apply NoDup_singleton.
    - unfold s0, leaf_with. simpl. intros x Hx. left. set_solver. }
  assert (leaves t1 = (k1 ++ (a0, Some P2) :: k2)%list) as Hk1.
  { unfold t1. rewrite (graft_leaves a0 (Some P1) s0 t k1 k2 Hwf Hnd Hk).
    unfold s0, leaf_with. simpl. by rewrite decide_True. }
  set (t2 := graft a1 s1 t1).
  assert (repr (nodes w1) (DisplayRoot w1) t2) as Hrepr2.
  { rewrite Hroot1, Hnodes1. apply (graft_repr h1); [done| |].
    - intros b Hb Hba. by rewrite lookup_insert_ne.
    - intros _. unfold s1, leaf_with. simpl. rewrite lookup_insert_eq.
      unfold Children0, Children1. simpl. by rewrite Hch1. }
  assert (wf t2) as Hwf2.
  { apply graft_wf; [done|]. unfold s1, leaf_with. simpl. by left. }
  assert (NoDup (addrs t2)) as Hnd2.
  { apply graft_NoDup; [done| |].
    - unfold s1, leaf_with. simpl. apply NoDup_singleton.
    - unfold s1, leaf_with. simpl. intros x Hx. left. set_solver. }
  assert (depth t2 ≤ depth t)%nat as Hdepth2.
  { pose proof (graft_depth a0 s0 t ltac:(simpl; lia) Hwf) as H0.
    pose proof (graft_depth a1 s1 t1 ltac:(simpl; lia) Hwf1) as H1.
    unfold t2, t1 in *. unfold s0, s1, leaf_with in *. simpl in *. lia. }
  assert ((a0, Some P1) ≠ (a1, Some P2)) as Hxy by congruence.
  pose proof Hk as Hboth. rewrite Hm in Hboth. symmetry in Hboth.
  destruct (two_splits _ _ _ _ _ _ Hboth Hxy) as [(m & Hk1' & Hm2)|(m & Hm1' & Hk2')].
  - (* the node of P2 comes first *)
    assert (leaves t2 = (m1 ++ (a1, Some P1) :: m ++ (a0, Some P2) :: k2)%list) as Hl2.
    { unfold t2.
      rewrite (graft_leaves a1 (Some P2) s1 t1 m1 (m ++ (a0, Some P2) :: k2) Hwf1 Hnd1).
      - unfold s1, leaf_with. simpl. by rewrite decide_True.
      - rewrite Hk1, Hk1'. by rewrite <- app_assoc. }
    exists t2, w1, m1.*2, m.*2, k2.*2, (Some P2), (Some P1).
    do 9 (split; [done|]).
    split; [by right|].
    rewrite !leaf_panes_leaves, Hl2, Hm, Hm2.
    rewrite !fmap_app. simpl. rewrite !fmap_app. simpl.
    split; [done|]. split; [done|].
    rewrite Hk1' in Hfirstk. rewrite fmap_app in Hfirstk. simpl in Hfirstk.
    split; [set_solver|]. split; [set_solver|]. done.
  - (* the node of P1 comes first *)
    assert (leaves t2 = (k1 ++ (a0, Some P2) :: m ++ (a1, Some P1) :: m2)%list) as Hl2.
    { unfold t2.
      rewrite (graft_leaves a1 (Some P2) s1 t1 (k1 ++ (a0, Some P2) :: m) m2 Hwf1 Hnd1).
      - unfold s1, leaf_with. simpl. rewrite decide_True by done.
        by rewrite <- app_assoc.
      - rewrite Hk1, Hk2'. by rewrite <- app_assoc. }
    exists t2, w1, k1.*2, m.*2, m2.*2, (Some P1), (Some P2).
    do 9 (split; [done|]).
    split; [by left|].
    rewrite !leaf_panes_leaves, Hl2, Hk, Hk2'.
    rewrite !fmap_app. simpl. rewrite !fmap_app. simpl.
    split; [done|]. split; [done|].
    rewrite Hm1' in Hfirstm. rewrite fmap_app in Hfirstm. simpl in Hfirstm.
    split; [set_solver|]. split; [set_solver|]. done.
Qed.

(** X8. The second click of Exchange on two different panes that leaves
    of a well-formed tree hold: the handler returns true, no pane object
    changes, the first pick and the help text are reset, and the store
    holds a well-formed tree again whose leaves are those of the old tree
    with the first leaf that holds the one pane and the first leaf that
    holds the other having traded their panes. *)
Theorem Exchange_swaps_leaves (w : World St) (t : Tree) (P1 P2 : PaneRef)
    (fuel : nat) :
  paneFirstPick w = Some P1 → P2 ≠ P1 →
  repr (nodes w) (DisplayRoot w) t → wf t → NoDup (addrs t) →
  Some P1 ∈ slots t → Some P2 ∈ slots t → (depth t ≤ fuel)%nat →
  ∃ (t' : Tree) (w1 : World St) (l1 l2 l3 : list Pane) (X Y : Pane),
    callPick fuel ExchangePick (Some P2) w = Ok (true, w1)
    ∧ panes w1 = panes w
    ∧ paneFirstPick w1 = None
    ∧ paneConfigHelpText w1 = ""
    ∧ DisplayRoot w1 = DisplayRoot w
    ∧ repr (nodes w1) (DisplayRoot w1) t'
    ∧ wf t'
    ∧ NoDup (addrs t')
    ∧ ((X = Some P1 ∧ Y = Some P2) ∨ (X = Some P2 ∧ Y = Some P1))
    ∧ leaf_panes t = (l1 ++ X :: l2 ++ Y :: l3)%list
    ∧ (X ∉ l1) ∧ (Y ∉ l1) ∧ (Y ∉ l2)
    ∧ leaf_panes t' = (l1 ++ Y :: l2 ++ X :: l3)%list.
Proof.
  intros Hfirst Hdiff Hrepr Hwf Hnd Hin1 Hin2 Hfuel.
  destruct (ExchangePick_tree w t P1 P2 fuel Hfirst Hdiff Hrepr Hwf Hnd Hin1 Hin2 Hfuel)
    as (t' & w1 & l1 & l2 & l3 & X & Y & ? & ? & ? & ? & ? & ? & ? & ? & _ & ?).
  by exists t', w1, l1, l2, l3, X, Y.
Qed.

End EditProperties.

Lemma Split_then_Delete_original_witness :
  repr (nodes Examples.world_two) (DisplayRoot Examples.world_two) Examples.tree_two
  ∧ wf Examples.tree_two
  ∧ NoDup (addrs Examples.tree_two)
  ∧ leaf_panes Examples.tree_two = ([Some Examples.radar] ++ Some Examples.strips :: [])%list
  ∧ (Some Examples.strips ∉ [Some Examples.radar])
  ∧ (Some Examples.strips ∉ @nil Pane)
  ∧ (SplitAxisX = SplitAxisX ∨ SplitAxisX = SplitAxisY)
  ∧ (S (depth Examples.tree_two) < 4)%nat
  ∧ ∃ (t2 : Tree) (w1 w2 : World Examples.SimplePane) (e : loc),
      callPick 4 (SplitPick SplitAxisX) (Some Examples.strips) Examples.world_two
      = Ok (true, w1)
      ∧ callPick 4 DeletePick (Some Examples.strips) w1 = Ok (true, w2)
      ∧ repr (nodes w2) (DisplayRoot w2) t2
      ∧ leaf_panes t2 = [Some Examples.radar; Some (PanePtr EmptyPane e)].
Proof.
  assert (repr (nodes Examples.world_two) (DisplayRoot Examples.world_two)
            Examples.tree_two) as Hrepr by tree_facts.
  assert (wf Examples.tree_two) as Hwf by wf_facts.
  assert (NoDup (addrs Examples.tree_two)) as Hnd by nodup_facts.
  assert (leaf_panes Examples.tree_two
          = ([Some Examples.radar] ++ Some Examples.strips :: [])%list) as Hl
    by reflexivity.
  assert (Some Examples.strips ∉ [Some Examples.radar]) as Hl1
    by (unfold Examples.strips, Examples.radar; set_solver).
  assert (Some Examples.strips ∉ @nil Pane) as Hl2 by set_solver.
  assert (SplitAxisX = SplitAxisX ∨ SplitAxisX = SplitAxisY) as Hax by (by left).
  assert (S (depth Examples.tree_two) < 4)%nat as Hfuel by (simpl; lia).
  do 8 (split; [assumption|]).
  destruct (Split_then_Delete_original Examples.world_two Examples.tree_two
              Examples.strips SplitAxisX 4 _ _ Hrepr Hwf Hnd Hl Hl1 Hl2 Hax Hfuel)
    as (t2 & w1 & w2 & e & Hsplit & _ & Hdelete & _ & Hrepr2 & _ & _ & Hleaves).
  by exists t2, w1, w2, e.
Defined.


Lemma Exchange_swaps_leaves_witness :
  paneFirstPick Examples.world_armed = Some Examples.radar
  ∧ Examples.strips ≠ Examples.radar
  ∧ repr (nodes Examples.world_armed) (DisplayRoot Examples.world_armed)
      Examples.tree_two
  ∧ wf Examples.tree_two
  ∧ NoDup (addrs Examples.tree_two)
  ∧ (Some Examples.radar ∈ slots Examples.tree_two)
  ∧ (Some Examples.strips ∈ slots Examples.tree_two)
  ∧ (depth Examples.tree_two ≤ 2)%nat
  ∧ ∃ (t' : Tree) (w1 : World Examples.SimplePane),
      callPick 2 ExchangePick (Some Examples.strips) Examples.world_armed
      = Ok (true, w1)
      ∧ repr (nodes w1) (DisplayRoot w1) t'
      ∧ leaf_panes t' = [Some Examples.strips; Some Examples.radar].
Proof.
  assert (paneFirstPick Examples.world_armed = Some Examples.radar)
    as Hfirst by reflexivity.
  assert (Examples.strips ≠ Examples.radar) as Hdiff by discriminate.
  assert (repr (nodes Examples.world_armed) (DisplayRoot Examples.world_armed)
            Examples.tree_two) as Hrepr by tree_facts.
  assert (wf Examples.tree_two) as Hwf by wf_facts.
  assert (NoDup (addrs Examples.tree_two)) as Hnd by nodup_facts.
  assert (Some Examples.radar ∈ slots Examples.tree_two) as Hin1
    by (simpl; set_solver).
  assert (Some Examples.strips ∈ slots Examples.tree_two) as Hin2
    by (simpl; set_solver).
  assert (depth Examples.tree_two ≤ 2)%nat as Hfuel by (simpl; lia).
  do 8 (split; [assumption|]).
  destruct (Exchange_swaps_leaves Examples.world_armed Examples.tree_two
              Examples.radar Examples.strips 2
              Hfirst Hdiff Hrepr Hwf Hnd Hin1 Hin2 Hfuel)
    as (t' & w1 & l1 & l2 & l3 & X & Y & Hrun & _ & _ & _ & _ & Hrepr' & _ & _
        & HXY & H1 & _ & _ & _ & H2).
  exists t', w1. split; [exact Hrun|]. split; [exact Hrepr'|].
  rewrite H2. clear -H1 HXY. simpl in H1.
  destruct l1 as [|x1 [|y1 l1]]; destruct l2 as [|x2 [|y2 l2]];
    destruct HXY as [[-> ->]|[-> ->]]; simplify_eq/=; try reflexivity;
    try (by destruct l1); try (by destruct l2).
Defined.

(** ** The keyboard focus stack *)

Section FocusStack.

Context {St : Type}.

Lemma take_then_release (s : WM St) (p : Pane) :
  focus s ≠ None → p ≠ focus s →
  wmReleaseKeyboardFocus (wmTakeKeyboardFocus p true s) = s
  ∧ focus (wmTakeKeyboardFocus p true s) = p.
Proof.
  intros Hcur Hp. unfold wmTakeKeyboardFocus.
  rewrite decide_False by done. simpl.
  rewrite bool_decide_true by done. simpl.
  split; [|done].
  unfold wmReleaseKeyboardFocus. simpl.
  rewrite length_app. simpl.
  rewrite decide_True by lia.
  replace (length (keyboardFocusStack s) + 1 - 1)%nat
    with (length (keyboardFocusStack s)) by lia.
  rewrite lookup_app_r by lia. rewrite Nat.sub_diag. simpl.
  rewrite take_app_length.
  destruct s as [w st sh nf nu mo]. unfold focus in *. simpl in *.
  destruct w. done.
Qed.

(** X9. Nested transient takes of the keyboard focus are undone in
    reverse by as many releases: when some pane has the focus and each
    pane of a list takes it in turn from another, non-nil one, releasing
    as many times as there were takes gives back the first state, focus
    and stack. *)
Theorem takes_then_releases_restore (s : WM St) (ps : list Pane) :
  takes_over (focus s) ps →
  release_times (length ps) (take_all ps s) = s.
Proof.
  revert s. induction ps as [|p ps IH]; intros s Hchain; [done|].
  destruct Hchain as (Hcur & Hp & Hchain).
  destruct (take_then_release s p Hcur Hp) as [Hrel Hfocus].
  unfold take_all, release_times in *. simpl.
  rewrite IH by (by rewrite Hfocus). done.
Qed.

(** X10. A take that is not transient drops the saved focuses: when
    the pane does not have the focus already, it has it afterwards, the
    stack is empty, and no number of releases changes anything. *)
Theorem take_for_good (s : WM St) (p : Pane) (n : nat) :
  p ≠ focus s →
  focus (wmTakeKeyboardFocus p false s) = p
  ∧ keyboardFocusStack (wmTakeKeyboardFocus p false s) = []
  ∧ release_times n (wmTakeKeyboardFocus p false s) = wmTakeKeyboardFocus p false s.
Proof.
  intros Hp. unfold wmTakeKeyboardFocus.
  rewrite decide_False by done. simpl.
  split; [done|]. split; [done|].
  induction n as [|n IH]; [done|].
  unfold release_times in *. simpl. rewrite IH. done.
Qed.

(** X11. A transient take while no pane has the focus saves nothing:
    with an empty stack, the release that follows leaves the focus with
    the pane that took it. *)
Theorem take_from_nil_is_kept (s : WM St) (p : Pane) :
  focus s = None → p ≠ None → keyboardFocusStack s = [] →
  focus (wmTakeKeyboardFocus p true s) = p
  ∧ wmReleaseKeyboardFocus (wmTakeKeyboardFocus p true s)
    = wmTakeKeyboardFocus p true s.
Proof.
  intros Hcur Hp Hstack. unfold wmTakeKeyboardFocus.
  rewrite decide_False by congruence. simpl.
  rewrite bool_decide_false by (intros Hx; by apply Hx).
  simpl. split; [done|].
  unfold wmReleaseKeyboardFocus. simpl. rewrite Hstack. done.
Qed.

End FocusStack.

Lemma takes_then_releases_restore_witness :
  takes_over (focus MoreExamples.wm_radar) [Some Examples.strips; None]
  ∧ release_times 2 (take_all [Some Examples.strips; None] MoreExamples.wm_radar)
    = MoreExamples.wm_radar.
Proof.
  assert (takes_over (focus MoreExamples.wm_radar) [Some Examples.strips; None])
    as Hchain by (simpl; repeat split; discriminate).
  split; [assumption|].
  exact (takes_then_releases_restore MoreExamples.wm_radar
           [Some Examples.strips; None] Hchain).
Defined.

Lemma take_for_good_witness :
  Some Examples.strips ≠ focus (wmTakeKeyboardFocus None true MoreExamples.wm_radar)
  ∧ keyboardFocusStack
      (wmTakeKeyboardFocus (Some Examples.strips) false
         (wmTakeKeyboardFocus None true MoreExamples.wm_radar)) = [].
Proof.
  split; [discriminate|].
  exact (proj1 (proj2 (take_for_good
                         (wmTakeKeyboardFocus None true MoreExamples.wm_radar)
                         (Some Examples.strips) 0 ltac:(discriminate)))).
Defined.

Lemma take_from_nil_is_kept_witness :
  focus (wmTakeKeyboardFocus None false MoreExamples.wm_radar) = None
  ∧ Some Examples.strips ≠ None
  ∧ keyboardFocusStack (wmTakeKeyboardFocus None false MoreExamples.wm_radar) = []
  ∧ focus (wmReleaseKeyboardFocus
             (wmTakeKeyboardFocus (Some Examples.strips) true
                (wmTakeKeyboardFocus None false MoreExamples.wm_radar)))
    = Some Examples.strips.
Proof.
  assert (focus (wmTakeKeyboardFocus None false MoreExamples.wm_radar) = None)
    as Hcur by reflexivity.
  assert (Some Examples.strips ≠ None) as Hp by discriminate.
  assert (keyboardFocusStack (wmTakeKeyboardFocus None false MoreExamples.wm_radar) = [])
    as Hstack by reflexivity.
  do 3 (split; [assumption|]).
  destruct (take_from_nil_is_kept _ (Some Examples.strips) Hcur Hp Hstack)
    as [Hfocus Hrel].
  rewrite Hrel. exact Hfocus.
Defined.

(** ** The mouse and the zoom *)

Section MouseProperties.

Context {St : Type} {Extent2D : Type}.
Variable Extent2D_Inside : Extent2D → Point → bool.
Variable Extent2D_SplitX : Extent2D → float32 → Z → Extent2D * Extent2D * Extent2D.
Variable Extent2D_SplitY : Extent2D → float32 → Z → Extent2D * Extent2D * Extent2D.
Variable splitLineWidth : Z.

#[local] Abbreviation find :=
  (findPaneForMouse (St:=St) Extent2D_Inside Extent2D_SplitX Extent2D_SplitY
     splitLineWidth).
#[local] Abbreviation layout :=
  (bounds_traversal Extent2D_SplitX Extent2D_SplitY splitLineWidth).
#[local] Abbreviation zoom :=
  (wmDrawPanes_zoom (St:=St) Extent2D_Inside Extent2D_SplitX Extent2D_SplitY
     splitLineWidth).
#[local] Abbreviation hit :=
  (hit (St:=St) Extent2D_Inside Extent2D_SplitX Extent2D_SplitY splitLineWidth).

Lemma findPaneForMouse_tree (p : Point) (t : Tree) :
  ∀ (node : option loc) (fuel : nat) (disp : Extent2D) (w : World St),
  repr (nodes w) node t → drawable t → (depth t ≤ fuel)%nat →
  ∃ r, find fuel node disp p w = Ok r ∧ hit t disp p w r.
Proof.
  induction t as [|a n l IHl r IHr]; [done|].
  intros node fuel disp w (-> & Ha & Hl & Hr) Hdraw Hfuel.
  destruct fuel as [|fuel]; simpl in Hfuel; [lia|].
  simpl.
  destruct (Extent2D_Inside disp p) eqn:Hin; simpl.
  2:{ exists (None, w). split; [done|]. by left. }
  unfold bind at 1. rewrite (load_ok w a n Ha).
  destruct (decide (Axis (node_SplitLine n) = SplitAxisNone)) as [Hleaf|Hsplit].
  { exists (node_Pane n, w). split; [done|]. right. right.
    split; [done|]. split; [done|]. intros fb pd full. exists fb, disp, pd.
    simpl. rewrite decide_True by done. split; [set_solver|done]. }
  destruct Hdraw as [Hax|(Hax & Hdl & Hdr)]; [done|].
  destruct (if decide (Axis (node_SplitLine n) = SplitAxisX)
            then Extent2D_SplitX disp (Pos (node_SplitLine n)) splitLineWidth
            else Extent2D_SplitY disp (Pos (node_SplitLine n)) splitLineWidth)
    as [[d0 ds] d1] eqn:Hsplits.
  (* the layout of this node, on any framebuffer extent *)
  assert (∀ fb pd full, ∃ f0 fs f1,
            layout (Node a n l r) fb disp pd full
            = (layout l f0 d0 disp full
               ++ (fs, ds, disp, full, Some (SplitLinePtr a))
               :: layout r f1 d1 disp full)%list) as Hlayout.
  { intros fb pd full. simpl. rewrite decide_False by done.
    destruct (decide (Axis (node_SplitLine n) = SplitAxisX)) as [HX|HX].
    - rewrite Hsplits.
      destruct (Extent2D_SplitX fb (Pos (node_SplitLine n)) splitLineWidth)
        as [[f0 fs] f1].
      by exists f0, fs, f1.
    - rewrite decide_True by (by destruct Hax).
      rewrite Hsplits.
      destruct (Extent2D_SplitY fb (Pos (node_SplitLine n)) splitLineWidth)
        as [[f0 fs] f1].
      by exists f0, fs, f1. }
  destruct (Extent2D_Inside d0 p) eqn:Hin0.
  { destruct (IHl (Children0 n) fuel d0 w Hl Hdl ltac:(lia)) as (x & Hrun & Hhit).
    exists x. split; [done|].
    destruct Hhit as [[Hout _]|[[_ ->]|(_ & Hw & Hmem)]]; [congruence| |].
    - right. by left.
    - right. right. split; [done|]. split; [done|]. intros fb pd full.
      destruct (Hlayout fb pd full) as (f0 & fs & f1 & ->).
      destruct (Hmem f0 disp full) as (fb' & de & pd' & Hx & Hde).
      exists fb', de, pd'. split; [set_solver|done]. }
  destruct (Extent2D_Inside ds p) eqn:Hins.
  { exists (Some (SplitLinePtr a), w). split; [done|]. right. right.
    split; [done|]. split; [done|]. intros fb pd full.
    destruct (Hlayout fb pd full) as (f0 & fs & f1 & ->).
    exists fs, ds, disp. split; [set_solver|done]. }
  destruct (Extent2D_Inside d1 p) eqn:Hin1.
  { destruct (IHr (Children1 n) fuel d1 w Hr Hdr ltac:(lia)) as (x & Hrun & Hhit).
    exists x. split; [done|].
    destruct Hhit as [[Hout _]|[[_ ->]|(_ & Hw & Hmem)]]; [congruence| |].
    - right. by left.
    - right. right. split; [done|]. split; [done|]. intros fb pd full.
      destruct (Hlayout fb pd full) as (f0 & fs & f1 & ->).
      destruct (Hmem f1 disp full) as (fb' & de & pd' & Hx & Hde).
      exists fb', de, pd'. split; [set_solver|done]. }
  exists (None, missed w). split; [done|]. right. by left.
Qed.

(** X12. The hit test agrees with the layout.  On a tree of the data
    model, [findPaneForMouse] returns; outside the display extent it
    returns nil; inside it returns either nil, after the log line of a
    point that no part of a split contains, or a pane or divider that
    [VisitPanesWithBounds] visits with a display extent that contains
    the point.  It changes nothing but the log. *)
Theorem findPaneForMouse_agrees_with_layout (p : Point) (t : Tree)
    (node : option loc) (fuel : nat) (disp : Extent2D) (w : World St) :
  repr (nodes w) node t → drawable t → (depth t ≤ fuel)%nat →
  ∃ (pane : Pane) (w' : World St),
    find fuel node disp p w = Ok (pane, w')
    ∧ ((Extent2D_Inside disp p = false ∧ pane = None ∧ w' = w)
       ∨ (Extent2D_Inside disp p = true ∧ pane = None ∧ w' = missed w)
       ∨ (Extent2D_Inside disp p = true ∧ w' = w
          ∧ ∀ fb pd full, ∃ fb' de pd',
              (fb', de, pd', full, pane) ∈ layout t fb disp pd full
              ∧ Extent2D_Inside de p = true)).
Proof.
  intros Hrepr Hdraw Hfuel.
  destruct (findPaneForMouse_tree p t node fuel disp w Hrepr Hdraw Hfuel)
    as ([pane w'] & Hrun & Hhit).
  exists pane, w'. split; [done|].
  destruct Hhit as [[Hout Hr]|[[Hin Hr]|(Hin & Hw & Hmem)]].
  - left. by injection Hr as -> ->.
  - right. left. by injection Hr as -> ->.
  - right. right. done.
Qed.

End MouseProperties.

Lemma findPaneForMouse_agrees_with_layout_witness :
  repr (nodes Examples.world_two) (Some 1%positive) Examples.tree_two
  ∧ drawable Examples.tree_two
  ∧ (depth Examples.tree_two ≤ 2)%nat
  ∧ ∃ (pane : Pane) (w' : World Examples.SimplePane),
      findPaneForMouse MoreExamples.inside Examples.halve Examples.halve 1 2
        (Some 1%positive) (0, 10) MoreExamples.at_six Examples.world_two
      = Ok (pane, w')
      ∧ ((MoreExamples.inside (0, 10) MoreExamples.at_six = false
          ∧ pane = None ∧ w' = Examples.world_two)
         ∨ (MoreExamples.inside (0, 10) MoreExamples.at_six = true
            ∧ pane = None ∧ w' = missed Examples.world_two)
         ∨ (MoreExamples.inside (0, 10) MoreExamples.at_six = true
            ∧ w' = Examples.world_two
            ∧ ∀ fb pd full, ∃ fb' de pd',
                (fb', de, pd', full, pane)
                  ∈ bounds_traversal Examples.halve Examples.halve 1
                      Examples.tree_two fb (0, 10) pd full
                ∧ MoreExamples.inside de MoreExamples.at_six = true)).
Proof.
  assert (repr (nodes Examples.world_two) (Some 1%positive) Examples.tree_two)
    as Hrepr by tree_facts.
  assert (drawable Examples.tree_two) as Hdraw by wf_facts.
  assert (depth Examples.tree_two ≤ 2)%nat as Hfuel by (simpl; lia).
  do 3 (split; [assumption|]).
  exact (findPaneForMouse_agrees_with_layout MoreExamples.inside Examples.halve
           Examples.halve 1 MoreExamples.at_six Examples.tree_two (Some 1%positive)
           2 (0, 10) Examples.world_two Hrepr Hdraw Hfuel).
Defined.

Section ZoomProperties.

Context {St : Type} `{!PaneImpl St} {Extent2D : Type}.
Variable Extent2D_Inside : Extent2D → Point → bool.
Variable Extent2D_SplitX : Extent2D → float32 → Z → Extent2D * Extent2D * Extent2D.
Variable Extent2D_SplitY : Extent2D → float32 → Z → Extent2D * Extent2D * Extent2D.
Variable splitLineWidth : Z.

#[local] Abbreviation find' :=
  (findPaneForMouse (St:=St) Extent2D_Inside Extent2D_SplitX Extent2D_SplitY
     splitLineWidth).
#[local] Abbreviation zoom' :=
  (wmDrawPanes_zoom (St:=St) Extent2D_Inside Extent2D_SplitX Extent2D_SplitY
     splitLineWidth).
#[local] Abbreviation draw' :=
  (wmDrawPanes_draw (St:=St) Extent2D_SplitX Extent2D_SplitY splitLineWidth).

Lemma findPaneForMouse_frame (p : Point) (t : Tree) (node : option loc) (fuel : nat)
    (disp : Extent2D) (w : World St) :
  repr (nodes w) node t → drawable t → (depth t ≤ fuel)%nat →
  ∃ pane w', find' fuel node disp p w = Ok (pane, w')
             ∧ nodes w' = nodes w ∧ DisplayRoot w' = DisplayRoot w.
Proof.
  intros Hrepr Hdraw Hfuel.
  destruct (findPaneForMouse_tree Extent2D_Inside Extent2D_SplitX Extent2D_SplitY
              splitLineWidth p t node fuel disp w Hrepr Hdraw Hfuel)
    as ([pane w'] & Hrun & Hhit).
  exists pane, w'. split; [done|].
  destruct Hhit as [[_ Hr]|[[_ Hr]|(_ & Hw & _)]].
  - by injection Hr as -> ->.
  - by injection Hr as -> ->.
  - simpl in Hw. by subst.
Qed.

(** X13. The zoom keeps the node filter and its flag in step.  On a
    tree of the data model, when the flag says unset exactly for the
    identity filter and a zoom filter holds a pane that is neither nil
    nor a divider, the zoom part of wmDrawPanes returns and the same
    holds afterwards; the zoom flag is flipped exactly when control-F is
    pressed and imgui does not want the keyboard; when the zoom flag is
    off afterwards the filter is the identity; and the tree is not
    changed. *)
Theorem zoom_keeps_filter (s : WM St) (t : Tree) (fuel : nat)
    (wantCaptureKeyboard controlFPressed : bool) (displayFull : Extent2D)
    (mousePos : Point) :
  repr (nodes (wm_world s)) (DisplayRoot (wm_world s)) t → drawable t →
  (depth t ≤ fuel)%nat → zoom_ok s →
  ∃ (mousePane : Pane) (s' : WM St),
    zoom' fuel wantCaptureKeyboard controlFPressed displayFull mousePos s
    = Ok (mousePane, s')
    ∧ zoom_ok s'
    ∧ showPaneAsRoot s'
      = xorb (showPaneAsRoot s) (negb wantCaptureKeyboard && controlFPressed)
    ∧ (showPaneAsRoot s' = false → nodeFilter s' = FilterIdentity)
    ∧ nodes (wm_world s') = nodes (wm_world s)
    ∧ DisplayRoot (wm_world s') = DisplayRoot (wm_world s).
Proof.
  intros Hrepr Hdraw Hfuel Hok.
  destruct (findPaneForMouse_frame mousePos t _ fuel displayFull (wm_world s)
              Hrepr Hdraw Hfuel) as (pane & w' & Hrun & Hnodes & Hroot).
  unfold wmDrawPanes_zoom.
  destruct s as [w stack zoomed nf unset mo]. simpl in *.
  destruct (negb wantCaptureKeyboard && controlFPressed); simpl;
    destruct zoomed; simpl; destruct unset; simpl;
    rewrite ?Hrun; simpl;
    try (destruct (negb (is_SplitLine pane) && bool_decide (pane ≠ None)) eqn:Hpane;
         simpl; rewrite ?Hrun; simpl);
    eexists _, _; (split; [reflexivity|]); simpl;
    unfold zoom_ok in *; simpl in *;
    repeat split; try done;
    try (by left);
    try (destruct Hok as [[? ?]|[? ?]]; (done || by left || by right)).
  all: try (right; split; [done|]; exists pane; split; [done|];
            apply andb_prop in Hpane as [H1 H2];
            apply negb_true_iff in H1; apply bool_decide_eq_true in H2; done).
  all: try (intros; destruct Hok as [[? ?]|[? ?]]; done).
Qed.

(** X14. While the zoom is on and its filter is set, and control-F is
    not pressed, the zoom part of wmDrawPanes finds no pane under the
    mouse and changes nothing, whatever the tree and the mouse position;
    so the hand-over of a click that follows calls no pick handler. *)
Theorem zoomed_ignores_clicks (s : WM St) (fuel : nat)
    (wantCaptureKeyboard controlFPressed clicked : bool) (displayFull : Extent2D)
    (mousePos : Point) :
  showPaneAsRoot s = true → nodeFilterUnset s = false →
  negb wantCaptureKeyboard && controlFPressed = false →
  zoom' fuel wantCaptureKeyboard controlFPressed displayFull mousePos s = Ok (None, s)
  ∧ wmDrawPanes_pick fuel clicked None (wm_world s) = Ok (tt, wm_world s).
Proof.
  intros Hzoom Hunset Hkey. split.
  - unfold wmDrawPanes_zoom. rewrite Hkey. rewrite Hzoom, Hunset. simpl.
    by rewrite Hzoom.
  - unfold wmDrawPanes_pick, bind, get, ret.
    destruct (handlePanePick (wm_world s)); [|done].
    by rewrite andb_false_r.
Qed.

(** X15. With the filter of a zoom on a pane, the traversal at the end
    of wmDrawPanes calls its callback once, on that pane with the full
    extents, after the filter has allocated a node for it; the tree is
    not read, so this holds for every root, nil included. *)
Theorem zoomed_draws_one_pane (s : WM St) (pane : Pane) (fuel : nat)
    (fbFull displayFull displayTrueFull : Extent2D)
    (visit : Extent2D → Extent2D → Extent2D → Extent2D → Pane
             → World St → result (World St)) :
  nodeFilter s = FilterPane pane → (0 < fuel)%nat →
  ∃ (a : loc),
    nodes (wm_world s) !! a = None
    ∧ draw' fuel fbFull displayFull displayTrueFull visit s
      = (w <- visit fbFull displayFull displayFull displayTrueFull pane
                (set_nodes (<[a := mkDisplayNode pane SplitLine_zero (None, None)]>
                              (nodes (wm_world s))) (wm_world s)) ;;
         Ok (set_wm_world w s)).
Proof.
  intros Hfilter Hfuel.
  exists (fresh (dom (nodes (wm_world s)))).
  split; [apply not_elem_of_dom, is_fresh|].
  destruct fuel as [|fuel]; [lia|].
  unfold wmDrawPanes_draw. rewrite Hfilter. simpl.
  unfold apply_nodeFilter, alloc_node, bind, ret. simpl.
  rewrite lookup_insert_eq. simpl. done.
Qed.

(** X16. While a mouse button stays down and imgui does not want the
    mouse, the override goes to the first pane that is not nil among the
    one it holds and the panes under the mouse of the frames, in order,
    and stays there: the pane of the click keeps the mouse when the drag
    leaves it. *)
Theorem override_sticks (s : WM St) (fs : list (bool * bool * Pane)) :
  Forall held fs →
  mouseConsumerOverride (override_frames fs s)
  = first_pane (mouseConsumerOverride s :: fs.*2).
Proof.
  revert s. induction fs as [|[[d c] mp] fs IH]; intros s Hheld.
  - simpl. by destruct (mouseConsumerOverride s).
  - apply Forall_cons in Hheld as [Hf Hheld]. simpl in Hf.
    unfold override_frames in *. simpl.
    rewrite IH by done. simpl.
    unfold wmDrawPanes_override. simpl.
    destruct d, c; try discriminate Hf; simpl;
      destruct (mouseConsumerOverride s) as [q|] eqn:Ho; simpl; rewrite ?Ho; done.
Qed.

End ZoomProperties.

Lemma zoom_keeps_filter_witness :
  repr (nodes (wm_world MoreExamples.wm_radar))
    (DisplayRoot (wm_world MoreExamples.wm_radar)) Examples.tree_two
  ∧ drawable Examples.tree_two
  ∧ (depth Examples.tree_two ≤ 2)%nat
  ∧ zoom_ok MoreExamples.wm_radar
  ∧ ∃ (mousePane : Pane) (s' : WM Examples.SimplePane),
      wmDrawPanes_zoom MoreExamples.inside Examples.halve Examples.halve 1 2
        false true (0, 10) MoreExamples.at_six MoreExamples.wm_radar
      = Ok (mousePane, s')
      ∧ zoom_ok s'
      ∧ showPaneAsRoot s' = true.
Proof.
  assert (repr (nodes (wm_world MoreExamples.wm_radar))
            (DisplayRoot (wm_world MoreExamples.wm_radar)) Examples.tree_two)
    as Hrepr by tree_facts.
  assert (drawable Examples.tree_two) as Hdraw by wf_facts.
  assert (depth Examples.tree_two ≤ 2)%nat as Hfuel by (simpl; lia).
  assert (zoom_ok MoreExamples.wm_radar) as Hok by (by left).
  do 4 (split; [assumption|]).
  destruct (zoom_keeps_filter MoreExamples.inside Examples.halve Examples.halve 1
              MoreExamples.wm_radar Examples.tree_two 2 false true (0, 10)
              MoreExamples.at_six Hrepr Hdraw Hfuel Hok)
    as (mousePane & s' & Hrun & Hok' & Hflag & _).
  exists mousePane, s'. split; [exact Hrun|]. split; [exact Hok'|]. exact Hflag.
Defined.

Lemma zoomed_ignores_clicks_witness :
  showPaneAsRoot MoreExamples.wm_zoomed = true
  ∧ nodeFilterUnset MoreExamples.wm_zoomed = false
  ∧ negb false && false = false
  ∧ wmDrawPanes_zoom MoreExamples.inside Examples.halve Examples.halve 1 2
      false false (0, 10) MoreExamples.at_six MoreExamples.wm_zoomed
    = Ok (None, MoreExamples.wm_zoomed).
Proof.
  do 3 (split; [reflexivity|]).
  exact (proj1 (zoomed_ignores_clicks MoreExamples.inside Examples.halve
                  Examples.halve 1 MoreExamples.wm_zoomed 2 false false true
                  (0, 10) MoreExamples.at_six eq_refl eq_refl eq_refl)).
Defined.

Lemma zoomed_draws_one_pane_witness :
  nodeFilter MoreExamples.wm_zoomed = FilterPane (Some Examples.strips)
  ∧ (0 < 1)%nat
  ∧ ∃ (a : loc),
      nodes (wm_world MoreExamples.wm_zoomed) !! a = None
      ∧ wmDrawPanes_draw Examples.halve Examples.halve 1 1 (0, 20) (0, 10) (0, 12)
          (λ _ _ _ _ p w, Ok (set_paneFirstPick p w)) MoreExamples.wm_zoomed
        = Ok (set_wm_world
                (set_paneFirstPick (Some Examples.strips)
                   (set_nodes
                      (<[a := mkDisplayNode (Some Examples.strips) SplitLine_zero
                                (None, None)]>
                         (nodes (wm_world MoreExamples.wm_zoomed)))
                      (wm_world MoreExamples.wm_zoomed)))
                MoreExamples.wm_zoomed).
Proof.
  split; [reflexivity|]. split; [lia|].
  destruct (zoomed_draws_one_pane Examples.halve Examples.halve 1
              MoreExamples.wm_zoomed (Some Examples.strips) 1 (0, 20) (0, 10) (0, 12)
              (λ _ _ _ _ p w, Ok (set_paneFirstPick p w)) eq_refl ltac:(lia))
    as (a & Ha & Hrun).
  exists a. split; [exact Ha|]. exact Hrun.
Defined.

Lemma override_sticks_witness :
  Forall held [(false, true, Some Examples.radar); (true, false, Some Examples.strips)]
  ∧ mouseConsumerOverride
      (override_frames
         [(false, true, Some Examples.radar); (true, false, Some Examples.strips)]
         MoreExamples.wm_radar)
    = Some Examples.radar.
Proof.
  assert (Forall held [(false, true, Some Examples.radar);
                       (true, false, Some Examples.strips)]) as Hheld
    by (repeat constructor).
  split; [assumption|].
  exact (override_sticks MoreExamples.wm_radar _ Hheld).
Defined.

(** ** Presence of a pane *)

Lemma slots_traversal (t : Tree) (p : Pane) :
  wf t → p ≠ None → p ∈ slots t → p ∈ traversal t.
Proof.
  intros Hwf Hp.
  induction t as [|a n l IHl r IHr]; simpl; [done|].
  destruct Hwf as [(Hax & Hn & -> & ->) | (Hax & Hn & Hl & Hr)].
  - rewrite decide_True by done. set_solver.
  - rewrite decide_False by (destruct Hax as [-> | ->]; done).
    intros [Hx|[Hx|Hx]%elem_of_app]%elem_of_cons.
    + congruence.
    + apply elem_of_app. left. by apply IHl.
    + apply elem_of_app. right. apply elem_of_cons. right. by apply IHr.
Qed.

Section Presence.

Context {St : Type} `{!PaneImpl St}.

(** X17. On a well-formed tree, [wmPaneIsPresent] and [NodeForPane]
    agree on panes: for a pane that is neither nil nor a divider, the
    one returns true exactly when the other returns a node.  For the nil
    pane [wmPaneIsPresent] returns false. *)
Theorem wmPaneIsPresent_agrees_with_NodeForPane (w : World St) (t : Tree)
    (P : PaneRef) (fuel : nat) :
  repr (nodes w) (DisplayRoot w) t → wf t → (depth t ≤ fuel)%nat →
  is_SplitLine (Some P) = false →
  (∃ (b : bool) (r : option loc),
     wmPaneIsPresent fuel (Some P) w = Ok (b, w)
     ∧ NodeForPane fuel (nodes w) (DisplayRoot w) (Some P) = Ok r
     ∧ (b = true ↔ r ≠ None))
  ∧ wmPaneIsPresent fuel None w = Ok (false, w).
Proof.
  intros Hrepr Hwf Hfuel Hsplit.
  pose proof (wf_visitable t Hwf) as Hvis.
  pose proof (wf_binary t Hwf) as Hbin.
  pose proof (wf_not_Nil t Hwf) as Hne.
  split.
  - exists (bool_decide (Some P ∈ traversal t)), (node_of (Some P) t).
    split; [by apply wmPaneIsPresent_tree|].
    split; [by apply NodeForPane_node_of|].
    rewrite bool_decide_eq_true. split.
    + intros Hin. destruct (traversal_wf t _ Hwf Hin) as [[a Ha]|[_ Hs]].
      * injection Ha as ->. discriminate Hsplit.
      * destruct (node_of_first _ _ Hs) as (a & n & pre & post & -> & _). done.
    + intros Hnode. apply slots_traversal; [done|done|].
      destruct (decide (Some P ∈ slots t)) as [Hs|Hs]; [done|].
      exfalso. apply Hnode. clear -Hs.
      induction t as [|b m l1 IH1 l2 IH2]; [done|].
      simpl in *. rewrite decide_False by set_solver.
      rewrite IH1 by set_solver. apply IH2. set_solver.
  - rewrite (wmPaneIsPresent_tree w t None fuel Hrepr Hvis Hfuel).
    rewrite bool_decide_false; [done|].
    intros Hin. destruct (traversal_wf t _ Hwf Hin) as [[a Ha]|[Hx _]]; done.
Qed.

End Presence.

Lemma wmPaneIsPresent_agrees_with_NodeForPane_witness :
  repr (nodes Examples.world_two) (DisplayRoot Examples.world_two) Examples.tree_two
  ∧ wf Examples.tree_two
  ∧ (depth Examples.tree_two ≤ 2)%nat
  ∧ is_SplitLine (Some Examples.radar') = false
  ∧ ∃ (b : bool) (r : option loc),
      wmPaneIsPresent 2 (Some Examples.radar') Examples.world_two
      = Ok (b, Examples.world_two)
      ∧ NodeForPane 2 (nodes Examples.world_two) (DisplayRoot Examples.world_two)
          (Some Examples.radar') = Ok r
      ∧ (b = true ↔ r ≠ None).
Proof.
  assert (repr (nodes Examples.world_two) (DisplayRoot Examples.world_two)
            Examples.tree_two) as Hrepr by tree_facts.
  assert (wf Examples.tree_two) as Hwf by wf_facts.
  assert (depth Examples.tree_two ≤ 2)%nat as Hfuel by (simpl; lia).
  assert (is_SplitLine (Some Examples.radar') = false) as Hsplit by reflexivity.
  do 4 (split; [assumption|]).
  exact (proj1 (wmPaneIsPresent_agrees_with_NodeForPane Examples.world_two
                  Examples.tree_two Examples.radar' 2 Hrepr Hwf Hfuel Hsplit)).
Defined.

(** ** Exchange, twice *)

Lemma NoDup_swap {A : Type} (x y : A) (l1 l2 l3 : list A) :
  NoDup (l1 ++ x :: l2 ++ y :: l3) → NoDup (l1 ++ y :: l2 ++ x :: l3).
Proof.
  intros H. eapply NoDup_Permutation_proper; [|exact H]. solve_Permutation.
Qed.

Lemma NoDup_split_unique {A : Type} (x : A) (k1 k2 m1 m2 : list A) :
  NoDup (k1 ++ x :: k2) → (k1 ++ x :: k2 = m1 ++ x :: m2)%list →
  k1 = m1 ∧ k2 = m2.
Proof.
  revert m1. induction k1 as [|a k1 IH]; intros m1 Hnd Heq.
  - destruct m1 as [|b m1]; simpl in Heq.
    + by injection Heq as ->.
    + injection Heq as -> ->. simpl in Hnd.
      apply NoDup_cons in Hnd as [Hx _]. set_solver.
  - destruct m1 as [|b m1]; simpl in Heq.
    + injection Heq as -> _. simpl in Hnd.
      apply NoDup_cons in Hnd as [Hx _]. set_solver.
    + injection Heq as -> Heq. simpl in Hnd.
      apply NoDup_cons in Hnd as [_ Hnd].
      destruct (IH m1 Hnd Heq) as [-> ->]. done.
Qed.

Lemma swap_back {A : Type} (x y x' y' : A) (l1 l2 l3 l1' l2' l3' : list A) :
  NoDup (l1 ++ x :: l2 ++ y :: l3) →
  (l1 ++ y :: l2 ++ x :: l3 = l1' ++ x' :: l2' ++ y' :: l3')%list →
  (x' = x ∧ y' = y) ∨ (x' = y ∧ y' = x) →
  (l1' ++ y' :: l2' ++ x' :: l3' = l1 ++ x :: l2 ++ y :: l3)%list.
Proof.
  intros Hnd Heq Hxy.
  pose proof (NoDup_swap _ _ _ _ _ Hnd) as Hnd'.
  destruct Hxy as [[-> ->]|[-> ->]].
  - exfalso.
    replace (l1' ++ x :: l2' ++ y :: l3')%list
      with ((l1' ++ x :: l2') ++ y :: l3')%list in Heq
      by (by rewrite <- app_assoc).
    destruct (NoDup_split_unique _ _ _ _ _ Hnd' Heq) as [-> _].
    rewrite <- app_assoc in Hnd. simpl in Hnd.
    apply NoDup_app in Hnd as (_ & _ & Hnd).
    apply NoDup_cons in Hnd as [Hx _]. set_solver.
  - destruct (NoDup_split_unique _ _ _ _ _ Hnd' Heq) as [-> Htail].
    apply NoDup_app in Hnd' as (_ & _ & Hnd').
    apply NoDup_cons in Hnd' as [_ Hnd'].
    destruct (NoDup_split_unique _ _ _ _ _ Hnd' Htail) as [-> ->]. done.
Qed.

Section ExchangeTwice.

Context {St : Type} `{!PaneImpl St}.

(** The first click of Exchange. *)
Lemma ExchangePick_first (w : World St) (p : Pane) (fuel : nat) :
  paneFirstPick w = None →
  ∃ w', callPick fuel ExchangePick p w = Ok (false, w')
        ∧ nodes w' = nodes w ∧ DisplayRoot w' = DisplayRoot w
        ∧ paneFirstPick w' = p.
Proof.
  intros Hfirst. eexists. split.
  { unfold callPick, bind, get, modify, ret. rewrite Hfirst. simpl. reflexivity. }
  done.
Qed.

(** X18. Exchange is undone by a second Exchange of the same two
    panes.  On a well-formed tree in which no pane is in two leaves,
    with [P1] picked first: the click on [P2] swaps them; a click on
    [P1] is then a first pick again; and the click on [P2] that follows
    leaves a well-formed tree with the leaves of the tree before the
    first swap, in the same order. *)
Theorem Exchange_twice_restores (w : World St) (t : Tree) (P1 P2 : PaneRef)
    (fuel : nat) :
  paneFirstPick w = Some P1 → P2 ≠ P1 →
  repr (nodes w) (DisplayRoot w) t → wf t → NoDup (addrs t) →
  NoDup (leaf_panes t) →
  Some P1 ∈ slots t → Some P2 ∈ slots t → (depth t ≤ fuel)%nat →
  ∃ (t1 t2 : Tree) (w1 w1' w2 : World St),
    callPick fuel ExchangePick (Some P2) w = Ok (true, w1)
    ∧ repr (nodes w1) (DisplayRoot w1) t1
    ∧ callPick fuel ExchangePick (Some P1) w1 = Ok (false, w1')
    ∧ callPick fuel ExchangePick (Some P2) w1' = Ok (true, w2)
    ∧ repr (nodes w2) (DisplayRoot w2) t2
    ∧ wf t2
    ∧ leaf_panes t2 = leaf_panes t.
Proof.
  intros Hfirst Hdiff Hrepr Hwf Hnd Hleaves Hin1 Hin2 Hfuel.
  destruct (ExchangePick_tree w t P1 P2 fuel Hfirst Hdiff Hrepr Hwf Hnd Hin1 Hin2 Hfuel)
    as (t1 & w1 & l1 & l2 & l3 & X & Y & Hrun1 & _ & Hfirst1 & _ & Hroot1 & Hrepr1
        & Hwf1 & Hnd1 & Hdepth1 & HXY & Ht & _ & _ & _ & Ht1).
  destruct (ExchangePick_first w1 (Some P1) fuel Hfirst1)
    as (w1' & Hclick & Hnodes1' & Hroot1' & Hfirst1').
  assert (repr (nodes w1') (DisplayRoot w1') t1) as Hrepr1'
    by (by rewrite Hnodes1', Hroot1').
  assert (Some P1 ∈ slots t1 ∧ Some P2 ∈ slots t1) as [Hin1' Hin2'].
  { split; apply leaf_panes_slots; rewrite Ht1;
      destruct HXY as [[-> ->]|[-> ->]]; set_solver. }
  destruct (ExchangePick_tree w1' t1 P1 P2 fuel Hfirst1' Hdiff Hrepr1' Hwf1 Hnd1
              Hin1' Hin2' ltac:(lia))
    as (t2 & w2 & l1' & l2' & l3' & X' & Y' & Hrun2 & _ & _ & _ & _ & Hrepr2
        & Hwf2 & _ & _ & HXY' & Ht1' & _ & _ & _ & Ht2).
  exists t1, t2, w1, w1', w2.
  do 6 (split; [done|]).
  rewrite Ht2, Ht. rewrite Ht in Hleaves. rewrite Ht1 in Ht1'.
  apply (swap_back X Y X' Y'); [done|done|].
  destruct HXY as [[-> ->]|[-> ->]]; destruct HXY' as [[-> ->]|[-> ->]]; auto.
Qed.

End ExchangeTwice.

Lemma Exchange_twice_restores_witness :
  paneFirstPick Examples.world_armed = Some Examples.radar
  ∧ Examples.strips ≠ Examples.radar
  ∧ repr (nodes Examples.world_armed) (DisplayRoot Examples.world_armed)
      Examples.tree_two
  ∧ wf Examples.tree_two
  ∧ NoDup (addrs Examples.tree_two)
  ∧ NoDup (leaf_panes Examples.tree_two)
  ∧ (Some Examples.radar ∈ slots Examples.tree_two)
  ∧ (Some Examples.strips ∈ slots Examples.tree_two)
  ∧ (depth Examples.tree_two ≤ 2)%nat
  ∧ ∃ (t2 : Tree) (w1 w1' w2 : World Examples.SimplePane),
      callPick 2 ExchangePick (Some Examples.strips) Examples.world_armed
      = Ok (true, w1)
      ∧ callPick 2 ExchangePick (Some Examples.radar) w1 = Ok (false, w1')
      ∧ callPick 2 ExchangePick (Some Examples.strips) w1' = Ok (true, w2)
      ∧ repr (nodes w2) (DisplayRoot w2) t2
      ∧ leaf_panes t2 = [Some Examples.radar; Some Examples.strips].
Proof.
  assert (paneFirstPick Examples.world_armed = Some Examples.radar)
    as Hfirst by reflexivity.
  assert (Examples.strips ≠ Examples.radar) as Hdiff by discriminate.
  assert (repr (nodes Examples.world_armed) (DisplayRoot Examples.world_armed)
            Examples.tree_two) as Hrepr by tree_facts.
  assert (wf Examples.tree_two) as Hwf by wf_facts.
  assert (NoDup (addrs Examples.tree_two)) as Hnd by nodup_facts.
  assert (NoDup (leaf_panes Examples.tree_two)) as Hleaves
    by (unfold Examples.tree_two, Examples.radar, Examples.strips; nodup_facts).
  assert (Some Examples.radar ∈ slots Examples.tree_two) as Hin1
    by (simpl; set_solver).
  assert (Some Examples.strips ∈ slots Examples.tree_two) as Hin2
    by (simpl; set_solver).
  assert (depth Examples.tree_two ≤ 2)%nat as Hfuel by (simpl; lia).
  do 9 (split; [assumption|]).
  destruct (Exchange_twice_restores Examples.world_armed Examples.tree_two
              Examples.radar Examples.strips 2
              Hfirst Hdiff Hrepr Hwf Hnd Hleaves Hin1 Hin2 Hfuel)
    as (t1 & t2 & w1 & w1' & w2 & Hrun1 & _ & Hclick & Hrun2 & Hrepr2 & _ & Hl).
  exists t2, w1, w1', w2.
  do 4 (split; [assumption|]). exact Hl.
Defined.

(** ** The buttons of the config editor *)

Section ButtonProperties.

Context {St : Type} `{!PaneImpl St}.

#[local] Abbreviation continue name b r :=
  (match r with
   | Ok (drawn, w') => Ok (if b then name :: drawn else drawn, w')
   | Panic => Panic
   | OutOfFuel => OutOfFuel
   end).

(** One round of the loop of [Draw] for a button that is not pressed. *)
Lemma Draw_from_skip (m : ModalButtonSet) (pressed : string → bool) (i : nat)
    (name : string) (rest : list string) (w : World St) (shw : M bool) (b : bool) :
  show m !! i = Some shw → shw w = Ok (b, w) → pressed name = false →
  Draw_from m pressed i (name :: rest) w
  = continue name b (Draw_from m pressed (S i) rest w).
Proof.
  intros Hi Hshw Hp. simpl. unfold bind at 1. unfold index. rewrite Hi.
  unfold bind at 1. rewrite Hshw. rewrite Hp.
  destruct b; simpl.
  - unfold bind at 1. unfold get. unfold bind at 1.
    case_decide; simpl; unfold bind, ret;
      by destruct (Draw_from m _ (S i) rest w) as [[??]| |].
  - by destruct (Draw_from m _ (S i) rest w) as [[??]| |].
Qed.

(** The round for a button that is shown, not active, and pressed. *)
Lemma Draw_from_arm (m : ModalButtonSet) (pressed : string → bool) (i : nat)
    (name : string) (rest : list string) (w w0 : World St) (shw : M bool)
    (cb : M PickHandler) (h : PickHandler) :
  show m !! i = Some shw → shw w = Ok (true, w) → pressed name = true →
  active w ≠ name → callbacks m !! i = Some cb →
  cb (set_paneFirstPick None (set_active name w)) = Ok (h, w0) →
  Draw_from m pressed i (name :: rest) w
  = continue name true
      (Draw_from m pressed (S i) rest (set_handlePanePick (Some (ButtonPick h)) w0)).
Proof.
  intros Hi Hshw Hp Hactive Hcb Hrun. simpl. unfold bind at 1. unfold index.
  rewrite Hi. unfold bind at 1. rewrite Hshw. rewrite Hp. simpl.
  unfold bind at 1. unfold get. unfold bind at 1.
  rewrite decide_False by done.
  unfold bind at 1. unfold bind at 1. unfold modify at 1.
  unfold bind at 1. unfold modify at 1.
  unfold bind at 1. rewrite Hcb.
  unfold bind at 1. rewrite Hrun.
  unfold modify, bind, ret. simpl.
  by destruct (Draw_from m _ (S i) rest _) as [[??]| |].
Qed.

(** The round for the active button, pressed again. *)
Lemma Draw_from_disarm (m : ModalButtonSet) (pressed : string → bool) (i : nat)
    (name : string) (rest : list string) (w : World St) (shw : M bool) :
  show m !! i = Some shw → shw w = Ok (true, w) → pressed name = true →
  active w = name →
  Draw_from m pressed i (name :: rest) w
  = continue name true
      (Draw_from m pressed (S i) rest (set_active "" (set_handlePanePick None w))).
Proof.
  intros Hi Hshw Hp Hactive. simpl. unfold bind at 1. unfold index.
  rewrite Hi. unfold bind at 1. rewrite Hshw. rewrite Hp. simpl.
  unfold bind at 1. unfold get. unfold bind at 1.
  rewrite decide_True by done.
  unfold modify, bind, ret. simpl.
  by destruct (Draw_from m _ (S i) rest _) as [[??]| |].
Qed.

Lemma show_if_split_true (w : World St) (root : loc) (n : DisplayNode) :
  DisplayRoot w = Some root → nodes w !! root = Some n → Children0 n ≠ None →
  show_if_split w = Ok (true, w).
Proof.
  intros Hroot Hn Hc. unfold show_if_split, bind, get, load, lift, ret. simpl.
  rewrite Hroot. simpl. rewrite Hn. simpl. by rewrite bool_decide_true.
Qed.

(** A round of [Draw] over the buttons of wmInit, on a tree whose root
    is split. *)
Ltac draw_round Hroot Hn Hc :=
  first
    [ erewrite Draw_from_skip;
      [ | reflexivity
        | first [ reflexivity | by eapply show_if_split_true ]
        | reflexivity ]
    | erewrite Draw_from_arm;
      [ | reflexivity
        | first [ reflexivity | by eapply show_if_split_true ]
        | reflexivity | done | reflexivity | reflexivity ]
    | erewrite Draw_from_disarm;
      [ | reflexivity
        | first [ reflexivity | by eapply show_if_split_true ]
        | reflexivity | reflexivity ] ].

(** X19. Pressing a button of the config editor twice.  On a tree whose
    root is split, a press of a button of wmInit that is not the active
    one draws all five buttons, makes it the active one, forgets the
    first pick, sets its prompt as help text and arms a pick handler; a
    second press draws them again, disarms the handler and clears the
    active button, and leaves the prompt of the button as help text.
    The tree is not changed. *)
Theorem press_twice_disarms (w : World St) (root : loc) (n : DisplayNode)
    (i : nat) (name : string) :
  DisplayRoot w = Some root → nodes w !! root = Some n → Children0 n ≠ None →
  names (@wmInit_configButtons St) !! i = Some name →
  active w ≠ name →
  ∃ (w1 w2 : World St) (h : PickHandler),
    ModalButtonSet_Draw wmInit_configButtons (λ x, bool_decide (x = name)) w
    = Ok (names (@wmInit_configButtons St), w1)
    ∧ active w1 = name
    ∧ handlePanePick w1 = Some (ButtonPick h)
    ∧ paneFirstPick w1 = None
    ∧ paneConfigHelpText w1 ≠ ""
    ∧ ModalButtonSet_Draw wmInit_configButtons (λ x, bool_decide (x = name)) w1
      = Ok (names (@wmInit_configButtons St), w2)
    ∧ active w2 = ""
    ∧ handlePanePick w2 = None
    ∧ paneConfigHelpText w2 = paneConfigHelpText w1
    ∧ nodes w2 = nodes w
    ∧ DisplayRoot w2 = DisplayRoot w.
Proof.
  intros Hroot Hn Hc Hname Hactive.
  unfold ModalButtonSet_Draw.
  change (names wmInit_configButtons)
    with ["Copy"; "Exchange"; "Split Horizontally"; "Split Vertically"; "Delete"]
    in *.
  destruct i as [|[|[|[|[|i]]]]]; simpl in Hname; [..|done];
    injection Hname as <-.
  all: eexists _, _, _.
  all: split; [do 5 draw_round Hroot Hn Hc; simpl; reflexivity|].
  all: do 4 (split; [done|]).
  all: split; [do 5 draw_round Hroot Hn Hc; simpl; reflexivity|].
  all: done.
Qed.

End ButtonProperties.

Lemma press_twice_disarms_witness :
  DisplayRoot Examples.world_two = Some 1%positive
  ∧ nodes Examples.world_two !! 1%positive
    = Some (Examples.split SplitAxisX 2%positive 3%positive)
  ∧ Children0 (Examples.split SplitAxisX 2%positive 3%positive) ≠ None
  ∧ names (@wmInit_configButtons Examples.SimplePane) !! 4%nat = Some "Delete"
  ∧ active Examples.world_two ≠ "Delete"
  ∧ ∃ (w1 w2 : World Examples.SimplePane),
      ModalButtonSet_Draw wmInit_configButtons (λ x, bool_decide (x = "Delete"))
        Examples.world_two
      = Ok (names (@wmInit_configButtons Examples.SimplePane), w1)
      ∧ handlePanePick w1 = Some (ButtonPick DeletePick)
      ∧ ModalButtonSet_Draw wmInit_configButtons (λ x, bool_decide (x = "Delete")) w1
        = Ok (names (@wmInit_configButtons Examples.SimplePane), w2)
      ∧ handlePanePick w2 = None
      ∧ paneConfigHelpText w2 = "Select window to delete".
Proof.
  assert (DisplayRoot Examples.world_two = Some 1%positive) as Hroot by reflexivity.
  assert (nodes Examples.world_two !! 1%positive
          = Some (Examples.split SplitAxisX 2%positive 3%positive)) as Hn
    by (vm_compute; reflexivity).
  assert (Children0 (Examples.split SplitAxisX 2%positive 3%positive) ≠ None) as Hc
    by discriminate.
  assert (names (@wmInit_configButtons Examples.SimplePane) !! 4%nat = Some "Delete")
    as Hname by reflexivity.
  assert (active Examples.world_two ≠ "Delete") as Hactive by discriminate.
  do 5 (split; [assumption|]).
  destruct (press_twice_disarms Examples.world_two 1%positive _ 4 "Delete"
              Hroot Hn Hc Hname Hactive)
    as (w1 & w2 & h & Hrun1 & _ & Hh & _ & _ & Hrun2 & _ & Hh2 & Hhelp & _).
  exists w1, w2. split; [exact Hrun1|].
  assert (Some (ButtonPick h) = Some (ButtonPick DeletePick)
          ∧ paneConfigHelpText w1 = "Select window to delete") as [Hh' Hhelp'].
  { vm_compute in Hrun1. injection Hrun1 as <-. vm_compute in Hh. rewrite <- Hh.
    split; reflexivity. }
  split; [by rewrite Hh|]. split; [exact Hrun2|]. split; [exact Hh2|].
  by rewrite Hhelp.
Defined.

(** ** Loading a saved tree *)

Section LoadProperties.

Context {St : Type} `{!PaneImpl St}.
Context {RawMessage error : Type}.
Variable Unmarshal_map : RawMessage → decoded error (gmap string (option RawMessage)).
Variable Unmarshal_string : RawMessage → string → decoded error string.
Variable Unmarshal_SplitLine : RawMessage → SplitLine → decoded error SplitLine.
Variable Unmarshal_array : RawMessage → decoded error (list (option RawMessage)).
Variable Unmarshal_pane : PaneType → RawMessage → St → decoded error St.

#[local] Abbreviation Unmarshal' :=
  (UnmarshalJSON Unmarshal_map Unmarshal_string Unmarshal_SplitLine
     Unmarshal_array Unmarshal_pane).
#[local] Abbreviation saved' :=
  (saved Unmarshal_map Unmarshal_string Unmarshal_SplitLine
     Unmarshal_array Unmarshal_pane).
#[local] Abbreviation loads' :=
  (loads Unmarshal_map Unmarshal_string Unmarshal_SplitLine
     Unmarshal_array Unmarshal_pane).

Lemma loaded_mono (w w' : World St) (T : Saved St) :
  panes w ⊆ panes w' → ∀ t, loaded w T t → loaded w' T t.
Proof.
  intros Hsub. induction T as [|ty sl p c0 IH0 c1 IH1]; intros [|a n l r]; simpl;
    try done.
  intros (Hsl & Hp & Hl & Hr). split; [done|]. split; [|split; auto].
  destruct p as [[pty st]|]; [|done]. destruct Hp as (e & -> & He).
  exists e. split; [done|]. by eapply lookup_weaken.
Qed.

Lemma grows_trans (w w1 w2 : World St) (d : loc) :
  grows w w1 d → grows w1 w2 d → grows w w2 d.
Proof.
  intros (Hn1 & Hp1 & Hd1) (Hn2 & Hp2 & Hd2). split; [|split].
  - intros b Hb Hsome. rewrite Hn2; [by apply Hn1|done|]. rewrite Hn1; done.
  - by etrans.
  - auto.
Qed.

Lemma grows_store (w : World St) (d : loc) (n : DisplayNode) :
  grows w (set_nodes (<[d := n]> (nodes w)) w) d.
Proof.
  split; [|split]; simpl.
  - intros b Hb _. by rewrite lookup_insert_ne.
  - done.
  - intros b Hb. destruct (decide (b = d)) as [->|Hne].
    + rewrite lookup_insert_eq. by eexists.
    + by rewrite lookup_insert_ne.
Qed.

(** [switch paneType] on a node whose slot is nil. *)
Lemma Unmarshal_Pane_run (d : loc) (m : gmap string (option RawMessage))
    (ty : string) (p : option (PaneType * St)) (w : World St) (n : DisplayNode) :
  nodes w !! d = Some n → node_Pane n = None → pane_saved Unmarshal_pane m ty p →
  ∃ w' slot,
    Unmarshal_Pane Unmarshal_pane (Some d) m ty w = Ok (None, w')
    ∧ nodes w' !! d = Some (with_Pane slot n)
    ∧ pane_loaded w' p slot
    ∧ grows w w' d.
Proof.
  intros Hd Hnil [[-> ->]|[(pty & rP & st & Hknown & HrP & Hdec & ->)
                          |(Hne & Hunknown & ->)]];
    unfold Unmarshal_Pane.
  - exists w, None. rewrite decide_True by done.
    split; [done|]. split.
    { rewrite Hd. f_equal. destruct n. simpl in *. by subst. }
    split; [done|]. split; [done|]. split; [done|]. done.
  - assert (ty ≠ "") as Hne by (intros ->; discriminate Hknown).
    rewrite decide_False by done. rewrite Hknown.
    set (a := fresh (dom (panes w))).
    assert (panes w !! a = None) as Ha by apply not_elem_of_dom, is_fresh.
    eexists _, (Some (PanePtr pty a)).
    split.
    { unfold bind, alloc_pane, member, modify, store, ret. simpl.
      rewrite HrP. rewrite Hdec. simpl. rewrite Hd. reflexivity. }
    simpl. split; [by rewrite lookup_insert_eq|].
    split. { exists a. split; [done|]. by rewrite lookup_insert_eq. }
    split; [|split].
    + intros b Hb _. simpl. by rewrite lookup_insert_ne.
    + simpl. rewrite insert_insert_eq. by apply insert_subseteq.
    + intros b Hb. simpl. destruct (decide (b = d)) as [->|Hbd].
      * rewrite lookup_insert_eq. by eexists.
      * by rewrite lookup_insert_ne.
  - rewrite decide_False by done. rewrite Hunknown.
    set (a := fresh (dom (panes w))).
    assert (panes w !! a = None) as Ha by apply not_elem_of_dom, is_fresh.
    eexists _, (Some (PanePtr EmptyPane a)).
    split.
    { unfold bind, logErrorf, modify, NewEmptyPane, alloc_pane, store, ret. simpl.
      rewrite Hd. reflexivity. }
    simpl. split; [by rewrite lookup_insert_eq|].
    split. { exists a. split; [done|]. by rewrite lookup_insert_eq. }
    split; [|split].
    + intros b Hb _. simpl. by rewrite lookup_insert_ne.
    + simpl. by apply insert_subseteq.
    + intros b Hb. simpl. destruct (decide (b = d)) as [->|Hbd].
      * rewrite lookup_insert_eq. by eexists.
      * by rewrite lookup_insert_ne.
Qed.

(** One element of the children array, into a node whose child is
    nil. *)
Lemma Unmarshal_child_run
    (rec : option loc → RawMessage → M (St:=St) (option error))
    (d : loc) (first : bool) (e : option (option RawMessage)) (c : Saved St)
    (w : World St) (n : DisplayNode) :
  nodes w !! d = Some n →
  (if first then Children0 n else Children1 n) = None →
  saved' e c → loads' rec c →
  ∃ w' tc,
    Unmarshal_child rec (Some d) first e w = Ok (None, w')
    ∧ nodes w' !! d
      = Some ((if first then with_Children0 (tree_root tc)
               else with_Children1 (tree_root tc)) n)
    ∧ repr (nodes w') (tree_root tc) tc
    ∧ loaded w' c tc
    ∧ grows w w' d
    ∧ (∀ a, a ∈ addrs tc → nodes w !! a = None).
Proof.
  intros Hd Hnil Hsaved Hloads.
  destruct c as [|ty sl p c0 c1].
  - (* a missing or null element *)
    exists (set_nodes
              (<[d := (if first then with_Children0 None else with_Children1 None) n]>
                 (nodes w)) w), Nil.
    split.
    { unfold Unmarshal_child.
      destruct Hsaved as [-> | ->]; unfold bind, store, ret; rewrite Hd;
        by destruct first. }
    simpl. split; [by rewrite lookup_insert_eq; destruct first|].
    split; [done|]. split; [done|].
    split; [apply grows_store|]. intros a Ha. by apply elem_of_nil in Ha.
  - (* a node record *)
    pose proof Hsaved as (s & m & rT & rS & rC & elems & -> & _).
    set (c := fresh (dom (nodes w))).
    assert (nodes w !! c = None) as Hc by apply not_elem_of_dom, is_fresh.
    assert (c ≠ d) as Hcd by congruence.
    set (n' := (if first then with_Children0 (Some c) else with_Children1 (Some c)) n).
    set (w2 := set_nodes (<[d := n']> (<[c := DisplayNode_zero]> (nodes w))) w).
    assert (nodes w2 !! c = Some DisplayNode_zero) as Hc2.
    { unfold w2. simpl. rewrite lookup_insert_ne by done. by rewrite lookup_insert_eq. }
    destruct (Hloads s c w2 Hsaved Hc2) as (w' & t & Hrun & Hrepr & Hloaded & Hgrows & Hnew).
    exists w', t.
    assert (tree_root t = Some c) as Hroot.
    { destruct t as [|a na l r]; simpl in Hrepr; [done|]. simpl. symmetry.
      apply Hrepr. }
    rewrite Hroot. fold n'.
    destruct Hgrows as (Hn & Hp & Hdom).
    split.
    { unfold Unmarshal_child. unfold bind at 1. rewrite (load_ok w d n Hd).
      rewrite Hnil. unfold bind at 1. unfold alloc_node. fold c.
      unfold bind at 1. unfold store. simpl.
      rewrite lookup_insert_ne by done. rewrite Hd.
      destruct first; exact Hrun. }
    split.
    { rewrite Hn; [|done|].
      - unfold w2. simpl. by rewrite lookup_insert_eq.
      - unfold w2. simpl. rewrite lookup_insert_eq. by eexists. }
    split; [done|]. split; [done|].
    split; [split; [|split]|].
    + intros b Hb Hsome. rewrite Hn.
      * unfold w2. simpl. rewrite lookup_insert_ne by done.
        rewrite lookup_insert_ne; [done|]. intros ->. rewrite Hc in Hsome.
        by destruct Hsome.
      * intros ->. rewrite Hc in Hsome. by destruct Hsome.
      * unfold w2. simpl. rewrite lookup_insert_ne by done.
        rewrite lookup_insert_ne; [done|]. intros ->. rewrite Hc in Hsome.
        by destruct Hsome.
    + done.
    + intros b Hsome. apply Hdom. unfold w2. simpl.
      destruct (decide (b = d)) as [->|Hbd].
      * rewrite lookup_insert_eq. by eexists.
      * rewrite lookup_insert_ne by done.
        destruct (decide (b = c)) as [->|Hbc].
        -- rewrite lookup_insert_eq. by eexists.
        -- by rewrite lookup_insert_ne.
    + intros a Ha. destruct (Hnew a Ha) as [->|Hnone]; [done|].
      unfold w2 in Hnone. simpl in Hnone.
      destruct (decide (a = d)) as [->|Had].
      * by rewrite lookup_insert_eq in Hnone.
      * rewrite lookup_insert_ne in Hnone by done.
        destruct (decide (a = c)) as [->|Hac]; [done|].
        by rewrite lookup_insert_ne in Hnone.
Qed.

Lemma UnmarshalJSON_loads (T : Saved St) :
  ∀ fuel, (height T ≤ fuel)%nat → loads' (Unmarshal' fuel) T.
Proof.
  induction T as [|ty sl p c0 IH0 c1 IH1]; intros fuel Hfuel s d w Hsaved Hd.
  { destruct Hsaved as [?|?]; done. }
  destruct Hsaved as (s' & m & rT & rS & rC & elems & [= <-] & Hmap & HT & Hty & HS
                      & Hsl & HC & Harr & Hs0 & Hs1 & Hpane).
  destruct fuel as [|fuel]; simpl in Hfuel; [lia|].
  set (n1 := with_SplitLine sl DisplayNode_zero).
  set (w1 := set_nodes (<[d := n1]> (nodes w)) w).
  assert (nodes w1 !! d = Some n1) as Hd1
    by (unfold w1; simpl; by rewrite lookup_insert_eq).
  destruct (Unmarshal_child_run (Unmarshal' fuel) d true (elems !! 0%nat) c0 w1 n1
              Hd1 eq_refl Hs0 (IH0 fuel ltac:(lia)))
    as (w2 & l & Hrun0 & Hd2 & Hrepr0 & Hload0 & Hgrow0 & Hnew0).
  destruct (Unmarshal_child_run (Unmarshal' fuel) d false (elems !! 1%nat) c1 w2 _
              Hd2 eq_refl Hs1 (IH1 fuel ltac:(lia)))
    as (w3 & r & Hrun1 & Hd3 & Hrepr1 & Hload1 & Hgrow1 & Hnew1).
  destruct (Unmarshal_Pane_run d m ty p w3 _ Hd3 eq_refl Hpane)
    as (w4 & slot & Hrun2 & Hd4 & Hload2 & Hgrow2).
  set (n4 := with_Pane slot
               (with_Children1 (tree_root r) (with_Children0 (tree_root l) n1))) in *.
  assert (grows w w1 d) as Hgrow by apply grows_store.
  exists w4, (Node d n4 l r).
  split.
  { simpl. rewrite Hmap. unfold bind at 1. unfold member at 1. rewrite HT. rewrite Hty.
    unfold bind at 1.
    assert (Unmarshal_SplitLine_Children Unmarshal_SplitLine Unmarshal_array
              (Unmarshal' fuel) (Some d) m w = Ok (None, w3)) as ->.
    { unfold Unmarshal_SplitLine_Children. unfold bind at 1, member at 1. rewrite HS.
      unfold bind at 1. rewrite (load_ok w d _ Hd). simpl. rewrite Hsl.
      unfold bind at 1. rewrite (store_ok w d _ _ Hd).
      unfold bind at 1, member at 1. simpl. rewrite HC.
      unfold Unmarshal_Children. rewrite Harr. unfold bind at 1.
      fold n1. fold w1. rewrite Hrun0. exact Hrun1. }
    exact Hrun2. }
  assert (∀ a, a ∈ addrs l → a ≠ d) as Hld.
  { intros a Ha Heq. rewrite Heq in Ha. rewrite (Hnew0 d Ha) in Hd1. done. }
  assert (∀ a, a ∈ addrs r → a ≠ d) as Hrd.
  { intros a Ha Heq. rewrite Heq in Ha. rewrite (Hnew1 d Ha) in Hd2. done. }
  destruct Hgrow0 as (Hn0 & Hp0 & Hdom0).
  destruct Hgrow1 as (Hn1 & Hp1 & Hdom1).
  destruct Hgrow2 as (Hn2 & Hp2 & Hdom2).
  split.
  { simpl. split; [done|]. split; [done|]. split.
    - apply (repr_agree (nodes w2)); [done|]. intros a Ha.
      pose proof (repr_addrs_dom _ _ _ _ Hrepr0 Ha) as Hsome.
      rewrite Hn2; [by apply Hn1; auto|by auto|].
      rewrite Hn1; auto.
    - apply (repr_agree (nodes w3)); [done|]. intros a Ha.
      pose proof (repr_addrs_dom _ _ _ _ Hrepr1 Ha) as Hsome.
      apply Hn2; auto. }
  split.
  { simpl. split; [done|]. split; [done|]. split.
    - apply (loaded_mono w2); [by etrans|done].
    - by apply (loaded_mono w3). }
  split.
  { apply (grows_trans _ w1); [done|].
    apply (grows_trans _ w2); [done|].
    apply (grows_trans _ w3); done. }
  intros a Ha. simpl in Ha.
  apply elem_of_cons in Ha as [->|[Ha|Ha]%elem_of_app]; [by left| |]; right.
  - pose proof (Hnew0 a Ha) as Hnone. unfold w1 in Hnone. simpl in Hnone.
    rewrite lookup_insert_ne in Hnone; [done|]. intros Heq. by apply (Hld a).
  - pose proof (Hnew1 a Ha) as Hnone.
    destruct (nodes w !! a) as [x|] eqn:Hx; [exfalso|done].
    destruct (Hdom0 a) as [y Hy].
    + unfold w1. simpl. rewrite lookup_insert_ne by (intros Heq; by apply (Hrd a)).
      rewrite Hx. by eexists.
    + congruence.
Qed.

(** X20. Loading builds the tree that the message describes.  For a
    message that decodes without error as a saved tree (every record
    with its type string, split line, children array and, for a type
    that the switch names, pane member), [UnmarshalJSON] into a node
    that is [DisplayNode{}] returns nil and leaves in the store a tree
    with the same shape: the split line of every record, nil for a
    missing or null child, and in every pane slot nil for the empty type
    string, a new object of the type with the decoded state for a type
    that the switch names, and a new empty pane for any other type.  The
    tree is made of the node given and of new nodes; the other nodes and
    the pane objects of the store are kept. *)
Theorem UnmarshalJSON_builds_tree (T : Saved St) (s : RawMessage) (d : loc)
    (w : World St) (fuel : nat) :
  saved' (Some (Some s)) T → nodes w !! d = Some DisplayNode_zero →
  (height T ≤ fuel)%nat →
  ∃ (w' : World St) (t : Tree),
    Unmarshal' fuel (Some d) s w = Ok (None, w')
    ∧ repr (nodes w') (Some d) t
    ∧ loaded w' T t
    ∧ grows w w' d
    ∧ (∀ a, a ∈ addrs t → a = d ∨ nodes w !! a = None).
Proof.
  intros Hsaved Hd Hfuel.
  exact (UnmarshalJSON_loads T fuel Hfuel s d w Hsaved Hd).
Qed.

End LoadProperties.
